(** * Terrain height field and road ribbon of the driving scene

    A shallow embedding of the numeric kernels of [EnhancedDrivingSimulation]:
    [generateHeightMap], the height closure installed by [createTerrain], the
    direct-sampling method [getHeightAtPosition], and the vertex loop of
    [createRoad].

    Number model.  A JavaScript number is modelled as a real number: finite
    arithmetic is exact (binary64 and Float32Array rounding and signed zeros
    are not represented).  The two divisions of the code whose divisor can be
    zero are modelled with their IEEE outcome ([js_div]), and a read outside
    an array yields [undefined], which arithmetic turns into [NaN]. *)

From Stdlib Require Import Reals Lra Lia ZArith.
From stdpp Require Import base list.

Open Scope R_scope.

(** ** Numbers *)

Inductive number : Type :=
  | Num (r : R)
  | NaN
  | PosInfinity
  | NegInfinity.

(** [a / b] for finite [a] and [b]. *)
Definition js_div (a b : R) : number :=
  if Req_dec_T b 0 then
    if Req_dec_T a 0 then NaN
    else if Rlt_dec 0 a then PosInfinity else NegInfinity
  else Num (a / b).

(** The comparison [a < b] on finite numbers. *)
Definition Rltb (a b : R) : bool := if Rlt_dec a b then true else false.

(** [n + b] for a finite [b]. *)
Definition js_add (n : number) (b : R) : number :=
  match n with
  | Num a => Num (a + b)
  | other => other
  end.

(** [~~v] on an integer-valued [v]: wrap into the signed 32-bit range. *)
Definition to_int32 (v : Z) : Z :=
  ((v + 2 ^ 31) mod 2 ^ 32 - 2 ^ 31)%Z.

(** [Math.min(...data)] and [Math.max(...data)] for a non-empty [data]. *)
Definition Math_min (d0 : R) (ds : list R) : R := foldl Rmin d0 ds.
Definition Math_max (d0 : R) (ds : list R) : R := foldl Rmax d0 ds.

(** ** generateHeightMap *)

Section HeightMap.

(** [perlin.noise] of three.js' ImprovedNoise, and the value drawn for [z]. *)
Variable noise : R -> R -> R -> R.
Variable z : R.

(** Body of the inner loop: [data[i] += |noise(x/quality, y/quality, z) * quality|]. *)
Definition sample (width : nat) (quality : R) (i : nat) : R :=
  let x := (Z.of_nat i mod Z.of_nat width)%Z in
  let y := to_int32 (Z.of_nat i / Z.of_nat width) in
  Rabs (noise (IZR x / quality) (IZR y / quality) z * quality).

(** [for (i = 0; i < size; i++)] for one value of [quality]. *)
Definition octave (width size : nat) (quality : R) (data : list R) : list R :=
  foldl (fun d i => alter (fun v => v + sample width quality i) i d)
        data (seq 0 size).

(** [for (j = 0; j < steps; j++) { ...; quality *= 4 }]. *)
Fixpoint octaves (steps : nat) (width size : nat) (quality : R)
         (data : list R) : list R :=
  match steps with
  | O => data
  | S steps' =>
      octaves steps' width size (quality * 4) (octave width size quality data)
  end.

Definition accumulate (width height : nat) : list R :=
  let size := (width * height)%nat in
  octaves 4 width size 1 (replicate size 0).

(** The normalisation loop; it does not run on an empty array. *)
Definition normalize_data (data : list R) : list number :=
  match data with
  | [] => []
  | d0 :: ds =>
      let min := Math_min d0 ds in
      let max := Math_max d0 ds in
      let range := max - min in
      (fun v => js_div (v - min) range) <$> data
  end.

Definition generateHeightMap (width height : nat) : list number :=
  normalize_data (accumulate width height).

End HeightMap.

(** A grid normalised to the unit interval, both ends attained. *)
Definition unit_value (v : number) : Prop :=
  exists r, v = Num r /\ 0 <= r <= 1.

Definition normalized_grid (g : list number) : Prop :=
  Forall unit_value g /\ Num 0 ∈ g /\ Num 1 ∈ g.


(** ** The height closure installed by createTerrain *)

Module CreateTerrain.

Definition size : R := 1000.
Definition maxHeight : R := 30.

(** World coordinate to terrain coordinate: [(x + size / 2) / size]. *)
Definition terrainCoordinate (x : R) : R := (x + size / 2) / size.

Section Closure.

(** [resolution] is 128 in the source; [heightMap] is the captured array,
    taken here with finite entries. *)
Variable resolution : Z.
Variable heightMap : list R.

(** [heightMap[k]]: [undefined] outside the array. *)
Definition read (k : Z) : option R :=
  if (k <? 0)%Z then None else heightMap !! Z.to_nat k.

(** [t < 0 || t > 1]. *)
Definition outside (t : R) : bool := Rltb t 0 || Rltb 1 t.

(** [Math.min(Math.floor(t * (resolution - 1)), resolution - 2)]. *)
Definition cellIndex (t : R) : Z :=
  Z.min (Zfloor (t * IZR (resolution - 1))) (resolution - 2).

Definition getHeightAtPosition (x z : R) : number :=
  let terrainX := terrainCoordinate x in
  let terrainZ := terrainCoordinate z in
  if outside terrainX || outside terrainZ then Num 0
  else
    let xIndex := cellIndex terrainX in
    let zIndex := cellIndex terrainZ in
    let xFrac := terrainX * IZR (resolution - 1) - IZR xIndex in
    let zFrac := terrainZ * IZR (resolution - 1) - IZR zIndex in
    match read (zIndex * resolution + xIndex)%Z,
          read (zIndex * resolution + xIndex + 1)%Z,
          read ((zIndex + 1) * resolution + xIndex)%Z,
          read ((zIndex + 1) * resolution + xIndex + 1)%Z with
    | Some v00, Some v10, Some v01, Some v11 =>
        let h00 := v00 * maxHeight in
        let h10 := v10 * maxHeight in
        let h01 := v01 * maxHeight in
        let h11 := v11 * maxHeight in
        let h0 := h00 * (1 - xFrac) + h10 * xFrac in
        let h1 := h01 * (1 - xFrac) + h11 * xFrac in
        Num (h0 * (1 - zFrac) + h1 * zFrac)
    | _, _, _, _ => NaN
    end.

End Closure.

(** The grid of the source has 128 x 128 cells. *)
Definition resolution : Z := 128.

End CreateTerrain.

(** Bilinear interpolation of four corner values at offsets [fx], [fz]. *)
Definition bilinear (c00 c10 c01 c11 fx fz : R) : R :=
  (c00 * (1 - fx) + c10 * fx) * (1 - fz) + (c01 * (1 - fx) + c11 * fx) * fz.

(** ** The direct-sampling method getHeightAtPosition *)

Inductive season : Type := summer | autumn | winter | spring.

Definition is_winter (s : season) : bool :=
  match s with winter => true | _ => false end.

Module Direct.

Section Method.

(** [this.noise.perlin2] and [this.config.season]. *)
Variable perlin2 : R -> R -> R.
Variable config_season : season.

Definition scale : R := 0.01.
Definition waterHeight : R := -3.

(** The octave loop, carrying [height], [amplitude] and [frequency]. *)
Fixpoint octaveLoop (octaves : nat) (x z height amplitude frequency : R) : R :=
  match octaves with
  | O => height
  | S octaves' =>
      octaveLoop octaves' x z
        (height + perlin2 (x * scale * frequency) (z * scale * frequency) * amplitude)
        (amplitude * 0.5) (frequency * 2)
  end.

(** The four-octave noise sum, scaled: [height = height * 15]. *)
Definition scaledHeight (x z : R) : R :=
  octaveLoop 4 x z 0 1 1 * 15.

(** The height after the seasonal adjustment. *)
Definition seasonalHeight (x z : R) : R :=
  let height := scaledHeight x z in
  if is_winter config_season then height * 0.8 + 2 else height.

Definition getHeightAtPosition (x z : R) : R :=
  let height := seasonalHeight x z in
  if Rltb height waterHeight && negb (is_winter config_season)
  then waterHeight
  else height.

End Method.

End Direct.

(** ** Vectors and curves of the scene library *)

Module THREE.

Record Vector3 : Type := mkVector3 { x : R; y : R; z : R }.

Definition length (v : Vector3) : R :=
  sqrt (x v * x v + y v * y v + z v * z v).

(** Modelled from the spec: [normalize] is the library's Vector3 method, not
    part of the sources; it rescales a vector to unit length, and the library
    divides by [length() || 1], which leaves the zero vector unchanged. *)
Definition normalize (v : Vector3) : Vector3 :=
  let l := length v in
  let d := if Req_dec_T l 0 then 1 else l in
  mkVector3 (x v * (1 / d)) (y v * (1 / d)) (z v * (1 / d)).

(** [a.distanceTo(b)]. *)
Definition distanceTo (a b : Vector3) : R :=
  length (mkVector3 (x a - x b) (y a - y b) (z a - z b)).

(** A curve object, as [createRoad] uses it.  [getPoint] answers [None] for
    [null] and [getTangent] answers [None] when the call raises. *)
Record Curve : Type := mkCurve {
  getPoint : number -> option Vector3;
  getTangent : number -> option Vector3
}.

(** Modelled from the spec: the spline classes are library code, not part of
    the sources.  The interpolating curve through two control points [p] and
    [q] is the segment from [p] to [q], with constant unit tangent. *)
Definition segmentCurve (p q : Vector3) : Curve :=
  let d := mkVector3 (x q - x p) (y q - y p) (z q - z p) in
  mkCurve
    (fun t => match t with
              | Num r => Some (mkVector3 (x p + r * x d) (y p + r * y d) (z p + r * z d))
              | _ => None
              end)
    (fun t => match t with
              | Num _ => Some (normalize d)
              | _ => None
              end).

End THREE.

(** ** The vertex loop of createRoad *)

Inductive error : Type :=
  | TypeError      (** a property read on [null] *)
  | InvalidInput.  (** the validation failure of the specification *)

Inductive completion (A : Type) : Type :=
  | Normal (a : A)
  | Throw (e : error).
Arguments Normal {A} a.
Arguments Throw {A} e.

Module CreateRoad.

Section Loop.

(** The curve built from the control points, [this.getHeightAtPosition], and
    the two constants of the source ([roadWidth = 15], [roadSegments = 100]). *)
Variable roadCurve : THREE.Curve.
Variable getHeightAtPosition : R -> R -> number.
Variable roadWidth : R.
Variable roadSegments : Z.

(** [(j === 0 ? -1 : 1) * roadWidth / 2]. *)
Definition halfWidth (j : nat) : R :=
  (if Nat.eqb j 0 then -1 else 1) * roadWidth / 2.

(** One pass of the inner loop: the three writes for vertex [i * 2 + j]. *)
Definition setVertex (i j : nat) (point normal : THREE.Vector3)
           (height : number) (positions : list number) : list number :=
  let vertexIndex := ((i * 2 + j) * 3)%nat in
  let width := halfWidth j in
  <[(vertexIndex + 2)%nat := Num (THREE.z point + THREE.z normal * width)]>
    (<[(vertexIndex + 1)%nat := height]>
      (<[vertexIndex := Num (THREE.x point + THREE.x normal * width)]> positions)).

(** [t = i / roadSegments]. *)
Definition parameter (i : nat) : number :=
  js_div (INR i) (IZR roadSegments).

(** The planar normal [new Vector3(-tangent.z, 0, tangent.x).normalize()]. *)
Definition planarNormal (tangent : THREE.Vector3) : THREE.Vector3 :=
  THREE.normalize (THREE.mkVector3 (- THREE.z tangent) 0 (THREE.x tangent)).

(** Body of the outer loop for sample [i]. *)
Definition step (i : nat) (positions : list number) : completion (list number) :=
  let t := parameter i in
  match THREE.getPoint roadCurve t with
  | None => Throw TypeError
  | Some point =>
      let height :=
        js_add (getHeightAtPosition (THREE.x point) (THREE.z point)) 0.2 in
      match THREE.getTangent roadCurve t with
      | None => Throw TypeError
      | Some tangent =>
          let normal := planarNormal tangent in
          Normal (setVertex i 1 point normal height
                    (setVertex i 0 point normal height positions))
      end
  end.

(** The vertex the loop emits for sample [i] on side [j], when the curve
    answers at that sample. *)
Definition emitted (i j : nat) : option (number * number * number) :=
  match THREE.getPoint roadCurve (parameter i),
        THREE.getTangent roadCurve (parameter i) with
  | Some point, Some tangent =>
      let normal := planarNormal tangent in
      Some (Num (THREE.x point + THREE.x normal * halfWidth j),
            js_add (getHeightAtPosition (THREE.x point) (THREE.z point)) 0.2,
            Num (THREE.z point + THREE.z normal * halfWidth j))
  | _, _ => None
  end.

(** [for (i = first; i <= roadSegments; i++)], with [count] passes left. *)
Fixpoint loop (count first : nat) (positions : list number)
  : completion (list number) :=
  match count with
  | O => Normal positions
  | S count' =>
      match step first positions with
      | Normal positions' => loop count' (S first) positions'
      | Throw e => Throw e
      end
  end.

(** The position buffer after the loop; [positions] is the buffer allocated
    by [new THREE.PlaneGeometry(roadWidth, roadLength, 1, roadSegments)]. *)
Definition vertices (positions : list number) : completion (list number) :=
  loop (Z.to_nat (roadSegments + 1)) 0 positions.

(** The curve answers, with a point and a tangent, at every sample. *)
Definition sampled : Prop :=
  forall i : nat, (i <= Z.to_nat roadSegments)%nat ->
    is_Some (THREE.getPoint roadCurve (parameter i)) /\
    is_Some (THREE.getTangent roadCurve (parameter i)).

(** The layout of the buffer of [PlaneGeometry(_, _, 1, roadSegments)]:
    [(1 + 1) * (roadSegments + 1)] vertices of three coordinates each. *)
Definition planeBuffer (positions : list number) : Prop :=
  List.length positions = (Z.to_nat ((1 + 1) * (roadSegments + 1)) * 3)%nat.

End Loop.

(** The pieces handed to the curve path: one two-point spline for each pair
    of consecutive control points. *)
Definition pieces (controlPoints : list THREE.Vector3)
  : list (THREE.Vector3 * THREE.Vector3) :=
  zip controlPoints (tail controlPoints).

(** The ten control points of the source. *)
Definition controlPoints : list THREE.Vector3 :=
  (fun i : nat =>
     let t := INR i / 9 in
     let angle := t * PI * 4 in
     let radius := 200 - t * 100 in
     THREE.mkVector3 (cos angle * radius) 0 (sin angle * radius - 200))
  <$> seq 0 10.

Section Builder.

(** The library's curve path over the pieces. *)
Variable CurvePath : list (THREE.Vector3 * THREE.Vector3) -> THREE.Curve.
Variable getHeightAtPosition : R -> R -> number.

(** The vertex loop with the control points, the width and the segment
    count as arguments. *)
Definition createRoadWith (points : list THREE.Vector3) (roadWidth : R)
           (roadSegments : Z) (positions : list number)
  : completion (list number) :=
  vertices (CurvePath (pieces points)) getHeightAtPosition
           roadWidth roadSegments positions.

(** The vertex loop as the source runs it. *)
Definition createRoad (positions : list number) : completion (list number) :=
  createRoadWith controlPoints 15 100 positions.

End Builder.

(** The vertex [k] of a position buffer. *)
Definition vertexAt (positions : list number) (k : nat)
  : option (number * number * number) :=
  match positions !! (k * 3)%nat, positions !! (k * 3 + 1)%nat,
        positions !! (k * 3 + 2)%nat with
  | Some a, Some b, Some c => Some (a, b, c)
  | _, _, _ => None
  end.

(** The number of vertices a position buffer holds. *)
Definition vertexCount (positions : list number) : nat :=
  (List.length positions / 3)%nat.

End CreateRoad.

(** ** The straight two-point road of the end-to-end scenario *)

Module Scenario.

Definition start : THREE.Vector3 := THREE.mkVector3 0 0 0.
Definition finish : THREE.Vector3 := THREE.mkVector3 0 0 10.

(** The flat height field. *)
Definition flat : R -> R -> number := fun _ _ => Num 0.

(** Modelled from the spec: the curve path is library code, not part of the
    sources.  Over a single piece it is that piece; a path of no piece
    answers [null].  Paths of several pieces are not needed here and are
    given no points by this stand-in. *)
Definition path (ps : list (THREE.Vector3 * THREE.Vector3)) : THREE.Curve :=
  match ps with
  | [(p, q)] => THREE.segmentCurve p q
  | _ => THREE.mkCurve (fun _ => None) (fun _ => None)
  end.

(** A buffer of six vertices, as the plane of two segments allocates. *)
Definition buffer : list number := replicate 18 (Num 0).

End Scenario.

(** ** The mesh heights set by createTerrain *)

(** [n * b] for a finite [b]. *)
Definition js_mul (n : number) (b : R) : number :=
  match n with
  | Num a => Num (a * b)
  | NaN => NaN
  | PosInfinity =>
      if Req_dec_T b 0 then NaN
      else if Rlt_dec 0 b then PosInfinity else NegInfinity
  | NegInfinity =>
      if Req_dec_T b 0 then NaN
      else if Rlt_dec 0 b then NegInfinity else PosInfinity
  end.

Module TerrainMesh.

Section Heights.

(** The array returned by [generateHeightMap]. *)
Variable heightMap : list number.

(** [heightMap[i] * maxHeight]; [undefined * maxHeight] is [NaN]. *)
Definition scaled (i : nat) : number :=
  match heightMap !! i with
  | Some v => js_mul v CreateTerrain.maxHeight
  | None => NaN
  end.

(** [for (let i = 0, j = 0, l = vertices.length; i < l; i++, j += 3)
      vertices[j + 1] = heightMap[i] * maxHeight], with [count] passes left. *)
Fixpoint heightLoop (count i j : nat) (vertices : list number) : list number :=
  match count with
  | O => vertices
  | S count' =>
      heightLoop count' (S i) (j + 3) (<[(j + 1)%nat := scaled i]> vertices)
  end.

Definition applyHeightMap (vertices : list number) : list number :=
  heightLoop (List.length vertices) 0 0 vertices.

End Heights.

End TerrainMesh.


(** ** updateCarPhysics *)

(** [Math.atan2(y, x)] on finite numbers. *)
Definition Math_atan2 (y x : R) : R :=
  if Rltb 0 x then atan (y / x)
  else if Rltb x 0 then
    if Rltb y 0 then atan (y / x) - PI else atan (y / x) + PI
  else if Rltb 0 y then PI / 2
  else if Rltb y 0 then - (PI / 2)
  else 0.

Module CarPhysics.

(** [this.keys]. *)
Record Keys : Type := mkKeys {
  forward : bool;
  backward : bool;
  left : bool;
  right : bool;
  brake : bool;
  headlights : bool
}.

(** [this.carPhysics]. *)
Record Physics : Type := mkPhysics {
  speed : R;
  maxSpeed : R;
  acceleration : R;
  deceleration : R;
  turnSpeed : R;
  brakingForce : R;
  gravity : R;
  groundHeight : R;
  suspension : R
}.

(** An entry of [car.userData.wheels], with the two angles of its mesh. *)
Record Wheel : Type := mkWheel {
  mesh_rotation_x : R;
  mesh_rotation_y : R;
  steering : bool
}.

(** The car group: position, Euler angles and wheels. *)
Record Car : Type := mkCar {
  position : THREE.Vector3;
  rotation : THREE.Vector3;
  wheels : list Wheel
}.

Record State : Type := mkState {
  keys : Keys;
  carPhysics : Physics;
  car : Car;
  camera_position : THREE.Vector3
}.

(** The values the constructor gives to [this.carPhysics]. *)
Definition initialPhysics : Physics :=
  mkPhysics 0 0.8 0.01 0.005 0.03 0.02 0.01 0 0.5.

(** Modelled from the spec: [clamp] is the scene library's MathUtils
    function, not part of the sources: [Math.max(min, Math.min(max, value))]. *)
Definition clamp (value min max : R) : R := Rmax min (Rmin max value).

(** The block the source uses for deceleration and again for the brakes:
    pull the speed towards zero by [force * deltaTime], stopping at zero. *)
Definition slow (force deltaTime v : R) : R :=
  if Rltb 0 v then
    let v' := v - force * deltaTime in
    if Rltb v' 0 then 0 else v'
  else if Rltb v 0 then
    let v' := v + force * deltaTime in
    if Rltb 0 v' then 0 else v'
  else v.

Section Update.

Variable deltaTime : R.

(** [this.getHeightAtPosition], taken where it answers with finite numbers. *)
Variable getHeightAtPosition : R -> R -> R.

(** Acceleration or deceleration based on input. *)
Definition throttle (k : Keys) (p : Physics) (v : R) : R :=
  if forward k then v + acceleration p * deltaTime
  else if backward k then v - acceleration p * deltaTime
  else slow (deceleration p) deltaTime v.

Definition applyBrakes (k : Keys) (p : Physics) (v : R) : R :=
  if brake k then slow (brakingForce p) deltaTime v else v.

(** [this.carPhysics.speed] after the clamp. *)
Definition newSpeed (k : Keys) (p : Physics) : R :=
  clamp (applyBrakes k p (throttle k p (speed p)))
        (- maxSpeed p * 0.5) (maxSpeed p).

Definition turnAmount (k : Keys) (p : Physics) : R :=
  let amount := 0 in
  let amount := if left k then turnSpeed p * deltaTime else amount in
  if right k then - turnSpeed p * deltaTime else amount.

Definition steer (amount : R) (w : Wheel) : Wheel :=
  if steering w
  then mkWheel (mesh_rotation_x w) (amount * 10) (steering w)
  else w.

Definition spin (wheelSpeed : R) (w : Wheel) : Wheel :=
  mkWheel (mesh_rotation_x w + wheelSpeed * deltaTime)
          (mesh_rotation_y w) (steering w).

Definition updateCarPhysics (s : State) : State :=
  let k := keys s in
  let p := carPhysics s in
  let v := newSpeed k p in
  let amount := turnAmount k p in
  let moving := Rltb 0.01 (Rabs v) in
  let turnFactor := if Rltb 0 v then 1 else 0.5 in
  let heading :=
    if moving then THREE.y (rotation (car s)) + amount * turnFactor
    else THREE.y (rotation (car s)) in
  let wheels1 :=
    if moving then steer amount <$> wheels (car s) else wheels (car s) in
  let moveX := sin heading * v * deltaTime in
  let moveZ := cos heading * v * deltaTime in
  let x := THREE.x (position (car s)) + moveX in
  let z := THREE.z (position (car s)) + moveZ in
  let y := THREE.y (position (car s)) in
  let cameraOffset :=
    THREE.mkVector3 (- sin heading * 10) 5 (- cos heading * 10) in
  let camera :=
    THREE.mkVector3 (x + THREE.x cameraOffset) (y + THREE.y cameraOffset)
                    (z + THREE.z cameraOffset) in
  let terrainHeight := getHeightAtPosition x z in
  let targetHeight := terrainHeight + suspension p + 1 in
  let y' := y + (targetHeight - y) * 0.1 in
  let forwardHeight :=
    getHeightAtPosition (x + sin heading * 2) (z + cos heading * 2) in
  let backwardHeight :=
    getHeightAtPosition (x - sin heading * 2) (z - cos heading * 2) in
  let rightHeight :=
    getHeightAtPosition (x + sin (heading + PI / 2) * 1)
                        (z + cos (heading + PI / 2) * 1) in
  let leftHeight :=
    getHeightAtPosition (x + sin (heading - PI / 2) * 1)
                        (z + cos (heading - PI / 2) * 1) in
  let pitchAngle := Math_atan2 (forwardHeight - backwardHeight) 4 in
  let rollAngle := Math_atan2 (rightHeight - leftHeight) 2 in
  let pitch := THREE.x (rotation (car s)) in
  let roll := THREE.z (rotation (car s)) in
  let wheelSpeed := v * 2 in
  mkState k
    (mkPhysics v (maxSpeed p) (acceleration p) (deceleration p) (turnSpeed p)
               (brakingForce p) (gravity p) (groundHeight p) (suspension p))
    (mkCar (THREE.mkVector3 x y' z)
           (THREE.mkVector3 (pitch + (pitchAngle - pitch) * 0.1) heading
                            (roll + (rollAngle - roll) * 0.1))
           (spin wheelSpeed <$> wheels1))
    camera.

End Update.

End CarPhysics.

(** States for worked cases: the car of the constructor at the origin,
    heading along z, with the given keys and speed. *)
Module CarExample.

Definition released : CarPhysics.Keys :=
  CarPhysics.mkKeys false false false false false false.

Definition state (k : CarPhysics.Keys) (v : R) : CarPhysics.State :=
  CarPhysics.mkState k
    (CarPhysics.mkPhysics v 0.8 0.01 0.005 0.03 0.02 0.01 0 0.5)
    (CarPhysics.mkCar (THREE.mkVector3 0 0 0) (THREE.mkVector3 0 0 0)
       [CarPhysics.mkWheel 0 0 true; CarPhysics.mkWheel 0 0 true;
        CarPhysics.mkWheel 0 0 false; CarPhysics.mkWheel 0 0 false])
    (THREE.mkVector3 0 5 (-10)).

(** A level ground at height 0. *)
Definition level : R -> R -> R := fun _ _ => 0.

End CarExample.


(** ** The first simulation (DrivingSimulation) *)

Module Simple.

(** [this.keys]. *)
Record Keys : Type := mkKeys {
  forward : bool;
  backward : bool;
  left : bool;
  right : bool
}.

(** The fields of the simulation that [updateCarPosition] reads or writes. *)
Record State : Type := mkState {
  keys : Keys;
  carSpeed : R;
  maxSpeed : R;
  acceleration : R;
  deceleration : R;
  turnSpeed : R;
  car_position : THREE.Vector3;
  car_rotation_y : R;
  camera_position : THREE.Vector3
}.

(** The state the constructor leaves: car at the origin, at rest. *)
Definition initial : State :=
  mkState (mkKeys false false false false) 0 0.5 0.01 0.005 0.03
          (THREE.mkVector3 0 0 0) 0 (THREE.mkVector3 0 5 (-10)).

(** Acceleration and deceleration. *)
Definition newSpeed (s : State) : R :=
  let v := carSpeed s in
  if forward (keys s) then
    let v := v + acceleration s in
    if Rltb (maxSpeed s) v then maxSpeed s else v
  else if backward (keys s) then
    let v := v - acceleration s in
    if Rltb v (- maxSpeed s / 2) then - maxSpeed s / 2 else v
  else if Rltb 0 v then
    let v := v - deceleration s in
    if Rltb v 0 then 0 else v
  else if Rltb v 0 then
    let v := v + deceleration s in
    if Rltb 0 v then 0 else v
  else v.

Definition newHeading (s : State) : R :=
  let h := car_rotation_y s in
  let h := if left (keys s) then h + turnSpeed s else h in
  if right (keys s) then h - turnSpeed s else h.

Definition updateCarPosition (s : State) : State :=
  let v := newSpeed s in
  let h := newHeading s in
  let moveX := sin h * v in
  let moveZ := cos h * v in
  let x := THREE.x (car_position s) + moveX in
  let z := THREE.z (car_position s) + moveZ in
  let y := THREE.y (car_position s) in
  mkState (keys s) v (maxSpeed s) (acceleration s) (deceleration s)
          (turnSpeed s) (THREE.mkVector3 x y z) h
          (THREE.mkVector3 (x + sin h * -10) (y + 5) (z + cos h * -10)).

(** A frame: the key handlers have left [k] in [this.keys], then the
    update runs. *)
Definition frame (s : State) (k : Keys) : State :=
  updateCarPosition
    (mkState k (carSpeed s) (maxSpeed s) (acceleration s) (deceleration s)
             (turnSpeed s) (car_position s) (car_rotation_y s)
             (camera_position s)).

(** The objects of the scene that matter here: what they are and where
    they lie along z. *)
Inductive Kind : Type := RoadMesh | MarkingsMesh | OtherObject.

Record Mesh : Type := mkMesh { kind : Kind; position_z : R }.

Record World : Type := mkWorld {
  road : Mesh;
  roadMarkings : Mesh;
  scene : list Mesh
}.

Definition roadSegmentLength : R := 500.

(** [updateRoadPosition], for the car at [z = carZ]. *)
Definition updateRoadPosition (carZ : R) (w : World) : World :=
  if Rltb (roadSegmentLength * 0.4) (Rabs carZ) then
    let newRoad :=
      mkMesh (kind (road w)) (position_z (road w) + roadSegmentLength) in
    let newMarkings :=
      mkMesh (kind (roadMarkings w)) (position_z newRoad) in
    mkWorld (road w) (roadMarkings w) (scene w ++ [newRoad] ++ [newMarkings])
  else w.

Section Trees.

(** The values of the successive calls of [Math.random()]. *)
Variable random : nat -> R.

(** [addTrees]: the positions of the trees added by the first [count]
    passes, pass [i] drawing [random (2 * i)] and [random (2 * i + 1)]. *)
Fixpoint addTrees (count first : nat) : list THREE.Vector3 :=
  match count with
  | O => []
  | S count' =>
      let x := random (2 * first) * 200 - 100 in
      let z := random (2 * first + 1) * 200 - 100 in
      if Rltb 15 (Rabs x)
      then THREE.mkVector3 x 0 z :: addTrees count' (S first)
      else addTrees count' (S first)
  end.

End Trees.

End Simple.

(** ** The trees of the enhanced simulation *)

Module Forest.

Record Tree : Type := mkTree {
  x : R;
  y : number;
  z : R;
  rotation_y : R;
  scale : R
}.

Section AddTrees.

(** The values of the successive calls of [Math.random()], and
    [this.getHeightAtPosition]. *)
Variable random : nat -> R.
Variable getHeightAtPosition : R -> R -> number.

Definition maxDistance : R := 400.

(** The tree of pass [i], which makes the draws [4 * i .. 4 * i + 3]. *)
Definition tree (i : nat) : Tree :=
  let angle := random (4 * i) * PI * 2 in
  let distance := 50 + random (4 * i + 1) * maxDistance in
  let x := cos angle * distance in
  let z := sin angle * distance in
  let y := getHeightAtPosition x z in
  mkTree x y z (random (4 * i + 2) * PI * 2) (0.8 + random (4 * i + 3) * 0.7).

(** [for (let i = 0; i < treeCount; i++)], the trees in the order added. *)
Definition addTrees (treeCount : nat) : list Tree :=
  tree <$> seq 0 treeCount.

End AddTrees.

End Forest.


(** ** addRoadMarkings *)

(** [a + b] on numbers. *)
Definition js_plus (a b : number) : number :=
  match a, b with
  | Num x, Num y => Num (x + y)
  | NaN, _ | _, NaN => NaN
  | PosInfinity, NegInfinity | NegInfinity, PosInfinity => NaN
  | PosInfinity, _ | _, PosInfinity => PosInfinity
  | NegInfinity, _ | _, NegInfinity => NegInfinity
  end.

(** [a > b] for a number [a] and a finite [b]. *)
Definition js_gt (a : number) (b : R) : bool :=
  match a with
  | Num x => Rltb b x
  | PosInfinity => true
  | NaN | NegInfinity => false
  end.

Module RoadMarkings.

(** A dash mesh: its position and the angle its geometry is turned by. *)
Record Dash : Type := mkDash {
  position_x : R;
  position_y : number;
  position_z : R;
  angle : R
}.

Section Dashes.

(** The curve and the height function, and the constants of the source
    ([numDashes = 200], [dashLength = 2], [dashGap = 2]; [heightOffset]
    defaults to 0.1). *)
Variable roadCurve : THREE.Curve.
Variable getHeightAtPosition : R -> R -> number.
Variable heightOffset : R.
Variable numDashes : nat.
Variable dashLength dashGap : R.

(** [t] and [endT] of pass [i]. *)
Definition startT (i : nat) : number :=
  js_div (INR i * (dashLength + dashGap)) (INR numDashes * (dashLength + dashGap)).

Definition endT (i : nat) : number :=
  js_plus (startT i)
          (js_div dashLength (INR numDashes * (dashLength + dashGap))).

(** The dash laid from [point] to [endPoint]. *)
Definition dash (point endPoint tangent : THREE.Vector3) : Dash :=
  mkDash ((THREE.x point + THREE.x endPoint) / 2)
         (js_add (getHeightAtPosition (THREE.x point) (THREE.z point)) heightOffset)
         ((THREE.z point + THREE.z endPoint) / 2)
         (Math_atan2 (THREE.x tangent) (THREE.z tangent)).

(** [for (let i = first; i < numDashes; i++)], with [count] passes left;
    [dashes] are the meshes added to the scene so far. *)
Fixpoint loop (count first : nat) (dashes : list Dash) : completion (list Dash) :=
  match count with
  | O => Normal dashes
  | S count' =>
      let t := startT first in
      if js_gt t 1 then Normal dashes
      else
        let point := THREE.getPoint roadCurve t in
        let e := endT first in
        if js_gt e 1 then Normal dashes
        else
          match THREE.getPoint roadCurve e, THREE.getTangent roadCurve t, point with
          | Some endPoint, Some tangent, Some point =>
              loop count' (S first) (dashes ++ [dash point endPoint tangent])
          | _, _, _ => Throw TypeError
          end
  end.

Definition addRoadMarkings : completion (list Dash) := loop numDashes 0 [].

(** The dash of pass [i], when the curve answers at both of its ends. *)
Definition dashAt (i : nat) : option Dash :=
  match THREE.getPoint roadCurve (startT i), THREE.getPoint roadCurve (endT i),
        THREE.getTangent roadCurve (startT i) with
  | Some point, Some endPoint, Some tangent => Some (dash point endPoint tangent)
  | _, _, _ => None
  end.

End Dashes.

(** The curve answers at every parameter from 0 to 1. *)
Definition answers (c : THREE.Curve) : Prop :=
  forall r, 0 <= r <= 1 ->
    is_Some (THREE.getPoint c (Num r)) /\ is_Some (THREE.getTangent c (Num r)).

End RoadMarkings.

(** ** createRiver *)

Module CreateRiver.

Section Ribbon.

(** The loop the source writes for the river and again for each bank: the
    curve, the segment count, the constant height of the strip, and the
    signed distance of vertex [j] of a pair from the centre line. *)
Variable riverCurve : THREE.Curve.
Variable riverSegments : Z.
Variable height : number.
Variable lateral : nat -> R.

Definition setVertex (i j : nat) (point normal : THREE.Vector3)
           (positions : list number) : list number :=
  let vertexIndex := ((i * 2 + j) * 3)%nat in
  <[(vertexIndex + 2)%nat := Num (THREE.z point + THREE.z normal * lateral j)]>
    (<[(vertexIndex + 1)%nat := height]>
      (<[vertexIndex := Num (THREE.x point + THREE.x normal * lateral j)]> positions)).

(** Body of the outer loop for sample [i]. *)
Definition step (i : nat) (positions : list number) : completion (list number) :=
  let t := js_div (INR i) (IZR riverSegments) in
  match THREE.getPoint riverCurve t, THREE.getTangent riverCurve t with
  | Some point, Some tangent =>
      let normal := CreateRoad.planarNormal tangent in
      Normal (setVertex i 1 point normal (setVertex i 0 point normal positions))
  | _, _ => Throw TypeError
  end.

(** [for (let i = first; i <= riverSegments; i++)], with [count] passes left. *)
Fixpoint loop (count first : nat) (positions : list number)
  : completion (list number) :=
  match count with
  | O => Normal positions
  | S count' =>
      match step first positions with
      | Normal positions' => loop count' (S first) positions'
      | Throw e => Throw e
      end
  end.

Definition strip (positions : list number) : completion (list number) :=
  loop (Z.to_nat (riverSegments + 1)) 0 positions.

(** The vertex written for sample [i] on side [j], when the curve answers. *)
Definition written (i j : nat) : option (number * number * number) :=
  let t := js_div (INR i) (IZR riverSegments) in
  match THREE.getPoint riverCurve t, THREE.getTangent riverCurve t with
  | Some point, Some tangent =>
      let normal := CreateRoad.planarNormal tangent in
      Some (Num (THREE.x point + THREE.x normal * lateral j), height,
            Num (THREE.z point + THREE.z normal * lateral j))
  | _, _ => None
  end.

End Ribbon.

Section River.

(** The curve, and the constants of the source ([riverWidth = 10],
    [riverSegments = 20], [bankWidth = 3]). *)
Variable riverCurve : THREE.Curve.
Variable riverWidth : R.
Variable riverSegments : Z.
Variable bankWidth : R.

(** [(j === 0 ? -1 : 1) * riverWidth / 2]. *)
Definition riverLateral (j : nat) : R :=
  (if Nat.eqb j 0 then -1 else 1) * riverWidth / 2.

(** [offset + width], with [offset = riverWidth / 2 * side] and
    [width = (j === 0 ? 0 : side) * bankWidth]. *)
Definition bankLateral (side : R) (j : nat) : R :=
  riverWidth / 2 * side + (if Nat.eqb j 0 then 0 else side) * bankWidth.

(** The river strip, slightly below the ground. *)
Definition riverVertices (positions : list number) : completion (list number) :=
  strip riverCurve riverSegments (Num (-0.5)) riverLateral positions.

(** The bank strip of one side ([side] is -1, then 1), at ground level. *)
Definition bankVertices (side : R) (bankPositions : list number)
  : completion (list number) :=
  strip riverCurve riverSegments (Num 0) (bankLateral side) bankPositions.

End River.

End CreateRiver.


(** ** The animals *)

(** [new THREE.Vector3().subVectors(a, b)]. *)
Definition subVectors (a b : THREE.Vector3) : THREE.Vector3 :=
  THREE.mkVector3 (THREE.x a - THREE.x b) (THREE.y a - THREE.y b)
                  (THREE.z a - THREE.z b).

Module Bird.

(** [bird.userData.animation]. *)
Record Animation : Type := mkAnimation {
  wingDirection : R;
  wingPosition : R;
  moveTarget : THREE.Vector3;
  moveSpeed : R
}.

(** The bird group with the angles of its two wings ([children[1]] and
    [children[2]]). *)
Record Bird : Type := mkBird {
  position : THREE.Vector3;
  rotation_y : R;
  wingL_rotation_x : R;
  wingR_rotation_x : R;
  animation : Animation
}.

(** [updateBird(bird, deltaTime)]; [r1], [r2], [r3] are the values of the
    three calls of [Math.random()] made when a new target is set. *)
Definition updateBird (deltaTime r1 r2 r3 : R) (bird : Bird) : Bird :=
  let anim := animation bird in
  let wing := wingPosition anim + wingDirection anim * deltaTime * 5 in
  let dir :=
    if Rltb 0.5 wing then -1
    else if Rltb wing (-0.5) then 1
    else wingDirection anim in
  let direction := THREE.normalize (subVectors (moveTarget anim) (position bird)) in
  let p :=
    THREE.mkVector3
      (THREE.x (position bird) + THREE.x direction * moveSpeed anim)
      (THREE.y (position bird) + THREE.y direction * moveSpeed anim)
      (THREE.z (position bird) + THREE.z direction * moveSpeed anim) in
  let distanceToTarget := THREE.distanceTo p (moveTarget anim) in
  let target :=
    if Rltb distanceToTarget 5 then
      THREE.mkVector3 (THREE.x p + (r1 - 0.5) * 100) (10 + r2 * 20)
                      (THREE.z p + (r3 - 0.5) * 100)
    else moveTarget anim in
  mkBird p (Math_atan2 (THREE.x direction) (THREE.z direction))
         wing (- wing)
         (mkAnimation dir wing target (moveSpeed anim)).

(** A frame of the animation loop, as far as a bird sees it. *)
Record Frame : Type := mkFrame { deltaTime : R; r1 : R; r2 : R; r3 : R }.

Definition frame (bird : Bird) (f : Frame) : Bird :=
  updateBird (deltaTime f) (r1 f) (r2 f) (r3 f) bird.

(** The wings beat within [0.5 + 5 * step] of level, [step] bounding the
    time between frames, and the beat has turned once past 0.5. *)
Definition flapping (step : R) (anim : Animation) : Prop :=
  (wingDirection anim = 1 \/ wingDirection anim = -1) /\
  - (0.5 + 5 * step) <= wingPosition anim <= 0.5 + 5 * step /\
  (0.5 < wingPosition anim -> wingDirection anim = -1) /\
  (wingPosition anim < -0.5 -> wingDirection anim = 1).

End Bird.

Module Deer.

Inductive State : Type := idle | walking.

(** [deer.userData.animation]. *)
Record Animation : Type := mkAnimation {
  state : State;
  time : R;
  moveTarget : THREE.Vector3;
  moveSpeed : R
}.

(** The deer group, with the angles of its head ([children[1]]) and of its
    four legs ([children[3]] to [children[6]]). *)
Record Deer : Type := mkDeer {
  position : THREE.Vector3;
  rotation_y : R;
  head_rotation_x : R;
  legs_rotation_x : R * R * R * R;
  animation : Animation
}.

Section Update.

(** [this.getHeightAtPosition], taken where it answers with finite numbers,
    and [this.car.position]. *)
Variable getHeightAtPosition : R -> R -> R.
Variable carPosition : THREE.Vector3.

(** [updateDeer(deer, deltaTime)]; [r0] is the value [Math.random()] gives
    to the idle test, [r1] and [r2] the two values drawn for a new target. *)
Definition updateDeer (deltaTime r0 r1 r2 : R) (deer : Deer) : Deer :=
  let anim := animation deer in
  let t := time anim + deltaTime in
  match state anim with
  | idle =>
      let head := sin (t * 0.5) * 0.05 in
      if Rltb r0 0.005 then
        let target :=
          THREE.mkVector3 (THREE.x (position deer) + (r1 - 0.5) * 50) 0
                          (THREE.z (position deer) + (r2 - 0.5) * 50) in
        let direction := THREE.normalize (subVectors target (position deer)) in
        mkDeer (position deer)
               (Math_atan2 (THREE.x direction) (THREE.z direction))
               head (legs_rotation_x deer)
               (mkAnimation walking t target (moveSpeed anim))
      else
        mkDeer (position deer) (rotation_y deer) head (legs_rotation_x deer)
               (mkAnimation idle t (moveTarget anim) (moveSpeed anim))
  | walking =>
      let legAnimSpeed := 5 in
      let legAnimAmp := 0.2 in
      let legs :=
        (sin (t * legAnimSpeed) * legAnimAmp,
         sin (t * legAnimSpeed + PI) * legAnimAmp,
         sin (t * legAnimSpeed + PI) * legAnimAmp,
         sin (t * legAnimSpeed) * legAnimAmp) in
      let direction :=
        THREE.normalize (subVectors (moveTarget anim) (position deer)) in
      let x := THREE.x (position deer) + THREE.x direction * moveSpeed anim in
      let z := THREE.z (position deer) + THREE.z direction * moveSpeed anim in
      let terrainHeight := getHeightAtPosition x z in
      let p := THREE.mkVector3 x (terrainHeight + 2) z in
      let distanceToTarget := THREE.distanceTo p (moveTarget anim) in
      let arrived := Rltb distanceToTarget 2 in
      let st := if arrived then idle else walking in
      let t := if arrived then 0 else t in
      let distanceToCar := THREE.distanceTo p carPosition in
      if Rltb distanceToCar 15 then
        let target :=
          THREE.mkVector3 (x + (x - THREE.x carPosition) * 2) 0
                          (z + (z - THREE.z carPosition) * 2) in
        let away := THREE.normalize (subVectors p carPosition) in
        mkDeer p (Math_atan2 (THREE.x away) (THREE.z away))
               (head_rotation_x deer) legs
               (mkAnimation st t target 0.2)
      else
        mkDeer p (rotation_y deer) (head_rotation_x deer) legs
               (mkAnimation st t (moveTarget anim) (moveSpeed anim))
  end.

End Update.

(** A frame of the animation loop, as far as a deer sees it: the time
    step, the car's position and the random draws. *)
Record Frame : Type := mkFrame {
  deltaTime : R;
  car : THREE.Vector3;
  r0 : R;
  r1 : R;
  r2 : R
}.

Definition frame (getHeightAtPosition : R -> R -> R) (deer : Deer) (f : Frame)
  : Deer :=
  updateDeer getHeightAtPosition (car f) (deltaTime f) (r0 f) (r1 f) (r2 f) deer.

End Deer.

(** ** toggleHeadlights *)

Module Headlights.

(** The two headlight meshes share one material; each spot light has its
    own intensity. *)
Record State : Type := mkState {
  headlightsOn : bool;
  headlightIntensity : R;
  emissiveIntensity : R;
  spotlights : list R
}.

(** How a call ends: normally, or with the [ReferenceError] of reading a
    name that is bound nowhere. *)
Inductive Outcome : Type := Returned | ReferenceError.

(** A statement: the state it leaves and how it ends. *)
Definition Statement : Type := State -> State * Outcome.

(** Statements in sequence: the second runs only if the first returned. *)
Definition seq_ (a b : Statement) : Statement :=
  fun s => match a s with
           | (s', Returned) => b s'
           | (s', ReferenceError) => (s', ReferenceError)
           end.

(** [this.config.headlightsOn = !this.config.headlightsOn]. *)
Definition flip : Statement :=
  fun s => (mkState (negb (headlightsOn s)) (headlightIntensity s)
                    (emissiveIntensity s) (spotlights s), Returned).

(** [meshes.forEach(light => light.material.emissiveIntensity = on ? 1 : 0)]. *)
Definition lightMeshes : Statement :=
  fun s => (mkState (headlightsOn s) (headlightIntensity s)
                    (if headlightsOn s then 1 else 0) (spotlights s), Returned).

(** [spotlight.intensity = ...] written outside both callbacks, where no
    [spotlight] is in scope. *)
Definition strayAssignment : Statement :=
  fun s => (s, ReferenceError).

(** [spotlights.forEach(spotlight => spotlight.intensity = on ? 2 : 0)]. *)
Definition lightSpotlights : Statement :=
  fun s => (mkState (headlightsOn s) (headlightIntensity s) (emissiveIntensity s)
                    ((fun _ => if headlightsOn s then 2 else 0) <$> spotlights s),
            Returned).

Definition toggleHeadlights : Statement :=
  seq_ flip (seq_ lightMeshes (seq_ strayAssignment lightSpotlights)).

(** The state after the calls made for [n] presses of the H key; an error
    ends the call of the handler and leaves what was written before it. *)
Definition presses (n : nat) (s : State) : State :=
  Nat.iter n (fun s => fst (toggleHeadlights s)) s.

End Headlights.


(** ** The height closure on arbitrary numbers *)

(** [n / b] for a finite [b]. *)
Definition js_quot (n : number) (b : R) : number :=
  match n with
  | Num a => js_div a b
  | NaN => NaN
  | PosInfinity => if Rlt_dec b 0 then NegInfinity else PosInfinity
  | NegInfinity => if Rlt_dec b 0 then PosInfinity else NegInfinity
  end.

(** [a < b] for a number [a] and a finite [b]; false when [a] is [NaN]. *)
Definition js_lt (a : number) (b : R) : bool :=
  match a with
  | Num x => Rltb x b
  | NegInfinity => true
  | NaN | PosInfinity => false
  end.

(** [a - b] on numbers. *)
Definition js_minus (a b : number) : number :=
  match a, b with
  | Num x, Num y => Num (x - y)
  | NaN, _ | _, NaN => NaN
  | PosInfinity, PosInfinity | NegInfinity, NegInfinity => NaN
  | PosInfinity, _ | _, NegInfinity => PosInfinity
  | NegInfinity, _ | _, PosInfinity => NegInfinity
  end.

(** [a * b] on numbers. *)
Definition js_times (a b : number) : number :=
  match a, b with
  | Num x, Num y => Num (x * y)
  | NaN, _ | _, NaN => NaN
  | Num x, infinite => js_mul infinite x
  | infinite, Num y => js_mul infinite y
  | PosInfinity, PosInfinity | NegInfinity, NegInfinity => PosInfinity
  | PosInfinity, NegInfinity | NegInfinity, PosInfinity => NegInfinity
  end.

(** [Math.floor(n)]. *)
Definition Math_floor (n : number) : number :=
  match n with
  | Num r => Num (IZR (Zfloor r))
  | other => other
  end.

(** [Math.min(n, b)] for a finite [b]; [NaN] when [n] is. *)
Definition Math_min2 (n : number) (b : R) : number :=
  match n with
  | Num a => Num (Rmin a b)
  | NaN => NaN
  | PosInfinity => Num b
  | NegInfinity => NegInfinity
  end.

Module Sampler.

Section Closure.

Variable resolution : Z.
Variable heightMap : list R.

(** [heightMap[k]] for a number [k]: the element for an integer inside the
    array, [undefined] under every other key. *)
Definition element (k : number) : option R :=
  match k with
  | Num r =>
      if Req_dec_T r (IZR (Zfloor r)) then CreateTerrain.read heightMap (Zfloor r)
      else None
  | _ => None
  end.

(** [heightMap[k] * maxHeight]; [undefined * maxHeight] is [NaN]. *)
Definition cornerHeight (k : number) : number :=
  match element k with
  | Some v => Num (v * CreateTerrain.maxHeight)
  | None => NaN
  end.

(** The closure of [createTerrain], statement by statement, called with any
    two numbers. *)
Definition getHeightAtPosition (x z : number) : number :=
  let size := CreateTerrain.size in
  let terrainX := js_quot (js_add x (size / 2)) size in
  let terrainZ := js_quot (js_add z (size / 2)) size in
  if js_lt terrainX 0 || js_gt terrainX 1 || js_lt terrainZ 0 || js_gt terrainZ 1
  then Num 0
  else
    let xIndex :=
      Math_min2 (Math_floor (js_mul terrainX (IZR (resolution - 1))))
                (IZR (resolution - 2)) in
    let zIndex :=
      Math_min2 (Math_floor (js_mul terrainZ (IZR (resolution - 1))))
                (IZR (resolution - 2)) in
    let xFrac := js_minus (js_mul terrainX (IZR (resolution - 1))) xIndex in
    let zFrac := js_minus (js_mul terrainZ (IZR (resolution - 1))) zIndex in
    let h00 :=
      cornerHeight (js_plus (js_mul zIndex (IZR resolution)) xIndex) in
    let h10 :=
      cornerHeight (js_add (js_plus (js_mul zIndex (IZR resolution)) xIndex) 1) in
    let h01 :=
      cornerHeight (js_plus (js_mul (js_add zIndex 1) (IZR resolution)) xIndex) in
    let h11 :=
      cornerHeight
        (js_add (js_plus (js_mul (js_add zIndex 1) (IZR resolution)) xIndex) 1) in
    let h0 := js_plus (js_times h00 (js_minus (Num 1) xFrac)) (js_times h10 xFrac) in
    let h1 := js_plus (js_times h01 (js_minus (Num 1) xFrac)) (js_times h11 xFrac) in
    js_plus (js_times h0 (js_minus (Num 1) zFrac)) (js_times h1 zFrac).

End Closure.

(** [x] lies beyond the terrain on its axis: further than [size / 2] from
    the centre, or infinite. *)
Definition beyond (x : number) : Prop :=
  match x with
  | Num a => a < - (CreateTerrain.size / 2) \/ CreateTerrain.size / 2 < a
  | NaN => False
  | PosInfinity | NegInfinity => True
  end.

End Sampler.

(** ** The object this.noise *)

Module Noise.

(** The object [this.noise] as the sources use it: what is found under the
    two method names they call on it. *)
Record Object : Type := mkObject {
  noise : option (R -> R -> R -> R);
  perlin2 : option (R -> R -> R)
}.

(** Modelled from the spec: [new ImprovedNoise()], the value the constructor
    gives [this.noise], is an object of the library's class, not part of the
    sources; the class has the one method [noise(x, y, z)], which
    [generateHeightMap] calls, and nothing under the name [perlin2]. *)
Definition ImprovedNoise (noise : R -> R -> R -> R) : Object :=
  mkObject (Some noise) None.

End Noise.

Module Method.

(** The direct-sampling method called on an object whose [this.noise] is
    [this_noise]: the first pass of the octave loop calls
    [this.noise.perlin2], a [TypeError] when there is no such function. *)
Definition getHeightAtPosition
           (this_noise : Noise.Object) (config_season : season) (x z : R)
  : completion R :=
  match Noise.perlin2 this_noise with
  | Some perlin2 => Normal (Direct.getHeightAtPosition perlin2 config_season x z)
  | None => Throw TypeError
  end.

End Method.

(** * Properties *)

(** ** Minimum and maximum of the accumulated samples *)

Lemma foldl_Rmin_le_acc (l : list R) (a : R) : foldl Rmin a l <= a.
Proof.
  revert a. induction l as [|b l IH]; intros a; simpl; [lra|].
  etransitivity; [apply IH|]. apply Rmin_l.
Qed.

Lemma foldl_Rmin_le (l : list R) (a v : R) : v ∈ l -> foldl Rmin a l <= v.
Proof.
  revert a. induction l as [|b l IH]; intros a Hv; simpl.
  - inversion Hv.
  - apply elem_of_cons in Hv as [->|Hv].
    + etransitivity; [apply foldl_Rmin_le_acc|]. apply Rmin_r.
    + now apply IH.
Qed.

Lemma foldl_Rmin_elem (l : list R) (a : R) : foldl Rmin a l ∈ a :: l.
Proof.
  revert a. induction l as [|b l IH]; intros a; simpl.
  - apply list_elem_of_here.
  - specialize (IH (Rmin a b)).
    apply elem_of_cons in IH as [Heq|Hin].
    + rewrite Heq. unfold Rmin. destruct (Rle_dec a b).
      * apply list_elem_of_here.
      * apply list_elem_of_further, list_elem_of_here.
    + now do 2 apply list_elem_of_further.
Qed.

Lemma foldl_Rmax_ge_acc (l : list R) (a : R) : a <= foldl Rmax a l.
Proof.
  revert a. induction l as [|b l IH]; intros a; simpl; [lra|].
  etransitivity; [|apply IH]. apply Rmax_l.
Qed.

Lemma foldl_Rmax_ge (l : list R) (a v : R) : v ∈ l -> v <= foldl Rmax a l.
Proof.
  revert a. induction l as [|b l IH]; intros a Hv; simpl.
  - inversion Hv.
  - apply elem_of_cons in Hv as [->|Hv].
    + etransitivity; [|apply foldl_Rmax_ge_acc]. apply Rmax_r.
    + now apply IH.
Qed.

Lemma foldl_Rmax_elem (l : list R) (a : R) : foldl Rmax a l ∈ a :: l.
Proof.
  revert a. induction l as [|b l IH]; intros a; simpl.
  - apply list_elem_of_here.
  - specialize (IH (Rmax a b)).
    apply elem_of_cons in IH as [Heq|Hin].
    + rewrite Heq. unfold Rmax. destruct (Rle_dec a b).
      * apply list_elem_of_further, list_elem_of_here.
      * apply list_elem_of_here.
    + now do 2 apply list_elem_of_further.
Qed.

Lemma Math_min_le (d0 : R) (ds : list R) (v : R) :
  v ∈ d0 :: ds -> Math_min d0 ds <= v.
Proof.
  intros [->|Hv]%elem_of_cons.
  - apply foldl_Rmin_le_acc.
  - now apply foldl_Rmin_le.
Qed.

Lemma Math_max_ge (d0 : R) (ds : list R) (v : R) :
  v ∈ d0 :: ds -> v <= Math_max d0 ds.
Proof.
  intros [->|Hv]%elem_of_cons.
  - apply foldl_Rmax_ge_acc.
  - now apply foldl_Rmax_ge.
Qed.

Lemma js_div_nonzero (a b : R) : b <> 0 -> js_div a b = Num (a / b).
Proof. intros Hb. unfold js_div. now destruct (Req_dec_T b 0). Qed.

Lemma js_div_zero_zero : js_div 0 0 = NaN.
Proof.
  unfold js_div. destruct (Req_dec_T 0 0) as [_|H]; [|now destruct H].
  reflexivity.
Qed.

(** ** The accumulated samples *)

Section HeightMapFacts.

Variable noise : R -> R -> R -> R.
Variable z : R.

Lemma octave_length (width size : nat) (quality : R) (data : list R) :
  List.length (octave noise z width size quality data) = List.length data.
Proof.
  unfold octave. induction size as [|n IH].
  - reflexivity.
  - rewrite seq_S, foldl_app. simpl. now rewrite length_alter.
Qed.

(** A pass over the cells below [size] leaves the cells from [size] on. *)
Lemma octave_lookup_ge (width size : nat) (quality : R) (data : list R) (i : nat) :
  (size <= i)%nat ->
  octave noise z width size quality data !! i = data !! i.
Proof.
  unfold octave. induction size as [|n IH]; intros Hi; [reflexivity|].
  rewrite seq_S, foldl_app. simpl.
  rewrite list_lookup_alter_ne by lia. apply IH. lia.
Qed.

Lemma octave_lookup (width size : nat) (quality : R) (data : list R) (i : nat) :
  (i < size)%nat ->
  octave noise z width size quality data !! i
  = (fun v => v + sample noise z width quality i) <$> data !! i.
Proof.
  induction size as [|n IH]; intros Hi; [lia|].
  unfold octave. rewrite seq_S, foldl_app. simpl.
  fold (octave noise z width n quality data).
  destruct (decide (i = n)) as [->|Hne].
  - rewrite list_lookup_alter_eq. f_equal.
    now apply octave_lookup_ge.
  - rewrite list_lookup_alter_ne by congruence. apply IH. lia.
Qed.

Lemma octaves_length (steps width size : nat) (quality : R) (data : list R) :
  List.length (octaves noise z steps width size quality data) = List.length data.
Proof.
  revert quality data. induction steps as [|n IH]; intros quality data; simpl.
  - reflexivity.
  - now rewrite IH, octave_length.
Qed.

Lemma accumulate_length (width height : nat) :
  List.length (accumulate noise z width height) = (width * height)%nat.
Proof. unfold accumulate. now rewrite octaves_length, length_replicate. Qed.

(** Each cell holds the sum of its four octave samples, at qualities
    1, 4, 16 and 64. *)
Lemma accumulate_lookup (width height i : nat) :
  (i < width * height)%nat ->
  accumulate noise z width height !! i
  = Some (0 + sample noise z width 1 i + sample noise z width (1 * 4) i
          + sample noise z width (1 * 4 * 4) i
          + sample noise z width (1 * 4 * 4 * 4) i).
Proof.
  intros Hi. unfold accumulate. simpl.
  rewrite !octave_lookup by exact Hi.
  now rewrite lookup_replicate_2 by exact Hi.
Qed.

End HeightMapFacts.

(** ** Normalisation *)

Lemma normalize_data_length (data : list R) :
  List.length (normalize_data data) = List.length data.
Proof. destruct data as [|d0 ds]; [reflexivity|]. apply length_fmap. Qed.

Lemma normalize_data_spread (data : list R) (a b : R) :
  a ∈ data -> b ∈ data -> a <> b -> normalized_grid (normalize_data data).
Proof.
  intros Ha Hb Hab.
  destruct data as [|d0 ds]; [inversion Ha|].
  unfold normalize_data.
  set (lo := Math_min d0 ds). set (hi := Math_max d0 ds).
  assert (Hlo : forall v, v ∈ d0 :: ds -> lo <= v) by (intros; now apply Math_min_le).
  assert (Hhi : forall v, v ∈ d0 :: ds -> v <= hi) by (intros; now apply Math_max_ge).
  assert (Hrange : 0 < hi - lo).
  { pose proof (Hlo a Ha). pose proof (Hlo b Hb).
    pose proof (Hhi a Ha). pose proof (Hhi b Hb).
    destruct (Rtotal_order a b) as [?|[?|?]]; [lra|contradiction|lra]. }
  assert (Hne : hi - lo <> 0) by lra.
  split; [|split].
  - apply Forall_forall. intros v [d [-> Hd]]%list_elem_of_fmap.
    rewrite js_div_nonzero by exact Hne.
    exists ((d - lo) / (hi - lo)). split; [reflexivity|].
    pose proof (Hlo d Hd). pose proof (Hhi d Hd). split.
    + apply Rle_mult_inv_pos; lra.
    + replace ((d - lo) / (hi - lo)) with (1 - (hi - d) / (hi - lo))
        by (field; exact Hne).
      assert (0 <= (hi - d) / (hi - lo)) by (apply Rle_mult_inv_pos; lra).
      lra.
  - apply list_elem_of_fmap. exists lo. split.
    + rewrite js_div_nonzero by exact Hne. f_equal. field. exact Hne.
    + apply foldl_Rmin_elem.
  - apply list_elem_of_fmap. exists hi. split.
    + rewrite js_div_nonzero by exact Hne. f_equal. field. exact Hne.
    + apply foldl_Rmax_elem.
Qed.

(** When all samples are equal, every cell of the result is [NaN]. *)
Lemma normalize_data_constant (data : list R) :
  (forall a b, a ∈ data -> b ∈ data -> a = b) ->
  Forall (fun v => v = NaN) (normalize_data data).
Proof.
  intros Hconst. destruct data as [|d0 ds]; [constructor|].
  unfold normalize_data.
  assert (Hlo : Math_min d0 ds = d0).
  { apply Hconst; [apply foldl_Rmin_elem|apply list_elem_of_here]. }
  assert (Hhi : Math_max d0 ds = d0).
  { apply Hconst; [apply foldl_Rmax_elem|apply list_elem_of_here]. }
  rewrite Hlo, Hhi. apply Forall_forall.
  intros v [d [-> Hd]]%list_elem_of_fmap.
  rewrite (Hconst d d0 Hd (list_elem_of_here _ _)).
  rewrite Rminus_diag. apply js_div_zero_zero.
Qed.

Lemma generateHeightMap_length
      (noise : R -> R -> R -> R) (z : R) (width height : nat) :
  List.length (generateHeightMap noise z width height) = (width * height)%nat.
Proof.
  unfold generateHeightMap. now rewrite normalize_data_length, accumulate_length.
Qed.

(** C1 (as amended): whenever two accumulated samples differ, the grid
    returned by [generateHeightMap] holds only finite values of the interval
    [0,1], and both 0 and 1 occur in it. *)
Theorem generateHeightMap_normalized
        (noise : R -> R -> R -> R) (z : R) (width height : nat) (a b : R) :
  a ∈ accumulate noise z width height ->
  b ∈ accumulate noise z width height ->
  a <> b ->
  normalized_grid (generateHeightMap noise z width height).
Proof. intros Ha Hb Hab. exact (normalize_data_spread _ a b Ha Hb Hab). Qed.

(** A worked run: the noise [x] on a 2 x 1 grid accumulates 0 and 4. *)
Example accumulate_ramp : accumulate (fun x _ _ => x) 0 2 1 = [0; 4].
Proof.
  apply list_eq. intros i.
  destruct (decide (i < 2)%nat) as [Hi|Hi].
  - rewrite accumulate_lookup by (simpl; lia).
    destruct i as [|[|i]]; [| |lia]; unfold sample; cbv beta zeta;
      cbn [lookup list_lookup].
    + change (Z.of_nat 0 mod Z.of_nat 2)%Z with 0%Z. f_equal.
      unfold Rdiv. rewrite !Rmult_0_l, Rabs_R0. lra.
    + change (Z.of_nat 1 mod Z.of_nat 2)%Z with 1%Z. f_equal.
      replace (1 / 1 * 1) with 1 by field.
      replace (1 / (1 * 4) * (1 * 4)) with 1 by field.
      replace (1 / (1 * 4 * 4) * (1 * 4 * 4)) with 1 by field.
      replace (1 / (1 * 4 * 4 * 4) * (1 * 4 * 4 * 4)) with 1 by field.
      rewrite Rabs_R1. lra.
  - rewrite !lookup_ge_None_2;
      [reflexivity|simpl; lia|rewrite accumulate_length; simpl; lia].
Qed.

Example generateHeightMap_ramp :
  generateHeightMap (fun x _ _ => x) 0 2 1 = [Num 0; Num 1].
Proof.
  unfold generateHeightMap. rewrite accumulate_ramp.
  unfold normalize_data, Math_min, Math_max. cbn [foldl fmap list_fmap].
  assert (Hmin : Rmin 0 4 = 0) by (apply Rmin_left; lra).
  assert (Hmax : Rmax 0 4 = 4) by (apply Rmax_right; lra).
  rewrite Hmin, Hmax. rewrite !js_div_nonzero by lra.
  f_equal; [f_equal; lra|f_equal; f_equal; lra].
Qed.

Lemma generateHeightMap_normalized_witness :
  normalized_grid (generateHeightMap (fun x _ _ => x) 0 2 1).
Proof.
  apply (generateHeightMap_normalized (fun x _ _ => x) 0 2 1 0 4).
  - rewrite accumulate_ramp. apply list_elem_of_here.
  - rewrite accumulate_ramp. apply list_elem_of_further, list_elem_of_here.
  - lra.
Defined.

(** A noise that is zero everywhere makes all accumulated samples equal; the
    division by the zero range then fills the grid with [NaN]. *)
Lemma generateHeightMap_flat_noise :
  generateHeightMap (fun _ _ _ => 0) 0 2 2 = [NaN; NaN; NaN; NaN].
Proof.
  pose proof (normalize_data_constant (accumulate (fun _ _ _ => 0) 0 2 2)) as H.
  pose proof (normalize_data_length (accumulate (fun _ _ _ => 0) 0 2 2)) as Hlen.
  rewrite accumulate_length in Hlen.
  fold (generateHeightMap (fun _ _ _ => 0) 0 2 2) in H, Hlen.
  assert (Hall : Forall (fun v => v = NaN) (generateHeightMap (fun _ _ _ => 0) 0 2 2)).
  { apply H. intros a b [i Hi]%list_elem_of_lookup_1 [j Hj]%list_elem_of_lookup_1.
    pose proof (lookup_lt_Some _ _ _ Hi) as Hil.
    pose proof (lookup_lt_Some _ _ _ Hj) as Hjl.
    rewrite accumulate_length in Hil, Hjl.
    rewrite accumulate_lookup in Hi by exact Hil.
    rewrite accumulate_lookup in Hj by exact Hjl.
    unfold sample in Hi, Hj. cbv beta zeta in Hi, Hj. congruence. }
  destruct (generateHeightMap (fun _ _ _ => 0) 0 2 2) as [|v0 [|v1 [|v2 [|v3 [|v4 g]]]]];
    try discriminate Hlen.
  repeat match goal with
         | Hf : Forall _ (_ :: _) |- _ => apply Forall_cons in Hf as [-> Hf]
         end.
  reflexivity.
Qed.

(** A grid of a single cell is degenerate for every noise and seed. *)
Lemma generateHeightMap_single_cell (noise : R -> R -> R -> R) (z : R) :
  generateHeightMap noise z 1 1 = [NaN].
Proof.
  pose proof (accumulate_length noise z 1 1) as Hlen.
  unfold generateHeightMap.
  destruct (accumulate noise z 1 1) as [|d [|d' ds]]; try discriminate Hlen.
  unfold normalize_data, Math_min, Math_max. cbn [foldl fmap list_fmap].
  now rewrite !Rminus_diag, js_div_zero_zero.
Qed.

(** C1 (as stated) fails on a degenerate noise: over a noise that is zero
    everywhere the 2 x 2 grid holds no value of [0,1] at all. *)
Lemma generateHeightMap_degenerate_counterexample :
  ~ normalized_grid (generateHeightMap (fun _ _ _ => 0) 0 2 2).
Proof.
  rewrite generateHeightMap_flat_noise. intros [Hunit _].
  apply Forall_cons in Hunit as [[r [Hr _]] _]. discriminate Hr.
Qed.

(** ** The grid-backed sampler *)

(** Arithmetic on terrain coordinates of concrete points. *)
Ltac terrain_arith :=
  unfold CreateTerrain.terrainCoordinate, CreateTerrain.size; lra.

Lemma Rltb_true (a b : R) : Rltb a b = true <-> a < b.
Proof. unfold Rltb. destruct (Rlt_dec a b); split; intros; try easy. Qed.

Lemma Rltb_false (a b : R) : Rltb a b = false <-> b <= a.
Proof.
  unfold Rltb. destruct (Rlt_dec a b); split; intros; try easy; lra.
Qed.

Lemma outside_false (t : R) : CreateTerrain.outside t = false <-> 0 <= t <= 1.
Proof.
  unfold CreateTerrain.outside.
  rewrite orb_false_iff, !Rltb_false. tauto.
Qed.

Lemma outside_true (t : R) : CreateTerrain.outside t = true <-> t < 0 \/ 1 < t.
Proof.
  unfold CreateTerrain.outside.
  rewrite orb_true_iff, !Rltb_true. tauto.
Qed.

(** The clamped cell index stays inside the grid and its cell encloses the
    scaled coordinate. *)
Lemma cellIndex_bounds (resolution : Z) (t : R) :
  (2 <= resolution)%Z -> 0 <= t <= 1 ->
  (0 <= CreateTerrain.cellIndex resolution t <= resolution - 2)%Z /\
  IZR (CreateTerrain.cellIndex resolution t) <= t * IZR (resolution - 1)
    <= IZR (CreateTerrain.cellIndex resolution t) + 1.
Proof.
  intros Hres Ht. unfold CreateTerrain.cellIndex.
  set (u := t * IZR (resolution - 1)).
  assert (Hr1 : 1 <= IZR (resolution - 1)) by (apply IZR_le; lia).
  assert (Hu : 0 <= u <= IZR (resolution - 1)) by (unfold u; nra).
  pose proof (Zfloor_bound u) as [Hlo Hhi].
  assert (Hfl : (0 <= Zfloor u)%Z) by (apply Zfloor_lub; simpl; lra).
  split; [lia|].
  destruct (Z.min_spec (Zfloor u) (resolution - 2)) as [[Hlt ->]|[Hge ->]].
  - lra.
  - split.
    + apply IZR_le in Hge. lra.
    + replace (resolution - 1)%Z with (resolution - 2 + 1)%Z in Hu by lia.
      rewrite plus_IZR in Hu. lra.
Qed.

Lemma read_in_bounds (heightMap : list R) (k : Z) :
  (0 <= k < Z.of_nat (List.length heightMap))%Z ->
  is_Some (CreateTerrain.read heightMap k).
Proof.
  intros Hk. unfold CreateTerrain.read.
  destruct (Z.ltb_spec k 0); [lia|].
  apply lookup_lt_is_Some. lia.
Qed.

(** The four corner indices of any cell of the grid lie in the array. *)
Lemma corner_indices (resolution xIndex zIndex : Z) :
  (2 <= resolution)%Z ->
  (0 <= xIndex <= resolution - 2)%Z -> (0 <= zIndex <= resolution - 2)%Z ->
  (0 <= zIndex * resolution + xIndex
   /\ (zIndex + 1) * resolution + xIndex + 1 < resolution * resolution)%Z.
Proof. intros Hres Hx Hz. nia. Qed.

Lemma corners_read (resolution : Z) (heightMap : list R) (xIndex zIndex : Z) :
  (2 <= resolution)%Z ->
  List.length heightMap = Z.to_nat (resolution * resolution) ->
  (0 <= xIndex <= resolution - 2)%Z -> (0 <= zIndex <= resolution - 2)%Z ->
  exists v00 v10 v01 v11,
    CreateTerrain.read heightMap (zIndex * resolution + xIndex) = Some v00 /\
    CreateTerrain.read heightMap (zIndex * resolution + xIndex + 1) = Some v10 /\
    CreateTerrain.read heightMap ((zIndex + 1) * resolution + xIndex) = Some v01 /\
    CreateTerrain.read heightMap ((zIndex + 1) * resolution + xIndex + 1) = Some v11.
Proof.
  intros Hres Hlen Hx Hz.
  pose proof (corner_indices resolution xIndex zIndex Hres Hx Hz) as [Hlo Hhi].
  assert (Hin : forall k, (zIndex * resolution + xIndex <= k
                           <= (zIndex + 1) * resolution + xIndex + 1)%Z ->
                          is_Some (CreateTerrain.read heightMap k)).
  { intros k Hk. apply read_in_bounds. rewrite Hlen. lia. }
  destruct (Hin (zIndex * resolution + xIndex)%Z) as [v00 H00]; [lia|].
  destruct (Hin (zIndex * resolution + xIndex + 1)%Z) as [v10 H10]; [lia|].
  destruct (Hin ((zIndex + 1) * resolution + xIndex)%Z) as [v01 H01]; [lia|].
  destruct (Hin ((zIndex + 1) * resolution + xIndex + 1)%Z) as [v11 H11]; [lia|].
  now exists v00, v10, v01, v11.
Qed.

Lemma getHeightAtPosition_outside (resolution : Z) (heightMap : list R) (x z : R) :
  CreateTerrain.outside (CreateTerrain.terrainCoordinate x)
  || CreateTerrain.outside (CreateTerrain.terrainCoordinate z) = true ->
  CreateTerrain.getHeightAtPosition resolution heightMap x z = Num 0.
Proof. intros H. unfold CreateTerrain.getHeightAtPosition. now rewrite H. Qed.

Lemma getHeightAtPosition_inside (resolution : Z) (heightMap : list R) (x z : R) :
  (2 <= resolution)%Z ->
  List.length heightMap = Z.to_nat (resolution * resolution) ->
  0 <= CreateTerrain.terrainCoordinate x <= 1 ->
  0 <= CreateTerrain.terrainCoordinate z <= 1 ->
  let xIndex := CreateTerrain.cellIndex resolution (CreateTerrain.terrainCoordinate x) in
  let zIndex := CreateTerrain.cellIndex resolution (CreateTerrain.terrainCoordinate z) in
  let xFrac := CreateTerrain.terrainCoordinate x * IZR (resolution - 1) - IZR xIndex in
  let zFrac := CreateTerrain.terrainCoordinate z * IZR (resolution - 1) - IZR zIndex in
  exists v00 v10 v01 v11,
    CreateTerrain.read heightMap (zIndex * resolution + xIndex) = Some v00 /\
    CreateTerrain.read heightMap (zIndex * resolution + xIndex + 1) = Some v10 /\
    CreateTerrain.read heightMap ((zIndex + 1) * resolution + xIndex) = Some v01 /\
    CreateTerrain.read heightMap ((zIndex + 1) * resolution + xIndex + 1) = Some v11 /\
    CreateTerrain.getHeightAtPosition resolution heightMap x z
    = Num ((v00 * CreateTerrain.maxHeight * (1 - xFrac)
            + v10 * CreateTerrain.maxHeight * xFrac) * (1 - zFrac)
           + (v01 * CreateTerrain.maxHeight * (1 - xFrac)
              + v11 * CreateTerrain.maxHeight * xFrac) * zFrac).
Proof.
  intros Hres Hlen Hx Hz xIndex zIndex xFrac zFrac.
  destruct (cellIndex_bounds resolution _ Hres Hx) as [Hxi _].
  destruct (cellIndex_bounds resolution _ Hres Hz) as [Hzi _].
  destruct (corners_read resolution heightMap xIndex zIndex Hres Hlen Hxi Hzi)
    as (v00 & v10 & v01 & v11 & H00 & H10 & H01 & H11).
  exists v00, v10, v01, v11. repeat (split; [assumption|]).
  unfold CreateTerrain.getHeightAtPosition.
  apply outside_false in Hx, Hz. rewrite Hx, Hz. simpl.
  fold xIndex zIndex. rewrite H00, H10, H01, H11. reflexivity.
Qed.

(** C4: for a query whose terrain coordinates lie in [0,1], the closure
    returns the bilinear interpolation of the four corner values of the grid
    cell that encloses the point, at the fractional offsets within that cell,
    scaled by [maxHeight]. *)
Theorem getHeightAtPosition_bilinear
        (resolution : Z) (heightMap : list R) (x z : R) :
  (2 <= resolution)%Z ->
  List.length heightMap = Z.to_nat (resolution * resolution) ->
  0 <= CreateTerrain.terrainCoordinate x <= 1 ->
  0 <= CreateTerrain.terrainCoordinate z <= 1 ->
  let u := CreateTerrain.terrainCoordinate x * IZR (resolution - 1) in
  let v := CreateTerrain.terrainCoordinate z * IZR (resolution - 1) in
  exists (xIndex zIndex : Z) (v00 v10 v01 v11 : R),
    (0 <= xIndex <= resolution - 2)%Z /\ (0 <= zIndex <= resolution - 2)%Z /\
    IZR xIndex <= u <= IZR xIndex + 1 /\
    IZR zIndex <= v <= IZR zIndex + 1 /\
    CreateTerrain.read heightMap (zIndex * resolution + xIndex) = Some v00 /\
    CreateTerrain.read heightMap (zIndex * resolution + xIndex + 1) = Some v10 /\
    CreateTerrain.read heightMap ((zIndex + 1) * resolution + xIndex) = Some v01 /\
    CreateTerrain.read heightMap ((zIndex + 1) * resolution + xIndex + 1) = Some v11 /\
    CreateTerrain.getHeightAtPosition resolution heightMap x z
    = Num (CreateTerrain.maxHeight
           * bilinear v00 v10 v01 v11 (u - IZR xIndex) (v - IZR zIndex)).
Proof.
  intros Hres Hlen Hx Hz u v.
  destruct (cellIndex_bounds resolution _ Hres Hx) as [Hxi Hxc].
  destruct (cellIndex_bounds resolution _ Hres Hz) as [Hzi Hzc].
  destruct (getHeightAtPosition_inside resolution heightMap x z Hres Hlen Hx Hz)
    as (v00 & v10 & v01 & v11 & H00 & H10 & H01 & H11 & Hval).
  exists (CreateTerrain.cellIndex resolution (CreateTerrain.terrainCoordinate x)),
         (CreateTerrain.cellIndex resolution (CreateTerrain.terrainCoordinate z)),
         v00, v10, v01, v11.
  repeat (split; [assumption|]).
  rewrite Hval. f_equal. unfold bilinear, u, v. ring.
Qed.

Lemma getHeightAtPosition_bilinear_witness :
  exists (xIndex zIndex : Z) (v00 v10 v01 v11 : R),
    (0 <= xIndex <= 3 - 2)%Z /\ (0 <= zIndex <= 3 - 2)%Z /\
    IZR xIndex <= CreateTerrain.terrainCoordinate 250 * IZR (3 - 1) <= IZR xIndex + 1 /\
    IZR zIndex <= CreateTerrain.terrainCoordinate (-375) * IZR (3 - 1) <= IZR zIndex + 1 /\
    CreateTerrain.read [0; 1; 0; 1; 0.5; 1; 0; 1; 0] (zIndex * 3 + xIndex) = Some v00 /\
    CreateTerrain.read [0; 1; 0; 1; 0.5; 1; 0; 1; 0] (zIndex * 3 + xIndex + 1) = Some v10 /\
    CreateTerrain.read [0; 1; 0; 1; 0.5; 1; 0; 1; 0] ((zIndex + 1) * 3 + xIndex) = Some v01 /\
    CreateTerrain.read [0; 1; 0; 1; 0.5; 1; 0; 1; 0] ((zIndex + 1) * 3 + xIndex + 1) = Some v11 /\
    CreateTerrain.getHeightAtPosition 3 [0; 1; 0; 1; 0.5; 1; 0; 1; 0] 250 (-375)
    = Num (CreateTerrain.maxHeight
           * bilinear v00 v10 v01 v11
               (CreateTerrain.terrainCoordinate 250 * IZR (3 - 1) - IZR xIndex)
               (CreateTerrain.terrainCoordinate (-375) * IZR (3 - 1) - IZR zIndex)).
Proof.
  apply (getHeightAtPosition_bilinear 3 [0; 1; 0; 1; 0.5; 1; 0; 1; 0] 250 (-375)).
  - lia.
  - reflexivity.
  - terrain_arith.
  - terrain_arith.
Defined.

(** A worked query on a 3 x 3 grid: cell (1, 0), offsets 1/2 and 1/4. *)
Example getHeightAtPosition_3x3 :
  CreateTerrain.getHeightAtPosition 3 [0; 1; 0; 1; 0.5; 1; 0; 1; 0] 250 (-375)
  = Num 16.875.
Proof.
  assert (Hx : CreateTerrain.terrainCoordinate 250 = 0.75)
    by terrain_arith.
  assert (Hz : CreateTerrain.terrainCoordinate (-375) = 0.125)
    by terrain_arith.
  unfold CreateTerrain.getHeightAtPosition. rewrite Hx, Hz.
  assert (Hox : CreateTerrain.outside 0.75 = false) by (apply outside_false; lra).
  assert (Hoz : CreateTerrain.outside 0.125 = false) by (apply outside_false; lra).
  rewrite Hox, Hoz. simpl orb. cbv iota.
  assert (Hxi : CreateTerrain.cellIndex 3 0.75 = 1%Z).
  { unfold CreateTerrain.cellIndex.
    rewrite (Zfloor_eq 1) by (rewrite minus_IZR; lra). reflexivity. }
  assert (Hzi : CreateTerrain.cellIndex 3 0.125 = 0%Z).
  { unfold CreateTerrain.cellIndex.
    rewrite (Zfloor_eq 0) by (rewrite minus_IZR; lra). reflexivity. }
  rewrite Hxi, Hzi. cbn [CreateTerrain.read]. simpl.
  f_equal. unfold CreateTerrain.maxHeight. rewrite minus_IZR. lra.
Qed.

(** C5: a query whose terrain coordinate leaves [0,1] on either axis is
    answered with exactly 0, whatever the grid holds. *)
Theorem getHeightAtPosition_outside_zero
        (resolution : Z) (heightMap : list R) (x z : R) :
  CreateTerrain.terrainCoordinate x < 0 \/ 1 < CreateTerrain.terrainCoordinate x \/
  CreateTerrain.terrainCoordinate z < 0 \/ 1 < CreateTerrain.terrainCoordinate z ->
  CreateTerrain.getHeightAtPosition resolution heightMap x z = Num 0.
Proof.
  intros H. apply getHeightAtPosition_outside. apply orb_true_iff.
  rewrite !outside_true. tauto.
Qed.

Lemma getHeightAtPosition_outside_zero_witness :
  CreateTerrain.getHeightAtPosition 128 [] 501 0 = Num 0.
Proof.
  apply (getHeightAtPosition_outside_zero 128 [] 501 0).
  right. left. terrain_arith.
Defined.

(** C10: for terrain coordinates in [0,1], the end value 1 included, both
    cell indices are at most [resolution - 2] and the four corner reads fall
    inside the array. *)
Theorem getHeightAtPosition_reads_in_bounds
        (resolution : Z) (heightMap : list R) (x z : R) :
  (2 <= resolution)%Z ->
  List.length heightMap = Z.to_nat (resolution * resolution) ->
  0 <= CreateTerrain.terrainCoordinate x <= 1 ->
  0 <= CreateTerrain.terrainCoordinate z <= 1 ->
  let xIndex := CreateTerrain.cellIndex resolution (CreateTerrain.terrainCoordinate x) in
  let zIndex := CreateTerrain.cellIndex resolution (CreateTerrain.terrainCoordinate z) in
  (0 <= xIndex <= resolution - 2)%Z /\ (0 <= zIndex <= resolution - 2)%Z /\
  Forall (fun k => (0 <= k < Z.of_nat (List.length heightMap))%Z
                   /\ is_Some (CreateTerrain.read heightMap k))
         [ (zIndex * resolution + xIndex)%Z;
           (zIndex * resolution + xIndex + 1)%Z;
           ((zIndex + 1) * resolution + xIndex)%Z;
           ((zIndex + 1) * resolution + xIndex + 1)%Z ].
Proof.
  intros Hres Hlen Hx Hz xIndex zIndex.
  destruct (cellIndex_bounds resolution _ Hres Hx) as [Hxi _].
  destruct (cellIndex_bounds resolution _ Hres Hz) as [Hzi _].
  fold xIndex in Hxi. fold zIndex in Hzi.
  pose proof (corner_indices resolution xIndex zIndex Hres Hxi Hzi) as [Hlo Hhi].
  split; [exact Hxi|]. split; [exact Hzi|].
  assert (Hin : forall k, (zIndex * resolution + xIndex <= k
                           <= (zIndex + 1) * resolution + xIndex + 1)%Z ->
                          (0 <= k < Z.of_nat (List.length heightMap))%Z
                          /\ is_Some (CreateTerrain.read heightMap k)).
  { intros k Hk.
    assert (0 <= k < Z.of_nat (List.length heightMap))%Z by (rewrite Hlen; lia).
    split; [assumption|]. now apply read_in_bounds. }
  repeat (apply Forall_cons_2; [apply Hin; lia|]).
  apply Forall_nil_2.
Qed.

Lemma getHeightAtPosition_reads_in_bounds_witness :
  let xIndex := CreateTerrain.cellIndex CreateTerrain.resolution
                  (CreateTerrain.terrainCoordinate 500) in
  let zIndex := CreateTerrain.cellIndex CreateTerrain.resolution
                  (CreateTerrain.terrainCoordinate 500) in
  (0 <= xIndex <= 128 - 2)%Z /\ (0 <= zIndex <= 128 - 2)%Z /\
  Forall (fun k => (0 <= k < Z.of_nat (List.length (replicate (Z.to_nat (128 * 128)) 0)))%Z
                   /\ is_Some (CreateTerrain.read (replicate (Z.to_nat (128 * 128)) 0) k))
         [ (zIndex * 128 + xIndex)%Z;
           (zIndex * 128 + xIndex + 1)%Z;
           ((zIndex + 1) * 128 + xIndex)%Z;
           ((zIndex + 1) * 128 + xIndex + 1)%Z ].
Proof.
  apply (getHeightAtPosition_reads_in_bounds
           CreateTerrain.resolution (replicate (Z.to_nat (128 * 128)) 0) 500 500).
  - unfold CreateTerrain.resolution. lia.
  - apply length_replicate.
  - terrain_arith.
  - terrain_arith.
Defined.

(** ** The direct-sampling method *)

(** The loop adds four noise samples, frequency doubling and amplitude
    halving from one octave to the next. *)
Lemma scaledHeight_octaves (perlin2 : R -> R -> R) (x z : R) :
  Direct.scaledHeight perlin2 x z
  = (perlin2 (x * 0.01) (z * 0.01)
     + perlin2 (x * 0.01 * 2) (z * 0.01 * 2) * 0.5
     + perlin2 (x * 0.01 * 4) (z * 0.01 * 4) * 0.25
     + perlin2 (x * 0.01 * 8) (z * 0.01 * 8) * 0.125) * 15.
Proof.
  unfold Direct.scaledHeight, Direct.octaveLoop, Direct.scale.
  replace (x * 0.01 * 1) with (x * 0.01) by lra.
  replace (z * 0.01 * 1) with (z * 0.01) by lra.
  replace (x * 0.01 * (1 * 2)) with (x * 0.01 * 2) by lra.
  replace (z * 0.01 * (1 * 2)) with (z * 0.01 * 2) by lra.
  replace (x * 0.01 * (1 * 2 * 2)) with (x * 0.01 * 4) by lra.
  replace (z * 0.01 * (1 * 2 * 2)) with (z * 0.01 * 4) by lra.
  replace (x * 0.01 * (1 * 2 * 2 * 2)) with (x * 0.01 * 8) by lra.
  replace (z * 0.01 * (1 * 2 * 2 * 2)) with (z * 0.01 * 8) by lra.
  lra.
Qed.

Example getHeightAtPosition_summer_valley :
  Direct.getHeightAtPosition (fun _ _ => -1) summer 10 20 = -3.
Proof.
  unfold Direct.getHeightAtPosition, Direct.seasonalHeight.
  rewrite scaledHeight_octaves. simpl is_winter. cbv iota.
  assert (H : Rltb ((-1 + -1 * 0.5 + -1 * 0.25 + -1 * 0.125) * 15)
                   Direct.waterHeight = true)
    by (apply Rltb_true; unfold Direct.waterHeight; lra).
  rewrite H. reflexivity.
Qed.

Example getHeightAtPosition_winter_valley :
  Direct.getHeightAtPosition (fun _ _ => -1) winter 10 20 = -20.5.
Proof.
  unfold Direct.getHeightAtPosition, Direct.seasonalHeight.
  rewrite scaledHeight_octaves. simpl is_winter. cbv iota.
  rewrite andb_false_r. lra.
Qed.



(** ** Totality of height sampling *)

Lemma Rmin_IZR (a b : Z) : Rmin (IZR a) (IZR b) = IZR (Z.min a b).
Proof.
  destruct (Z.min_spec a b) as [[Hlt ->]|[Hge ->]].
  - apply Rmin_left, IZR_le. lia.
  - apply Rmin_right, IZR_le. lia.
Qed.

(** An integer key reads the array as [read] does. *)
Lemma element_integer (heightMap : list R) (k : Z) :
  Sampler.element heightMap (Num (IZR k)) = CreateTerrain.read heightMap k.
Proof.
  unfold Sampler.element. rewrite ZfloorZ.
  destruct (Req_dec_T (IZR k) (IZR k)) as [_|Hne]; [reflexivity|].
  now destruct Hne.
Qed.

Lemma cornerHeight_integer (heightMap : list R) (k : Z) :
  Sampler.cornerHeight heightMap (Num (IZR k))
  = match CreateTerrain.read heightMap k with
    | Some v => Num (v * CreateTerrain.maxHeight)
    | None => NaN
    end.
Proof. unfold Sampler.cornerHeight. now rewrite element_integer. Qed.

Lemma terrainCoordinate_finite (x : R) :
  js_quot (js_add (Num x) (CreateTerrain.size / 2)) CreateTerrain.size
  = Num (CreateTerrain.terrainCoordinate x).
Proof.
  unfold js_quot, js_add, js_div, CreateTerrain.terrainCoordinate.
  destruct (Req_dec_T CreateTerrain.size 0) as [H0|_]; [|reflexivity].
  unfold CreateTerrain.size in H0. lra.
Qed.

Lemma terrainCoordinate_infinite (x : number) :
  x = PosInfinity \/ x = NegInfinity ->
  js_quot (js_add x (CreateTerrain.size / 2)) CreateTerrain.size = x.
Proof.
  intros [-> | ->]; unfold js_quot, js_add;
    destruct (Rlt_dec CreateTerrain.size 0) as [Hneg|_]; try reflexivity;
    unfold CreateTerrain.size in Hneg; lra.
Qed.

(** On finite arguments the closure is the function of the reals studied
    above. *)
Lemma getHeightAtPosition_finite
      (resolution : Z) (heightMap : list R) (x z : R) :
  Sampler.getHeightAtPosition resolution heightMap (Num x) (Num z)
  = CreateTerrain.getHeightAtPosition resolution heightMap x z.
Proof.
  unfold Sampler.getHeightAtPosition, CreateTerrain.getHeightAtPosition.
  cbv zeta. rewrite !terrainCoordinate_finite.
  set (tx := CreateTerrain.terrainCoordinate x).
  set (tz := CreateTerrain.terrainCoordinate z).
  cbn [js_lt js_gt js_mul Math_floor Math_min2 js_minus js_add js_plus].
  rewrite !Rmin_IZR.
  fold (CreateTerrain.cellIndex resolution tx).
  fold (CreateTerrain.cellIndex resolution tz).
  set (xi := CreateTerrain.cellIndex resolution tx).
  set (zi := CreateTerrain.cellIndex resolution tz).
  replace (Rltb tx 0 || Rltb 1 tx || Rltb tz 0 || Rltb 1 tz)
    with (CreateTerrain.outside tx || CreateTerrain.outside tz)
    by (unfold CreateTerrain.outside; now rewrite !orb_assoc).
  destruct (CreateTerrain.outside tx || CreateTerrain.outside tz); [reflexivity|].
  replace (IZR zi * IZR resolution + IZR xi)
    with (IZR (zi * resolution + xi)) by (now rewrite plus_IZR, mult_IZR).
  replace (IZR (zi * resolution + xi) + 1)
    with (IZR (zi * resolution + xi + 1)) by (now rewrite plus_IZR).
  replace ((IZR zi + 1) * IZR resolution + IZR xi)
    with (IZR ((zi + 1) * resolution + xi))
    by (now rewrite plus_IZR, mult_IZR, plus_IZR).
  replace (IZR ((zi + 1) * resolution + xi) + 1)
    with (IZR ((zi + 1) * resolution + xi + 1)) by (now rewrite plus_IZR).
  rewrite !cornerHeight_integer.
  destruct (CreateTerrain.read heightMap (zi * resolution + xi)),
           (CreateTerrain.read heightMap (zi * resolution + xi + 1)),
           (CreateTerrain.read heightMap ((zi + 1) * resolution + xi)),
           (CreateTerrain.read heightMap ((zi + 1) * resolution + xi + 1));
    reflexivity.
Qed.

(** An infinite argument is outside the terrain, whatever the other one. *)
Lemma getHeightAtPosition_infinite
      (resolution : Z) (heightMap : list R) (x z : number) :
  x = PosInfinity \/ x = NegInfinity \/ z = PosInfinity \/ z = NegInfinity ->
  Sampler.getHeightAtPosition resolution heightMap x z = Num 0.
Proof.
  intros H. unfold Sampler.getHeightAtPosition. cbv zeta.
  destruct H as [Hx|[Hx|[Hz|Hz]]].
  - rewrite (terrainCoordinate_infinite x) by tauto. now subst x.
  - rewrite (terrainCoordinate_infinite x) by tauto. now subst x.
  - rewrite (terrainCoordinate_infinite z) by tauto. subst z.
    cbn [js_gt]. now rewrite orb_true_r.
  - rewrite (terrainCoordinate_infinite z) by tauto. subst z.
    cbn [js_lt js_gt]. now rewrite orb_false_r, orb_true_r.
Qed.

(** With [NaN] for [x] the guard looks at [z] alone, and past the guard every
    index, read and product is [NaN]. *)
Lemma getHeightAtPosition_nan
      (resolution : Z) (heightMap : list R) (z : R) :
  Sampler.getHeightAtPosition resolution heightMap NaN (Num z)
  = if CreateTerrain.outside (CreateTerrain.terrainCoordinate z)
    then Num 0 else NaN.
Proof.
  unfold Sampler.getHeightAtPosition. cbv zeta.
  rewrite terrainCoordinate_finite.
  cbn [js_add js_quot js_lt js_gt orb]. fold (CreateTerrain.outside
    (CreateTerrain.terrainCoordinate z)).
  destruct (CreateTerrain.outside (CreateTerrain.terrainCoordinate z));
    reflexivity.
Qed.

Lemma beyond_outside (a : R) :
  Sampler.beyond (Num a) ->
  CreateTerrain.outside (CreateTerrain.terrainCoordinate a) = true.
Proof.
  unfold Sampler.beyond. intros H. apply outside_true.
  unfold CreateTerrain.terrainCoordinate, CreateTerrain.size in *.
  destruct H; [left|right]; lra.
Qed.

(** C7 (as stated) fails in both samplers.  The closure, called with [NaN]
    for [x] and a [z] on the terrain, passes the guard (every comparison
    with [NaN] is false) and returns [NaN], no elevation; and the
    direct-sampling method, on the object the constructor builds, raises a
    [TypeError] at its first call of [this.noise.perlin2]. *)
Lemma height_sampling_counterexample :
  Sampler.getHeightAtPosition 2 [0; 1; 1; 0] NaN (Num 0) = NaN /\
  Method.getHeightAtPosition (Noise.ImprovedNoise (fun _ _ _ => 0)) summer 0 0
  = Throw TypeError.
Proof.
  split; [|reflexivity].
  rewrite getHeightAtPosition_nan.
  assert (H : CreateTerrain.outside (CreateTerrain.terrainCoordinate 0) = false).
  { apply outside_false.
    unfold CreateTerrain.terrainCoordinate, CreateTerrain.size. lra. }
  now rewrite H.
Qed.

(** C7 (as amended): called with two numbers neither of which is [NaN],
    finite or infinite, the closure over a grid of [resolution * resolution]
    finite values answers with a finite number; and it answers 0 when either
    argument lies beyond the terrain, the infinite ones included. *)
Theorem height_sampling_total
        (resolution : Z) (heightMap : list R) (x z : number) :
  (2 <= resolution)%Z ->
  List.length heightMap = Z.to_nat (resolution * resolution) ->
  x <> NaN -> z <> NaN ->
  exists r,
    Sampler.getHeightAtPosition resolution heightMap x z = Num r /\
    (Sampler.beyond x \/ Sampler.beyond z -> r = 0).
Proof.
  intros Hres Hlen Hx Hz.
  assert (Hinf : x = PosInfinity \/ x = NegInfinity \/
                 z = PosInfinity \/ z = NegInfinity ->
                 exists r,
                   Sampler.getHeightAtPosition resolution heightMap x z = Num r /\
                   (Sampler.beyond x \/ Sampler.beyond z -> r = 0)).
  { intros H. exists 0. split; [now apply getHeightAtPosition_infinite|reflexivity]. }
  destruct x as [a| | |]; [|now destruct Hx|apply Hinf; tauto|apply Hinf; tauto].
  destruct z as [b| | |]; [|now destruct Hz|apply Hinf; tauto|apply Hinf; tauto].
  clear Hinf. rewrite getHeightAtPosition_finite.
  destruct (CreateTerrain.outside (CreateTerrain.terrainCoordinate a)
            || CreateTerrain.outside (CreateTerrain.terrainCoordinate b)) eqn:Hout.
  - exists 0. split; [now apply getHeightAtPosition_outside|reflexivity].
  - apply orb_false_iff in Hout as [Ha Hb].
    pose proof Ha as Ha'. pose proof Hb as Hb'.
    apply outside_false in Ha'. apply outside_false in Hb'.
    destruct (getHeightAtPosition_inside resolution heightMap a b Hres Hlen Ha' Hb')
      as (v00 & v10 & v01 & v11 & _ & _ & _ & _ & Hval).
    eexists. split; [exact Hval|].
    intros [Hbeyond|Hbeyond]; apply beyond_outside in Hbeyond; congruence.
Qed.

Lemma height_sampling_total_witness :
  exists r,
    Sampler.getHeightAtPosition 2 [0; 1; 1; 0] (Num 1234) NegInfinity = Num r /\
    (Sampler.beyond (Num 1234) \/ Sampler.beyond NegInfinity -> r = 0).
Proof.
  apply (height_sampling_total 2 [0; 1; 1; 0] (Num 1234) NegInfinity).
  - lia.
  - reflexivity.
  - discriminate.
  - discriminate.
Defined.

(** ** The vertex loop *)

Section RoadFacts.

Variable roadCurve : THREE.Curve.
Variable getHeightAtPosition : R -> R -> number.
Variable roadWidth : R.
Variable roadSegments : Z.

Abbreviation setVertex := (CreateRoad.setVertex roadWidth).
Abbreviation step := (CreateRoad.step roadCurve getHeightAtPosition roadWidth roadSegments).
Abbreviation loop := (CreateRoad.loop roadCurve getHeightAtPosition roadWidth roadSegments).
Abbreviation emitted := (CreateRoad.emitted roadCurve getHeightAtPosition roadWidth roadSegments).
Abbreviation parameter := (CreateRoad.parameter roadSegments).

Lemma setVertex_length (i j : nat) (point normal : THREE.Vector3)
      (height : number) (positions : list number) :
  List.length (setVertex i j point normal height positions) = List.length positions.
Proof. unfold CreateRoad.setVertex. now rewrite !length_insert. Qed.

Lemma vertexAt_setVertex_eq (i j : nat) (point normal : THREE.Vector3)
      (height : number) (positions : list number) :
  ((i * 2 + j) * 3 + 2 < List.length positions)%nat ->
  CreateRoad.vertexAt (setVertex i j point normal height positions) (i * 2 + j)
  = Some (Num (THREE.x point + THREE.x normal * CreateRoad.halfWidth roadWidth j),
          height,
          Num (THREE.z point + THREE.z normal * CreateRoad.halfWidth roadWidth j)).
Proof.
  intros Hlen. unfold CreateRoad.vertexAt, CreateRoad.setVertex.
  rewrite list_lookup_insert_ne by lia.
  rewrite list_lookup_insert_ne by lia.
  rewrite list_lookup_insert_eq by lia.
  rewrite list_lookup_insert_ne by lia.
  rewrite list_lookup_insert_eq by (rewrite length_insert; lia).
  rewrite list_lookup_insert_eq by (rewrite !length_insert; lia).
  reflexivity.
Qed.

Lemma vertexAt_setVertex_ne (i j k : nat) (point normal : THREE.Vector3)
      (height : number) (positions : list number) :
  k <> (i * 2 + j)%nat ->
  CreateRoad.vertexAt (setVertex i j point normal height positions) k
  = CreateRoad.vertexAt positions k.
Proof.
  intros Hk. unfold CreateRoad.vertexAt, CreateRoad.setVertex.
  now rewrite !list_lookup_insert_ne by lia.
Qed.

Lemma step_defined (i : nat) (positions : list number) :
  is_Some (emitted i 0%nat) ->
  exists point tangent,
    THREE.getPoint roadCurve (parameter i) = Some point /\
    THREE.getTangent roadCurve (parameter i) = Some tangent /\
    step i positions
    = Normal (let normal := CreateRoad.planarNormal tangent in
              let height :=
                js_add (getHeightAtPosition (THREE.x point) (THREE.z point)) 0.2 in
              setVertex i 1 point normal height
                (setVertex i 0 point normal height positions)).
Proof.
  unfold CreateRoad.emitted, CreateRoad.step.
  destruct (THREE.getPoint roadCurve (parameter i)) as [point|];
    [|intros [v Hv]; discriminate Hv].
  destruct (THREE.getTangent roadCurve (parameter i)) as [tangent|];
    [|intros [v Hv]; discriminate Hv].
  intros _. now exists point, tangent.
Qed.

(** One pass writes the pair of sample [i] and touches no other vertex. *)
Lemma step_spec (i : nat) (positions : list number) :
  is_Some (emitted i 0%nat) ->
  (i * 6 + 5 < List.length positions)%nat ->
  exists positions',
    step i positions = Normal positions' /\
    List.length positions' = List.length positions /\
    (forall j, (j < 2)%nat ->
               CreateRoad.vertexAt positions' (i * 2 + j) = emitted i j) /\
    (forall k, k <> (i * 2)%nat -> k <> (i * 2 + 1)%nat ->
               CreateRoad.vertexAt positions' k = CreateRoad.vertexAt positions k).
Proof.
  intros Hdef Hlen.
  destruct (step_defined i positions Hdef) as (point & tangent & Hp & Ht & Hstep).
  eexists. split; [exact Hstep|]. cbv zeta.
  split; [now rewrite !setVertex_length|].
  split.
  - intros j Hj. unfold CreateRoad.emitted. rewrite Hp, Ht.
    destruct j as [|[|j]]; [| |lia].
    + rewrite vertexAt_setVertex_ne by lia.
      now rewrite vertexAt_setVertex_eq by lia.
    + now rewrite vertexAt_setVertex_eq by (rewrite setVertex_length; lia).
  - intros k Hk0 Hk1.
    now rewrite !vertexAt_setVertex_ne by lia.
Qed.

(** The loop from sample [first] on: it completes when the curve answers at
    every sample it visits, writes the pair of each of them, and leaves the
    vertices below [first * 2] as they were. *)
Lemma loop_spec (count first : nat) (positions : list number) :
  (forall i, (first <= i < first + count)%nat -> is_Some (emitted i 0%nat)) ->
  ((first + count) * 6 <= List.length positions)%nat ->
  exists positions',
    loop count first positions = Normal positions' /\
    List.length positions' = List.length positions /\
    (forall i j, (first <= i < first + count)%nat -> (j < 2)%nat ->
                 CreateRoad.vertexAt positions' (i * 2 + j) = emitted i j) /\
    (forall k, (k < first * 2)%nat ->
               CreateRoad.vertexAt positions' k = CreateRoad.vertexAt positions k).
Proof.
  revert first positions.
  induction count as [|count IH]; intros first positions Hdef Hlen.
  - exists positions. simpl. repeat split; intros; try lia; reflexivity.
  - destruct (step_spec first positions) as (p1 & Hstep & Hlen1 & Hpair & Hrest);
      [apply Hdef; lia|lia|].
    destruct (IH (S first) p1) as (p2 & Hloop & Hlen2 & Hpairs & Hbelow);
      [intros i Hi; apply Hdef; lia|rewrite Hlen1; lia|].
    exists p2. simpl. rewrite Hstep. split; [exact Hloop|].
    split; [congruence|]. split.
    + intros i j Hi Hj. destruct (decide (i = first)) as [->|Hne].
      * rewrite Hbelow by lia. now apply Hpair.
      * apply Hpairs; lia.
    + intros k Hk. rewrite Hbelow by lia. apply Hrest; lia.
Qed.

Lemma sampled_emitted (i j : nat) :
  CreateRoad.sampled roadCurve roadSegments ->
  (i <= Z.to_nat roadSegments)%nat ->
  is_Some (emitted i j).
Proof.
  intros Hs Hi. destruct (Hs i Hi) as [[point Hp] [tangent Ht]].
  unfold CreateRoad.emitted. rewrite Hp, Ht. eexists. reflexivity.
Qed.

(** The whole loop over a buffer of the plane layout. *)
Lemma vertices_spec (positions : list number) :
  (0 <= roadSegments)%Z ->
  CreateRoad.planeBuffer roadSegments positions ->
  CreateRoad.sampled roadCurve roadSegments ->
  exists positions',
    CreateRoad.vertices roadCurve getHeightAtPosition roadWidth roadSegments positions
    = Normal positions' /\
    List.length positions' = List.length positions /\
    (forall i j, (i <= Z.to_nat roadSegments)%nat -> (j < 2)%nat ->
                 CreateRoad.vertexAt positions' (i * 2 + j) = emitted i j).
Proof.
  intros Hsegs Hbuf Hs. unfold CreateRoad.planeBuffer in Hbuf.
  destruct (loop_spec (Z.to_nat (roadSegments + 1)) 0 positions)
    as (p & Hloop & Hlen & Hpairs & _).
  - intros i Hi. apply sampled_emitted; [exact Hs|lia].
  - rewrite Hbuf. lia.
  - exists p. split; [exact Hloop|]. split; [exact Hlen|].
    intros i j Hi Hj. apply Hpairs; lia.
Qed.

End RoadFacts.

(** ** The road builder *)

(** C3: for a segment count of at least 1 and a curve that answers at every
    sample, the geometry left by the builder has exactly
    [2 * (roadSegments + 1)] vertices, and they are the left/right pairs of
    the samples [0 .. roadSegments], in order. *)
Theorem createRoadWith_vertex_count
        (CurvePath : list (THREE.Vector3 * THREE.Vector3) -> THREE.Curve)
        (getHeightAtPosition : R -> R -> number)
        (points : list THREE.Vector3) (roadWidth : R) (roadSegments : Z)
        (positions : list number) :
  (1 <= roadSegments)%Z ->
  CreateRoad.planeBuffer roadSegments positions ->
  CreateRoad.sampled (CurvePath (CreateRoad.pieces points)) roadSegments ->
  exists positions',
    CreateRoad.createRoadWith CurvePath getHeightAtPosition points
                              roadWidth roadSegments positions
    = Normal positions' /\
    Z.of_nat (CreateRoad.vertexCount positions') = (2 * (roadSegments + 1))%Z /\
    (forall i j, (i <= Z.to_nat roadSegments)%nat -> (j < 2)%nat ->
       is_Some (CreateRoad.vertexAt positions' (i * 2 + j)) /\
       CreateRoad.vertexAt positions' (i * 2 + j)
       = CreateRoad.emitted (CurvePath (CreateRoad.pieces points))
                            getHeightAtPosition roadWidth roadSegments i j).
Proof.
  intros Hsegs Hbuf Hs.
  destruct (vertices_spec (CurvePath (CreateRoad.pieces points))
              getHeightAtPosition roadWidth roadSegments positions)
    as (p & Hrun & Hlen & Hpairs); [lia|exact Hbuf|exact Hs|].
  exists p. split; [exact Hrun|]. split.
  - unfold CreateRoad.vertexCount. rewrite Hlen, Hbuf.
    rewrite Nat.div_mul by lia. lia.
  - intros i j Hi Hj. rewrite (Hpairs i j Hi Hj). split; [|reflexivity].
    now apply sampled_emitted.
Qed.

(** ** The straight segment *)

Lemma parameter_num (roadSegments : Z) (i : nat) :
  roadSegments <> 0%Z ->
  CreateRoad.parameter roadSegments i = Num (INR i / IZR roadSegments).
Proof.
  intros Hne. unfold CreateRoad.parameter. apply js_div_nonzero.
  intros H0. apply Hne. now apply eq_IZR_R0.
Qed.

Lemma segmentCurve_sampled (p q : THREE.Vector3) (roadSegments : Z) :
  roadSegments <> 0%Z ->
  CreateRoad.sampled (THREE.segmentCurve p q) roadSegments.
Proof.
  intros Hne i _. rewrite parameter_num by exact Hne.
  split; eexists; reflexivity.
Qed.

Lemma length_axis (a : R) : 0 <= a -> sqrt (0 * 0 + 0 * 0 + a * a) = a.
Proof.
  intros Ha. replace (0 * 0 + 0 * 0 + a * a) with (a * a) by lra.
  now apply sqrt_square.
Qed.

Lemma scenario_tangent :
  THREE.normalize (THREE.mkVector3 (0 - 0) (0 - 0) (10 - 0))
  = THREE.mkVector3 0 0 1.
Proof.
  unfold THREE.normalize, THREE.length. cbn [THREE.x THREE.y THREE.z].
  replace ((0 - 0) * (0 - 0) + (0 - 0) * (0 - 0) + (10 - 0) * (10 - 0))
    with (0 * 0 + 0 * 0 + 10 * 10) by lra.
  rewrite length_axis by lra.
  destruct (Req_dec_T 10 0); [lra|]. f_equal; lra.
Qed.

(** The planar normal of the scenario's tangent points to negative x. *)
Lemma scenario_normal :
  CreateRoad.planarNormal
    (THREE.normalize (THREE.mkVector3 (0 - 0) (0 - 0) (10 - 0)))
  = THREE.mkVector3 (-1) 0 0.
Proof.
  rewrite scenario_tangent.
  unfold CreateRoad.planarNormal, THREE.normalize, THREE.length.
  cbn [THREE.x THREE.y THREE.z].
  replace (- (1) * - (1) + 0 * 0 + 0 * 0) with (1 * 1) by lra.
  rewrite sqrt_square by lra.
  destruct (Req_dec_T 1 0); [lra|]. f_equal; lra.
Qed.

Lemma segmentCurve_emitted (p q : THREE.Vector3)
      (getHeightAtPosition : R -> R -> number) (roadWidth : R)
      (roadSegments : Z) (i j : nat) :
  roadSegments <> 0%Z ->
  let r := INR i / IZR roadSegments in
  let point := THREE.mkVector3
                 (THREE.x p + r * (THREE.x q - THREE.x p))
                 (THREE.y p + r * (THREE.y q - THREE.y p))
                 (THREE.z p + r * (THREE.z q - THREE.z p)) in
  let normal := CreateRoad.planarNormal
                  (THREE.normalize
                     (THREE.mkVector3 (THREE.x q - THREE.x p)
                                      (THREE.y q - THREE.y p)
                                      (THREE.z q - THREE.z p))) in
  CreateRoad.emitted (THREE.segmentCurve p q) getHeightAtPosition
                     roadWidth roadSegments i j
  = Some (Num (THREE.x point + THREE.x normal * CreateRoad.halfWidth roadWidth j),
          js_add (getHeightAtPosition (THREE.x point) (THREE.z point)) 0.2,
          Num (THREE.z point + THREE.z normal * CreateRoad.halfWidth roadWidth j)).
Proof.
  intros Hne r point normal. unfold CreateRoad.emitted.
  rewrite parameter_num by exact Hne. reflexivity.
Qed.

Lemma vertex_eq (a b c a' b' c' : R) :
  a = a' -> b = b' -> c = c' ->
  Some (Num a, Num b, Num c) = Some (Num a', Num b', Num c').
Proof. now intros -> -> ->. Qed.

Lemma scenario_emitted (i j : nat) :
  CreateRoad.emitted (THREE.segmentCurve Scenario.start Scenario.finish)
                     Scenario.flat 4 2 i j
  = Some (Num (if Nat.eqb j 0 then 2 else -2), Num 0.2, Num (INR i * 5)).
Proof.
  rewrite segmentCurve_emitted by lia.
  cbn [Scenario.start Scenario.finish THREE.x THREE.y THREE.z].
  rewrite scenario_normal.
  cbn [THREE.x THREE.y THREE.z]. unfold CreateRoad.halfWidth, Scenario.flat.
  cbn [js_add].
  destruct (Nat.eqb j 0); apply vertex_eq; lra.
Qed.

Lemma scenario_sampled :
  CreateRoad.sampled
    (Scenario.path (CreateRoad.pieces [Scenario.start; Scenario.finish])) 2.
Proof. apply segmentCurve_sampled. lia. Qed.

Lemma createRoadWith_vertex_count_witness :
  exists positions',
    CreateRoad.createRoadWith Scenario.path Scenario.flat
      [Scenario.start; Scenario.finish] 4 2 Scenario.buffer
    = Normal positions' /\
    Z.of_nat (CreateRoad.vertexCount positions') = (2 * (2 + 1))%Z /\
    (forall i j, (i <= Z.to_nat 2)%nat -> (j < 2)%nat ->
       is_Some (CreateRoad.vertexAt positions' (i * 2 + j)) /\
       CreateRoad.vertexAt positions' (i * 2 + j)
       = CreateRoad.emitted
           (Scenario.path (CreateRoad.pieces [Scenario.start; Scenario.finish]))
           Scenario.flat 4 2 i j).
Proof.
  apply (createRoadWith_vertex_count Scenario.path Scenario.flat
           [Scenario.start; Scenario.finish] 4 2 Scenario.buffer).
  - lia.
  - reflexivity.
  - exact scenario_sampled.
Defined.

(** The planar normal of a tangent with a horizontal part is a horizontal
    unit vector. *)
Lemma planarNormal_unit (tangent : THREE.Vector3) :
  THREE.x tangent <> 0 \/ THREE.z tangent <> 0 ->
  let normal := CreateRoad.planarNormal tangent in
  THREE.x normal * THREE.x normal + THREE.z normal * THREE.z normal = 1
  /\ THREE.y normal = 0.
Proof.
  intros Hne. destruct tangent as [tx ty tz]. cbn [THREE.x THREE.z] in Hne.
  unfold CreateRoad.planarNormal, THREE.normalize, THREE.length.
  cbn [THREE.x THREE.y THREE.z].
  set (s := - tz * - tz + 0 * 0 + tx * tx).
  assert (Hs : 0 < s) by (unfold s; destruct Hne; nra).
  assert (Hl : 0 < sqrt s) by (now apply sqrt_lt_R0).
  assert (Hll : sqrt s * sqrt s = s) by (apply sqrt_sqrt; lra).
  destruct (Req_dec_T (sqrt s) 0); [lra|].
  split; [|lra].
  replace (- tz * (1 / sqrt s) * (- tz * (1 / sqrt s))
           + tx * (1 / sqrt s) * (tx * (1 / sqrt s)))
    with (s * (1 / sqrt s) * (1 / sqrt s)) by (unfold s; ring).
  rewrite <- Hll at 1. field. lra.
Qed.

(** A tangent without horizontal part has no planar normal: the vector to
    normalise is zero and stays zero, so both vertices of the pair fall on
    the centre point. *)
Lemma planarNormal_vertical (tangent : THREE.Vector3) :
  THREE.x tangent = 0 -> THREE.z tangent = 0 ->
  CreateRoad.planarNormal tangent = THREE.mkVector3 0 0 0.
Proof.
  intros Hx Hz. unfold CreateRoad.planarNormal, THREE.normalize, THREE.length.
  cbn [THREE.x THREE.y THREE.z]. rewrite Hx, Hz.
  replace (- 0 * - 0 + 0 * 0 + 0 * 0) with 0 by lra. rewrite sqrt_0.
  destruct (Req_dec_T 0 0) as [_|Hne]; [|now destruct Hne].
  f_equal; lra.
Qed.

Lemma distanceTo_pair (point normal : THREE.Vector3) (h w : R) :
  0 <= w ->
  THREE.x normal * THREE.x normal + THREE.z normal * THREE.z normal = 1 ->
  THREE.distanceTo
    (THREE.mkVector3 (THREE.x point - THREE.x normal * (w / 2)) h
                     (THREE.z point - THREE.z normal * (w / 2)))
    (THREE.mkVector3 (THREE.x point + THREE.x normal * (w / 2)) h
                     (THREE.z point + THREE.z normal * (w / 2)))
  = w.
Proof.
  intros Hw Hunit. unfold THREE.distanceTo, THREE.length.
  cbn [THREE.x THREE.y THREE.z].
  match goal with
  | |- sqrt ?e = _ =>
      replace e with (w * w * (THREE.x normal * THREE.x normal
                               + THREE.z normal * THREE.z normal)) by field
  end.
  rewrite Hunit, Rmult_1_r. now apply sqrt_square.
Qed.

(** A buffer of six vertices is the list of their coordinates. *)
Lemma buffer_of_six (positions : list number)
      (v0 v1 v2 v3 v4 v5 : number * number * number) :
  List.length positions = 18%nat ->
  CreateRoad.vertexAt positions 0 = Some v0 ->
  CreateRoad.vertexAt positions 1 = Some v1 ->
  CreateRoad.vertexAt positions 2 = Some v2 ->
  CreateRoad.vertexAt positions 3 = Some v3 ->
  CreateRoad.vertexAt positions 4 = Some v4 ->
  CreateRoad.vertexAt positions 5 = Some v5 ->
  positions
  = flat_map (fun v => [v.1.1; v.1.2; v.2]) [v0; v1; v2; v3; v4; v5].
Proof.
  intros Hlen H0 H1 H2 H3 H4 H5.
  do 18 (destruct positions as [|? positions]; [discriminate Hlen|]).
  destruct positions; [|discriminate Hlen].
  unfold CreateRoad.vertexAt in *. cbn in *.
  injection H0 as <-. injection H1 as <-. injection H2 as <-.
  injection H3 as <-. injection H4 as <-. injection H5 as <-.
  reflexivity.
Qed.

(** C8: every vertex the builder emits has, as its vertical coordinate, the
    height field's value at the sampled centre point plus 0.2; and over the
    flat height field the two control points (0,0,0) and (0,0,10), with
    width 4 and 2 segments, give six vertices, all at y = 0.2, at x = 2 and
    x = -2 on either side of the centre line, at z = 0, 5 and 10. *)
Theorem createRoadWith_clearance :
  (forall (CurvePath : list (THREE.Vector3 * THREE.Vector3) -> THREE.Curve)
          (getHeightAtPosition : R -> R -> number)
          (points : list THREE.Vector3) (roadWidth : R) (roadSegments : Z)
          (positions : list number),
      (1 <= roadSegments)%Z ->
      CreateRoad.planeBuffer roadSegments positions ->
      CreateRoad.sampled (CurvePath (CreateRoad.pieces points)) roadSegments ->
      exists positions',
        CreateRoad.createRoadWith CurvePath getHeightAtPosition points
                                  roadWidth roadSegments positions
        = Normal positions' /\
        forall (i j : nat) (point : THREE.Vector3),
          (i <= Z.to_nat roadSegments)%nat -> (j < 2)%nat ->
          THREE.getPoint (CurvePath (CreateRoad.pieces points))
                         (CreateRoad.parameter roadSegments i) = Some point ->
          positions' !! ((i * 2 + j) * 3 + 1)%nat
          = Some (js_add (getHeightAtPosition (THREE.x point) (THREE.z point)) 0.2))
  /\
  (forall (CurvePath : list (THREE.Vector3 * THREE.Vector3) -> THREE.Curve)
          (positions : list number),
      CurvePath [(Scenario.start, Scenario.finish)]
      = THREE.segmentCurve Scenario.start Scenario.finish ->
      CreateRoad.planeBuffer 2 positions ->
      CreateRoad.createRoadWith CurvePath Scenario.flat
        [Scenario.start; Scenario.finish] 4 2 positions
      = Normal [ Num 2; Num 0.2; Num 0;    Num (-2); Num 0.2; Num 0;
                 Num 2; Num 0.2; Num 5;    Num (-2); Num 0.2; Num 5;
                 Num 2; Num 0.2; Num 10;   Num (-2); Num 0.2; Num 10 ]).
Proof.
  split.
  - intros CurvePath getHeightAtPosition points roadWidth roadSegments positions
           Hsegs Hbuf Hs.
    destruct (vertices_spec (CurvePath (CreateRoad.pieces points))
                getHeightAtPosition roadWidth roadSegments positions)
      as (p & Hrun & Hlen & Hpairs); [lia|exact Hbuf|exact Hs|].
    exists p. split; [exact Hrun|].
    intros i j point Hi Hj Hp.
    specialize (Hpairs i j Hi Hj).
    destruct (Hs i Hi) as [_ [tangent Ht]].
    unfold CreateRoad.emitted in Hpairs. rewrite Hp, Ht in Hpairs.
    unfold CreateRoad.vertexAt in Hpairs.
    destruct (p !! ((i * 2 + j) * 3)%nat); [|discriminate Hpairs].
    destruct (p !! ((i * 2 + j) * 3 + 1)%nat); [|discriminate Hpairs].
    destruct (p !! ((i * 2 + j) * 3 + 2)%nat); [|discriminate Hpairs].
    now injection Hpairs as _ -> _.
  - intros CurvePath positions Hpath Hbuf.
    destruct (vertices_spec (CurvePath (CreateRoad.pieces [Scenario.start; Scenario.finish]))
                Scenario.flat 4 2 positions)
      as (p & Hrun & Hlen & Hpairs);
      [lia|exact Hbuf|cbn [CreateRoad.pieces zip tail zip_with]; rewrite Hpath;
                      apply segmentCurve_sampled; lia|].
    unfold CreateRoad.createRoadWith. rewrite Hrun. f_equal.
    cbn [CreateRoad.pieces zip tail zip_with] in Hpairs. rewrite Hpath in Hpairs.
    rewrite Hbuf in Hlen. change (Z.to_nat ((1 + 1) * (2 + 1)) * 3)%nat with 18%nat in Hlen.
    assert (Hv : forall i j, (i <= 2)%nat -> (j < 2)%nat ->
                 CreateRoad.vertexAt p (i * 2 + j)
                 = Some (Num (if Nat.eqb j 0 then 2 else -2), Num 0.2, Num (INR i * 5))).
    { intros i j Hi Hj. rewrite <- scenario_emitted. apply Hpairs; [|exact Hj].
      change (Z.to_nat 2) with 2%nat. exact Hi. }
    rewrite (buffer_of_six p _ _ _ _ _ _ Hlen
               (Hv 0 0 ltac:(lia) ltac:(lia))%nat (Hv 0 1 ltac:(lia) ltac:(lia))%nat
               (Hv 1 0 ltac:(lia) ltac:(lia))%nat (Hv 1 1 ltac:(lia) ltac:(lia))%nat
               (Hv 2 0 ltac:(lia) ltac:(lia))%nat (Hv 2 1 ltac:(lia) ltac:(lia))%nat).
    cbn [flat_map app fst snd Nat.eqb INR].
    repeat (f_equal; try (f_equal; lra)).
Qed.

Lemma createRoadWith_clearance_witness :
  (exists positions',
     CreateRoad.createRoadWith Scenario.path Scenario.flat
       [Scenario.start; Scenario.finish] 4 2 Scenario.buffer
     = Normal positions' /\
     forall (i j : nat) (point : THREE.Vector3),
       (i <= Z.to_nat 2)%nat -> (j < 2)%nat ->
       THREE.getPoint
         (Scenario.path (CreateRoad.pieces [Scenario.start; Scenario.finish]))
         (CreateRoad.parameter 2 i) = Some point ->
       positions' !! ((i * 2 + j) * 3 + 1)%nat
       = Some (js_add (Scenario.flat (THREE.x point) (THREE.z point)) 0.2))
  /\
  CreateRoad.createRoadWith Scenario.path Scenario.flat
    [Scenario.start; Scenario.finish] 4 2 Scenario.buffer
  = Normal [ Num 2; Num 0.2; Num 0;    Num (-2); Num 0.2; Num 0;
             Num 2; Num 0.2; Num 5;    Num (-2); Num 0.2; Num 5;
             Num 2; Num 0.2; Num 10;   Num (-2); Num 0.2; Num 10 ].
Proof.
  split.
  - apply (proj1 createRoadWith_clearance Scenario.path Scenario.flat
             [Scenario.start; Scenario.finish] 4 2%Z Scenario.buffer).
    + lia.
    + reflexivity.
    + exact scenario_sampled.
  - apply (proj2 createRoadWith_clearance Scenario.path Scenario.buffer).
    + reflexivity.
    + reflexivity.
Defined.

(** C9: at every sample where the tangent has a horizontal part, the two
    vertices of the pair lie at the centre point minus and plus
    [normalize(-tangent.z, 0, tangent.x) * (roadWidth / 2)], at the same
    height, and their distance is the road width (hence within 1e-4 of it). *)
Theorem createRoadWith_pair_distance
        (CurvePath : list (THREE.Vector3 * THREE.Vector3) -> THREE.Curve)
        (getHeightAtPosition : R -> R -> number)
        (points : list THREE.Vector3) (roadWidth : R) (roadSegments : Z)
        (positions : list number)
        (i : nat) (point tangent : THREE.Vector3) (h : R) :
  (1 <= roadSegments)%Z ->
  CreateRoad.planeBuffer roadSegments positions ->
  CreateRoad.sampled (CurvePath (CreateRoad.pieces points)) roadSegments ->
  0 <= roadWidth ->
  (i <= Z.to_nat roadSegments)%nat ->
  THREE.getPoint (CurvePath (CreateRoad.pieces points))
                 (CreateRoad.parameter roadSegments i) = Some point ->
  THREE.getTangent (CurvePath (CreateRoad.pieces points))
                   (CreateRoad.parameter roadSegments i) = Some tangent ->
  THREE.x tangent <> 0 \/ THREE.z tangent <> 0 ->
  getHeightAtPosition (THREE.x point) (THREE.z point) = Num h ->
  let normal :=
    THREE.normalize (THREE.mkVector3 (- THREE.z tangent) 0 (THREE.x tangent)) in
  let left :=
    THREE.mkVector3 (THREE.x point - THREE.x normal * (roadWidth / 2)) (h + 0.2)
                    (THREE.z point - THREE.z normal * (roadWidth / 2)) in
  let right :=
    THREE.mkVector3 (THREE.x point + THREE.x normal * (roadWidth / 2)) (h + 0.2)
                    (THREE.z point + THREE.z normal * (roadWidth / 2)) in
  exists positions',
    CreateRoad.createRoadWith CurvePath getHeightAtPosition points
                              roadWidth roadSegments positions
    = Normal positions' /\
    CreateRoad.vertexAt positions' (i * 2)
    = Some (Num (THREE.x left), Num (THREE.y left), Num (THREE.z left)) /\
    CreateRoad.vertexAt positions' (i * 2 + 1)
    = Some (Num (THREE.x right), Num (THREE.y right), Num (THREE.z right)) /\
    THREE.distanceTo left right = roadWidth /\
    Rabs (THREE.distanceTo left right - roadWidth) <= 0.0001.
Proof.
  intros Hsegs Hbuf Hs Hw Hi Hp Ht Hne Hh normal left right.
  destruct (vertices_spec (CurvePath (CreateRoad.pieces points))
              getHeightAtPosition roadWidth roadSegments positions)
    as (p & Hrun & Hlen & Hpairs); [lia|exact Hbuf|exact Hs|].
  destruct (planarNormal_unit tangent Hne) as [Hunit _].
  fold normal in Hunit.
  assert (Hd : THREE.distanceTo left right = roadWidth)
    by (apply distanceTo_pair; assumption).
  exists p. split; [exact Hrun|].
  pose proof (Hpairs i 0%nat Hi ltac:(lia)) as H0.
  pose proof (Hpairs i 1%nat Hi ltac:(lia)) as H1.
  rewrite Nat.add_0_r in H0.
  unfold CreateRoad.emitted in H0, H1.
  rewrite Hp, Ht, Hh in H0, H1. cbn [js_add] in H0, H1.
  fold normal in H0, H1. unfold CreateRoad.planarNormal in H0, H1.
  fold normal in H0, H1.
  split; [|split; [|split]].
  - rewrite H0. unfold left.
    apply vertex_eq; cbn [THREE.x THREE.y THREE.z];
      unfold CreateRoad.halfWidth; cbn [Nat.eqb]; try reflexivity; field.
  - rewrite H1. unfold right.
    apply vertex_eq; cbn [THREE.x THREE.y THREE.z];
      unfold CreateRoad.halfWidth; cbn [Nat.eqb]; try reflexivity; field.
  - exact Hd.
  - rewrite Hd, Rminus_diag, Rabs_R0. lra.
Qed.

Lemma createRoadWith_pair_distance_witness :
  let point := THREE.mkVector3 0 0 5 in
  let tangent := THREE.mkVector3 0 0 1 in
  let normal :=
    THREE.normalize (THREE.mkVector3 (- THREE.z tangent) 0 (THREE.x tangent)) in
  let left :=
    THREE.mkVector3 (THREE.x point - THREE.x normal * (4 / 2)) (0 + 0.2)
                    (THREE.z point - THREE.z normal * (4 / 2)) in
  let right :=
    THREE.mkVector3 (THREE.x point + THREE.x normal * (4 / 2)) (0 + 0.2)
                    (THREE.z point + THREE.z normal * (4 / 2)) in
  exists positions',
    CreateRoad.createRoadWith Scenario.path Scenario.flat
      [Scenario.start; Scenario.finish] 4 2 Scenario.buffer
    = Normal positions' /\
    CreateRoad.vertexAt positions' (1 * 2)
    = Some (Num (THREE.x left), Num (THREE.y left), Num (THREE.z left)) /\
    CreateRoad.vertexAt positions' (1 * 2 + 1)
    = Some (Num (THREE.x right), Num (THREE.y right), Num (THREE.z right)) /\
    THREE.distanceTo left right = 4 /\
    Rabs (THREE.distanceTo left right - 4) <= 0.0001.
Proof.
  apply (createRoadWith_pair_distance Scenario.path Scenario.flat
           [Scenario.start; Scenario.finish] 4 2 Scenario.buffer
           1 (THREE.mkVector3 0 0 5) (THREE.mkVector3 0 0 1) 0).
  - lia.
  - reflexivity.
  - exact scenario_sampled.
  - lra.
  - simpl. lia.
  - cbn [CreateRoad.pieces zip tail zip_with Scenario.path].
    rewrite parameter_num by lia.
    unfold THREE.segmentCurve, Scenario.start, Scenario.finish.
    cbn [THREE.getPoint THREE.x THREE.y THREE.z INR].
    f_equal. f_equal; lra.
  - cbn [CreateRoad.pieces zip tail zip_with Scenario.path].
    rewrite parameter_num by lia.
    unfold THREE.segmentCurve, Scenario.start, Scenario.finish.
    cbn [THREE.getTangent THREE.x THREE.y THREE.z].
    f_equal. apply scenario_tangent.
  - right. cbn [THREE.z]. lra.
  - reflexivity.
Defined.

(** * Further properties of the terrain *)

(** ** The generator *)

Lemma to_int32_small (v : Z) : (0 <= v < 2 ^ 31)%Z -> to_int32 v = v.
Proof. intros Hv. unfold to_int32. rewrite Z.mod_small; lia. Qed.

(** X1: the array of accumulated samples has [width * height] cells, in
    row-major order: cell [i] holds the sum of the four octave samples of
    column [i mod width] and row [i / width], at qualities 1, 4, 16 and 64
    (for arrays of fewer than 2^31 cells, where [~~] does not wrap). *)
Theorem accumulate_cells
        (noise : R -> R -> R -> R) (z : R) (width height i : nat) :
  (Z.of_nat (width * height) <= 2 ^ 31)%Z ->
  (i < width * height)%nat ->
  let x := INR (i mod width) in
  let y := INR (i / width) in
  List.length (accumulate noise z width height) = (width * height)%nat /\
  accumulate noise z width height !! i
  = Some (0 + Rabs (noise (x / 1) (y / 1) z * 1)
            + Rabs (noise (x / 4) (y / 4) z * 4)
            + Rabs (noise (x / 16) (y / 16) z * 16)
            + Rabs (noise (x / 64) (y / 64) z * 64)).
Proof.
  intros Hsize Hi x y. split; [apply accumulate_length|].
  rewrite accumulate_lookup by exact Hi.
  assert (Hw : (0 < width)%nat) by (destruct width; simpl in Hi; lia).
  assert (Hdiv : (i / width <= i)%nat) by (apply Nat.Div0.div_le_upper_bound; nia).
  assert (Hcol : IZR (Z.of_nat i mod Z.of_nat width) = x).
  { unfold x. rewrite INR_IZR_INZ. f_equal. now rewrite Nat2Z.inj_mod. }
  assert (Hrow : IZR (to_int32 (Z.of_nat i / Z.of_nat width)) = y).
  { unfold y. rewrite INR_IZR_INZ. f_equal.
    rewrite <- Nat2Z.inj_div. apply to_int32_small. lia. }
  unfold sample. cbv zeta. rewrite Hcol, Hrow.
  replace (1 * 4) with 4 by lra.
  replace (4 * 4) with 16 by lra.
  replace (16 * 4) with 64 by lra.
  reflexivity.
Qed.

Lemma accumulate_cells_witness :
  let x := INR (1 mod 2) in
  let y := INR (1 / 2) in
  List.length (accumulate (fun a _ _ => a) 0 2 1) = (2 * 1)%nat /\
  accumulate (fun a _ _ => a) 0 2 1 !! 1%nat
  = Some (0 + Rabs (x / 1 * 1) + Rabs (x / 4 * 4)
            + Rabs (x / 16 * 16) + Rabs (x / 64 * 64)).
Proof.
  apply (accumulate_cells (fun a _ _ => a) 0 2 1 1).
  - simpl. lia.
  - simpl. lia.
Defined.

Lemma js_div_scale (c a b : R) : 0 < c -> js_div (c * a) (c * b) = js_div a b.
Proof.
  intros Hc. unfold js_div.
  destruct (Req_dec_T (c * b) 0) as [Hcb|Hcb], (Req_dec_T b 0) as [Hb|Hb];
    try (exfalso; nra).
  - destruct (Req_dec_T (c * a) 0) as [Hca|Hca], (Req_dec_T a 0) as [Ha|Ha];
      try (exfalso; nra); [reflexivity|].
    destruct (Rlt_dec 0 (c * a)), (Rlt_dec 0 a); try reflexivity; exfalso; nra.
  - f_equal. field. split; lra.
Qed.

Lemma Rmin_scale (c a b : R) : 0 <= c -> Rmin (c * a) (c * b) = c * Rmin a b.
Proof.
  intros Hc. unfold Rmin.
  destruct (Rle_dec (c * a) (c * b)), (Rle_dec a b); try reflexivity; nra.
Qed.

Lemma Rmax_scale (c a b : R) : 0 <= c -> Rmax (c * a) (c * b) = c * Rmax a b.
Proof.
  intros Hc. unfold Rmax.
  destruct (Rle_dec (c * a) (c * b)), (Rle_dec a b); try reflexivity; nra.
Qed.

Lemma Math_min_scale (c d0 : R) (ds : list R) :
  0 <= c -> Math_min (c * d0) (Rmult c <$> ds) = c * Math_min d0 ds.
Proof.
  intros Hc. unfold Math_min. revert d0.
  induction ds as [|d ds IH]; intros d0; simpl; [reflexivity|].
  rewrite Rmin_scale by exact Hc. apply IH.
Qed.

Lemma Math_max_scale (c d0 : R) (ds : list R) :
  0 <= c -> Math_max (c * d0) (Rmult c <$> ds) = c * Math_max d0 ds.
Proof.
  intros Hc. unfold Math_max. revert d0.
  induction ds as [|d ds IH]; intros d0; simpl; [reflexivity|].
  rewrite Rmax_scale by exact Hc. apply IH.
Qed.

Lemma normalize_data_scale (c : R) (data : list R) :
  0 < c -> normalize_data (Rmult c <$> data) = normalize_data data.
Proof.
  intros Hc. destruct data as [|d0 ds]; [reflexivity|].
  change (Rmult c <$> d0 :: ds) with (c * d0 :: (Rmult c <$> ds)).
  unfold normalize_data.
  rewrite Math_min_scale, Math_max_scale by lra.
  change (c * d0 :: (Rmult c <$> ds)) with (Rmult c <$> d0 :: ds).
  rewrite <- list_fmap_compose.
  apply list_fmap_ext. intros i v _. cbn [compose].
  replace (c * v - c * Math_min d0 ds) with (c * (v - Math_min d0 ds)) by ring.
  replace (c * Math_max d0 ds - c * Math_min d0 ds)
    with (c * (Math_max d0 ds - Math_min d0 ds)) by ring.
  now apply js_div_scale.
Qed.

Lemma accumulate_scale
      (noise : R -> R -> R -> R) (z k : R) (width height : nat) :
  accumulate (fun a b c => k * noise a b c) z width height
  = Rmult (Rabs k) <$> accumulate noise z width height.
Proof.
  apply list_eq. intros i. rewrite list_lookup_fmap.
  destruct (decide (i < width * height)%nat) as [Hi|Hi].
  - rewrite !accumulate_lookup by exact Hi. cbn [fmap option_fmap option_map].
    f_equal. unfold sample. cbv beta zeta.
    rewrite !Rmult_assoc, !(Rabs_mult k). ring.
  - rewrite !lookup_ge_None_2; [reflexivity| |]; rewrite accumulate_length; lia.
Qed.

(** X2: only the shape of the noise matters, not its amplitude: a noise
    multiplied by a non-zero factor gives the same grid. *)
Theorem generateHeightMap_amplitude
        (noise : R -> R -> R -> R) (z k : R) (width height : nat) :
  k <> 0 ->
  generateHeightMap (fun a b c => k * noise a b c) z width height
  = generateHeightMap noise z width height.
Proof.
  intros Hk. unfold generateHeightMap. rewrite accumulate_scale.
  apply normalize_data_scale. now apply Rabs_pos_lt.
Qed.

Lemma generateHeightMap_amplitude_witness :
  generateHeightMap (fun a b c => -3 * (a + b + c)) 0.5 4 4
  = generateHeightMap (fun a b c => a + b + c) 0.5 4 4.
Proof.
  apply (generateHeightMap_amplitude (fun a b c => a + b + c) 0.5 (-3) 4 4).
  lra.
Defined.

(** ** The mesh heights *)

Section TerrainMeshFacts.

Variable heightMap : list number.

Lemma heightLoop_length (count i j : nat) (vertices : list number) :
  List.length (TerrainMesh.heightLoop heightMap count i j vertices)
  = List.length vertices.
Proof.
  revert i j vertices. induction count as [|count IH]; intros i j vertices; simpl.
  - reflexivity.
  - now rewrite IH, length_insert.
Qed.

(** Passes from [i] on leave the slots below [3 * i + 1], and every slot
    that is not the second of its triple. *)
Lemma heightLoop_other (count i : nat) (vertices : list number) (k : nat) :
  (k < i * 3 + 1 \/ k mod 3 <> 1)%nat ->
  TerrainMesh.heightLoop heightMap count i (i * 3) vertices !! k = vertices !! k.
Proof.
  revert i vertices. induction count as [|count IH]; intros i vertices Hk; simpl.
  - reflexivity.
  - replace (i * 3 + 3)%nat with (S i * 3)%nat by lia.
    rewrite IH.
    + apply list_lookup_insert_ne. intros Heq. subst k.
      destruct Hk as [Hk|Hk]; [lia|].
      apply Hk. rewrite Nat.add_comm, Nat.Div0.mod_add. reflexivity.
    + destruct Hk as [Hk|Hk]; [left; lia|now right].
Qed.

Lemma heightLoop_written (count i m : nat) (vertices : list number) :
  (i <= m < i + count)%nat -> (m * 3 + 1 < List.length vertices)%nat ->
  TerrainMesh.heightLoop heightMap count i (i * 3) vertices !! (m * 3 + 1)%nat
  = Some (TerrainMesh.scaled heightMap m).
Proof.
  revert i vertices. induction count as [|count IH]; intros i vertices Hm Hlen;
    simpl; [lia|].
  replace (i * 3 + 3)%nat with (S i * 3)%nat by lia.
  destruct (decide (m = i)) as [->|Hne].
  - rewrite heightLoop_other by (left; lia).
    now apply list_lookup_insert_eq.
  - apply IH; [lia|]. now rewrite length_insert.
Qed.

End TerrainMeshFacts.

(** X3: the loop that lifts the terrain mesh runs over the whole position
    array, three times the number of vertices, yet it only ever sets the
    height of vertex [m] to [heightMap[m] * maxHeight]: the x and z
    coordinates and the length of the array are untouched, and the passes
    beyond the last vertex write nothing. *)
Theorem applyHeightMap_heights (heightMap vertices : list number) :
  List.length vertices = (List.length heightMap * 3)%nat ->
  let result := TerrainMesh.applyHeightMap heightMap vertices in
  List.length result = List.length vertices /\
  (forall m v, heightMap !! m = Some v ->
               result !! (m * 3 + 1)%nat = Some (js_mul v CreateTerrain.maxHeight)) /\
  (forall k, (k mod 3 <> 1)%nat -> result !! k = vertices !! k).
Proof.
  intros Hlen result. unfold result, TerrainMesh.applyHeightMap.
  split; [apply heightLoop_length|]. split.
  - intros m v Hv. pose proof (lookup_lt_Some _ _ _ Hv) as Hm.
    change 0%nat with (0 * 3)%nat at 2.
    rewrite heightLoop_written by lia.
    unfold TerrainMesh.scaled. now rewrite Hv.
  - intros k Hk. change 0%nat with (0 * 3)%nat at 2.
    apply heightLoop_other. now right.
Qed.

Lemma applyHeightMap_heights_witness :
  let result :=
    TerrainMesh.applyHeightMap [Num 0.5; NaN]
      [Num (-1); Num 0; Num 7; Num 1; Num 0; Num 7] in
  List.length result = 6%nat /\
  (forall m v, [Num 0.5; NaN] !! m = Some v ->
               result !! (m * 3 + 1)%nat = Some (js_mul v CreateTerrain.maxHeight)) /\
  (forall k, (k mod 3 <> 1)%nat ->
             result !! k = [Num (-1); Num 0; Num 7; Num 1; Num 0; Num 7] !! k).
Proof.
  apply (applyHeightMap_heights [Num 0.5; NaN]
           [Num (-1); Num 0; Num 7; Num 1; Num 0; Num 7]).
  reflexivity.
Defined.

(** ** The closure: range and grid nodes *)





(** The world coordinate of column (or row) [i] of the grid. *)
Lemma terrainCoordinate_node (resolution i : Z) :
  (2 <= resolution)%Z ->
  CreateTerrain.terrainCoordinate
    (IZR i * CreateTerrain.size / IZR (resolution - 1) - CreateTerrain.size / 2)
  * IZR (resolution - 1) = IZR i.
Proof.
  intros Hres. unfold CreateTerrain.terrainCoordinate, CreateTerrain.size.
  assert (1 <= IZR (resolution - 1)) by (apply IZR_le; lia).
  field. lra.
Qed.

Lemma cellIndex_node (resolution i : Z) (t : R) :
  (2 <= resolution)%Z -> (0 <= i <= resolution - 1)%Z ->
  t * IZR (resolution - 1) = IZR i ->
  exists f : Z,
    (f = 0 \/ f = 1)%Z /\
    (CreateTerrain.cellIndex resolution t + f = i)%Z /\
    t * IZR (resolution - 1) - IZR (CreateTerrain.cellIndex resolution t) = IZR f.
Proof.
  intros Hres Hi Ht. unfold CreateTerrain.cellIndex. rewrite Ht.
  rewrite (Zfloor_eq i) by lra.
  destruct (decide (i <= resolution - 2)%Z) as [Hle|Hgt].
  - rewrite Z.min_l by exact Hle.
    exists 0%Z. split; [now left|]. split; [lia|]. lra.
  - rewrite Z.min_r by lia.
    exists 1%Z. split; [now right|]. split; [lia|].
    replace i with (resolution - 2 + 1)%Z at 1 by lia. rewrite plus_IZR. lra.
Qed.

(** X5: at the world position of a grid node the closure returns the
    height of that node, [heightMap[row * resolution + column] * maxHeight],
    the last row and column included. *)
Theorem getHeightAtPosition_node
        (resolution : Z) (heightMap : list R) (column row : Z) (v : R) :
  (2 <= resolution)%Z ->
  List.length heightMap = Z.to_nat (resolution * resolution) ->
  (0 <= column <= resolution - 1)%Z -> (0 <= row <= resolution - 1)%Z ->
  CreateTerrain.read heightMap (row * resolution + column) = Some v ->
  CreateTerrain.getHeightAtPosition resolution heightMap
    (IZR column * CreateTerrain.size / IZR (resolution - 1) - CreateTerrain.size / 2)
    (IZR row * CreateTerrain.size / IZR (resolution - 1) - CreateTerrain.size / 2)
  = Num (v * CreateTerrain.maxHeight).
Proof.
  intros Hres Hlen Hc Hr Hv.
  set (x := IZR column * CreateTerrain.size / IZR (resolution - 1)
            - CreateTerrain.size / 2).
  set (z := IZR row * CreateTerrain.size / IZR (resolution - 1)
            - CreateTerrain.size / 2).
  pose proof (terrainCoordinate_node resolution column Hres) as Hx. fold x in Hx.
  pose proof (terrainCoordinate_node resolution row Hres) as Hz. fold z in Hz.
  assert (Hr1 : 1 <= IZR (resolution - 1)) by (apply IZR_le; lia).
  assert (Hcr : 0 <= IZR column <= IZR (resolution - 1))
    by (split; apply IZR_le; lia).
  assert (Hrr : 0 <= IZR row <= IZR (resolution - 1))
    by (split; apply IZR_le; lia).
  assert (Hxin : 0 <= CreateTerrain.terrainCoordinate x <= 1) by (split; nra).
  assert (Hzin : 0 <= CreateTerrain.terrainCoordinate z <= 1) by (split; nra).
  destruct (getHeightAtPosition_inside resolution heightMap x z Hres Hlen Hxin Hzin)
    as (v00 & v10 & v01 & v11 & H00 & H10 & H01 & H11 & Hval).
  destruct (cellIndex_node resolution column _ Hres Hc Hx) as (fx & Hfx & Hxi & Hxf).
  destruct (cellIndex_node resolution row _ Hres Hr Hz) as (fz & Hfz & Hzi & Hzf).
  rewrite Hval, Hxf, Hzf. f_equal.
  rewrite <- Hxi, <- Hzi in Hv.
  destruct Hfx as [-> | ->], Hfz as [-> | ->];
    rewrite ?Z.add_0_r in Hv;
    [ rewrite H00 in Hv
    | rewrite H01 in Hv
    | rewrite Z.add_assoc in Hv; rewrite H10 in Hv
    | rewrite Z.add_assoc in Hv; rewrite H11 in Hv ];
    injection Hv as <-; lra.
Qed.

Lemma getHeightAtPosition_node_witness :
  CreateTerrain.getHeightAtPosition 3 [0; 1; 0; 1; 0.5; 1; 0; 1; 0.75]
    (IZR 2 * CreateTerrain.size / IZR (3 - 1) - CreateTerrain.size / 2)
    (IZR 2 * CreateTerrain.size / IZR (3 - 1) - CreateTerrain.size / 2)
  = Num (0.75 * CreateTerrain.maxHeight).
Proof.
  apply (getHeightAtPosition_node 3 [0; 1; 0; 1; 0.5; 1; 0; 1; 0.75] 2 2 0.75).
  - lia.
  - reflexivity.
  - lia.
  - lia.
  - reflexivity.
Defined.

(** ** The direct-sampling method: range *)



(** * The car *)

(** ** Speed *)

Lemma clamp_bounds (value lo hi : R) :
  lo <= hi -> lo <= CarPhysics.clamp value lo hi <= hi.
Proof.
  intros Hle. unfold CarPhysics.clamp, Rmax, Rmin.
  destruct (Rle_dec hi value); destruct (Rle_dec lo _); lra.
Qed.

Lemma clamp_inside (value lo hi : R) :
  lo <= value <= hi -> CarPhysics.clamp value lo hi = value.
Proof.
  intros Hv. unfold CarPhysics.clamp, Rmax, Rmin.
  destruct (Rle_dec hi value); destruct (Rle_dec lo _); lra.
Qed.

(** Slowing keeps the sign of the speed and never raises its magnitude. *)
Lemma slow_towards_zero (force deltaTime v : R) :
  0 <= force * deltaTime ->
  (0 <= v -> 0 <= CarPhysics.slow force deltaTime v <= v) /\
  (v <= 0 -> v <= CarPhysics.slow force deltaTime v <= 0).
Proof.
  intros Hf. unfold CarPhysics.slow, Rltb.
  repeat (destruct (Rlt_dec _ _)); split; intros; lra.
Qed.

Lemma slow_forward (force deltaTime v : R) :
  0 <= force * deltaTime -> 0 <= v ->
  CarPhysics.slow force deltaTime v = Rmax 0 (v - force * deltaTime).
Proof.
  intros Hf Hv. unfold CarPhysics.slow, Rltb, Rmax.
  repeat (destruct (Rlt_dec _ _)); destruct (Rle_dec _ _); lra.
Qed.

(** X7: whatever the keys and the time step, the speed left by an update
    lies between half the maximum speed in reverse and the maximum speed
    forward. *)
Theorem updateCarPhysics_speed_range
        (deltaTime : R) (getHeightAtPosition : R -> R -> R)
        (s : CarPhysics.State) :
  0 <= CarPhysics.maxSpeed (CarPhysics.carPhysics s) ->
  let s' := CarPhysics.updateCarPhysics deltaTime getHeightAtPosition s in
  - CarPhysics.maxSpeed (CarPhysics.carPhysics s) * 0.5
  <= CarPhysics.speed (CarPhysics.carPhysics s')
  <= CarPhysics.maxSpeed (CarPhysics.carPhysics s).
Proof.
  intros Hmax s'. unfold s', CarPhysics.updateCarPhysics.
  cbn [CarPhysics.carPhysics CarPhysics.speed]. unfold CarPhysics.newSpeed.
  apply clamp_bounds. lra.
Qed.

Lemma updateCarPhysics_speed_range_witness :
  let s := CarExample.state (CarPhysics.mkKeys true false false false false false) 0.79 in
  let s' := CarPhysics.updateCarPhysics 16 CarExample.level s in
  - CarPhysics.maxSpeed (CarPhysics.carPhysics s) * 0.5
  <= CarPhysics.speed (CarPhysics.carPhysics s')
  <= CarPhysics.maxSpeed (CarPhysics.carPhysics s).
Proof.
  apply (updateCarPhysics_speed_range 16 CarExample.level
           (CarExample.state (CarPhysics.mkKeys true false false false false false) 0.79)).
  simpl. lra.
Defined.

(** X8: with neither the forward nor the backward key held, an update never
    reverses the car and never speeds it up: a forward speed stays between 0
    and its old value, a reverse speed between its old value and 0, with or
    without the brake. *)
Theorem updateCarPhysics_coasting
        (deltaTime : R) (getHeightAtPosition : R -> R -> R)
        (s : CarPhysics.State) :
  CarPhysics.forward (CarPhysics.keys s) = false ->
  CarPhysics.backward (CarPhysics.keys s) = false ->
  0 <= deltaTime ->
  0 <= CarPhysics.deceleration (CarPhysics.carPhysics s) ->
  0 <= CarPhysics.brakingForce (CarPhysics.carPhysics s) ->
  0 <= CarPhysics.maxSpeed (CarPhysics.carPhysics s) ->
  let v := CarPhysics.speed (CarPhysics.carPhysics s) in
  let v' := CarPhysics.speed
              (CarPhysics.carPhysics
                 (CarPhysics.updateCarPhysics deltaTime getHeightAtPosition s)) in
  (0 <= v -> 0 <= v' <= v) /\ (v <= 0 -> v <= v' <= 0).
Proof.
  intros Hf Hb Hdt Hdec Hbr Hmax v v'.
  unfold v', CarPhysics.updateCarPhysics.
  cbn [CarPhysics.carPhysics CarPhysics.speed].
  unfold CarPhysics.newSpeed, CarPhysics.throttle, CarPhysics.applyBrakes.
  rewrite Hf, Hb. fold v.
  set (p := CarPhysics.carPhysics s) in *.
  assert (Hd : 0 <= CarPhysics.deceleration p * deltaTime) by nra.
  assert (Hk : 0 <= CarPhysics.brakingForce p * deltaTime) by nra.
  pose proof (slow_towards_zero (CarPhysics.deceleration p) deltaTime v Hd) as [S1 S2].
  set (v1 := CarPhysics.slow (CarPhysics.deceleration p) deltaTime v) in *.
  assert (Hv2 : exists v2, (if CarPhysics.brake (CarPhysics.keys s)
                            then CarPhysics.slow (CarPhysics.brakingForce p) deltaTime v1
                            else v1) = v2 /\
                           (0 <= v1 -> 0 <= v2 <= v1) /\ (v1 <= 0 -> v1 <= v2 <= 0)).
  { destruct (CarPhysics.brake (CarPhysics.keys s)).
    - eexists. split; [reflexivity|]. now apply slow_towards_zero.
    - exists v1. repeat split; lra. }
  destruct Hv2 as (v2 & -> & B1 & B2).
  unfold CarPhysics.clamp, Rmax, Rmin.
  split; intros Hv.
  - specialize (S1 Hv). specialize (B1 (proj1 S1)).
    destruct (Rle_dec (CarPhysics.maxSpeed p) v2); destruct (Rle_dec _ _); lra.
  - specialize (S2 Hv). specialize (B2 (proj2 S2)).
    destruct (Rle_dec (CarPhysics.maxSpeed p) v2); destruct (Rle_dec _ _); lra.
Qed.

Lemma updateCarPhysics_coasting_witness :
  let s := CarExample.state (CarPhysics.mkKeys false false true false true false) 0.5 in
  let v := CarPhysics.speed (CarPhysics.carPhysics s) in
  let v' := CarPhysics.speed
              (CarPhysics.carPhysics
                 (CarPhysics.updateCarPhysics 16 CarExample.level s)) in
  (0 <= v -> 0 <= v' <= v) /\ (v <= 0 -> v <= v' <= 0).
Proof.
  apply (updateCarPhysics_coasting 16 CarExample.level
           (CarExample.state (CarPhysics.mkKeys false false true false true false) 0.5));
    try reflexivity; simpl; lra.
Defined.

(** Keys and constants are left as they were. *)
Lemma updateCarPhysics_frame
      (deltaTime : R) (getHeightAtPosition : R -> R -> R) (s : CarPhysics.State) :
  let s' := CarPhysics.updateCarPhysics deltaTime getHeightAtPosition s in
  CarPhysics.keys s' = CarPhysics.keys s /\
  CarPhysics.maxSpeed (CarPhysics.carPhysics s')
  = CarPhysics.maxSpeed (CarPhysics.carPhysics s) /\
  CarPhysics.deceleration (CarPhysics.carPhysics s')
  = CarPhysics.deceleration (CarPhysics.carPhysics s).
Proof. repeat split. Qed.

Lemma coast_step
      (deltaTime : R) (getHeightAtPosition : R -> R -> R) (s : CarPhysics.State) :
  CarPhysics.forward (CarPhysics.keys s) = false ->
  CarPhysics.backward (CarPhysics.keys s) = false ->
  CarPhysics.brake (CarPhysics.keys s) = false ->
  0 <= CarPhysics.deceleration (CarPhysics.carPhysics s) * deltaTime ->
  0 <= CarPhysics.speed (CarPhysics.carPhysics s)
    <= CarPhysics.maxSpeed (CarPhysics.carPhysics s) ->
  CarPhysics.speed
    (CarPhysics.carPhysics
       (CarPhysics.updateCarPhysics deltaTime getHeightAtPosition s))
  = Rmax 0 (CarPhysics.speed (CarPhysics.carPhysics s)
            - CarPhysics.deceleration (CarPhysics.carPhysics s) * deltaTime).
Proof.
  intros Hf Hb Hk Hd Hv. unfold CarPhysics.updateCarPhysics.
  cbn [CarPhysics.carPhysics CarPhysics.speed].
  unfold CarPhysics.newSpeed, CarPhysics.throttle, CarPhysics.applyBrakes.
  rewrite Hf, Hb, Hk. rewrite slow_forward by lra.
  apply clamp_inside. unfold Rmax. destruct (Rle_dec _ _); lra.
Qed.

(** X9: released, the car rolls to a halt: from a forward speed [v] within
    the limit, [n] updates with the same time step leave the speed
    [max(0, v - n * deceleration * deltaTime)], so the car is at rest once
    [n * deceleration * deltaTime] reaches [v], and it stays at rest. *)
Theorem updateCarPhysics_rolls_to_halt
        (deltaTime : R) (getHeightAtPosition : R -> R -> R)
        (s : CarPhysics.State) (n : nat) :
  CarPhysics.forward (CarPhysics.keys s) = false ->
  CarPhysics.backward (CarPhysics.keys s) = false ->
  CarPhysics.brake (CarPhysics.keys s) = false ->
  0 <= CarPhysics.deceleration (CarPhysics.carPhysics s) * deltaTime ->
  0 <= CarPhysics.speed (CarPhysics.carPhysics s)
    <= CarPhysics.maxSpeed (CarPhysics.carPhysics s) ->
  CarPhysics.speed
    (CarPhysics.carPhysics
       (Nat.iter n (CarPhysics.updateCarPhysics deltaTime getHeightAtPosition) s))
  = Rmax 0 (CarPhysics.speed (CarPhysics.carPhysics s)
            - INR n * (CarPhysics.deceleration (CarPhysics.carPhysics s) * deltaTime)).
Proof.
  intros Hf Hb Hk Hd Hv.
  set (step := CarPhysics.updateCarPhysics deltaTime getHeightAtPosition).
  assert (Hinv : forall m,
             CarPhysics.keys (Nat.iter m step s) = CarPhysics.keys s /\
             CarPhysics.maxSpeed (CarPhysics.carPhysics (Nat.iter m step s))
             = CarPhysics.maxSpeed (CarPhysics.carPhysics s) /\
             CarPhysics.deceleration (CarPhysics.carPhysics (Nat.iter m step s))
             = CarPhysics.deceleration (CarPhysics.carPhysics s) /\
             CarPhysics.speed (CarPhysics.carPhysics (Nat.iter m step s))
             = Rmax 0 (CarPhysics.speed (CarPhysics.carPhysics s)
                       - INR m * (CarPhysics.deceleration (CarPhysics.carPhysics s)
                                  * deltaTime))).
  { induction m as [|m (IHk & IHmax & IHdec & IHv)].
    - change (Nat.iter 0 step s) with s. cbn [INR]. repeat split.
      rewrite Rmult_0_l, Rminus_0_r. unfold Rmax. destruct (Rle_dec _ _); lra.
    - change (Nat.iter (S m) step s) with (step (Nat.iter m step s)).
      destruct (updateCarPhysics_frame deltaTime getHeightAtPosition (Nat.iter m step s))
        as (Fk & Fmax & Fdec).
      fold step in Fk, Fmax, Fdec.
      split; [congruence|]. split; [congruence|]. split; [congruence|].
      unfold step at 1. rewrite coast_step.
      + rewrite IHv, IHdec, S_INR. unfold Rmax.
        repeat (destruct (Rle_dec _ _)); lra.
      + now rewrite IHk.
      + now rewrite IHk.
      + now rewrite IHk.
      + now rewrite IHdec.
      + rewrite IHv, IHmax. pose proof (pos_INR m) as Hm.
        unfold Rmax. destruct (Rle_dec _ _); nra. }
  apply Hinv.
Qed.

Lemma updateCarPhysics_rolls_to_halt_witness :
  CarPhysics.speed
    (CarPhysics.carPhysics
       (Nat.iter 10 (CarPhysics.updateCarPhysics 16 CarExample.level)
                 (CarExample.state CarExample.released 0.5)))
  = Rmax 0 (0.5 - INR 10 * (0.005 * 16)).
Proof.
  apply (updateCarPhysics_rolls_to_halt 16 CarExample.level
           (CarExample.state CarExample.released 0.5) 10);
    try reflexivity; simpl; lra.
Defined.

(** ** Heading, movement and camera *)

(** X10: the car cannot turn on the spot: while the new speed is at most
    0.01 in magnitude the heading is left alone.  With the right key held
    (whatever the left key) a car moving forward turns by
    [- turnSpeed * deltaTime], and a reversing car by half of that. *)
Theorem updateCarPhysics_turning
        (deltaTime : R) (getHeightAtPosition : R -> R -> R)
        (s : CarPhysics.State) :
  let s' := CarPhysics.updateCarPhysics deltaTime getHeightAtPosition s in
  let v := CarPhysics.speed (CarPhysics.carPhysics s') in
  let heading := THREE.y (CarPhysics.rotation (CarPhysics.car s)) in
  let heading' := THREE.y (CarPhysics.rotation (CarPhysics.car s')) in
  let turn := CarPhysics.turnSpeed (CarPhysics.carPhysics s) * deltaTime in
  (Rabs v <= 0.01 -> heading' = heading) /\
  (CarPhysics.right (CarPhysics.keys s) = true -> 0.01 < v ->
   heading' = heading - turn) /\
  (CarPhysics.right (CarPhysics.keys s) = true -> v < -0.01 ->
   heading' = heading - turn * 0.5).
Proof.
  intros s' v heading heading' turn.
  unfold heading', s', CarPhysics.updateCarPhysics.
  cbn [CarPhysics.car CarPhysics.rotation THREE.y].
  change (CarPhysics.newSpeed deltaTime (CarPhysics.keys s) (CarPhysics.carPhysics s))
    with v.
  fold heading. unfold CarPhysics.turnAmount.
  split; [|split].
  - intros Hv. apply Rltb_false in Hv. now rewrite Hv.
  - intros Hr Hv.
    assert (Hm : Rltb 0.01 (Rabs v) = true)
      by (apply Rltb_true; rewrite Rabs_right; lra).
    assert (Hp : Rltb 0 v = true) by (apply Rltb_true; lra).
    rewrite Hm, Hp, Hr. unfold turn. ring.
  - intros Hr Hv.
    assert (Hm : Rltb 0.01 (Rabs v) = true)
      by (apply Rltb_true; rewrite Rabs_left; lra).
    assert (Hp : Rltb 0 v = false) by (apply Rltb_false; lra).
    rewrite Hm, Hp, Hr. unfold turn. ring.
Qed.

Lemma updateCarPhysics_turning_witness :
  THREE.y (CarPhysics.rotation
             (CarPhysics.car
                (CarPhysics.updateCarPhysics 1 CarExample.level
                   (CarExample.state
                      (CarPhysics.mkKeys false false true true false false) 0.005))))
  = 0.
Proof.
  apply (proj1 (updateCarPhysics_turning 1 CarExample.level
                  (CarExample.state
                     (CarPhysics.mkKeys false false true true false false) 0.005))).
  cbn [CarPhysics.updateCarPhysics CarPhysics.carPhysics CarPhysics.speed
       CarExample.state].
  unfold CarPhysics.newSpeed, CarPhysics.throttle, CarPhysics.applyBrakes.
  cbn [CarPhysics.forward CarPhysics.backward CarPhysics.brake
       CarPhysics.keys CarPhysics.carPhysics CarPhysics.speed
       CarPhysics.deceleration CarPhysics.maxSpeed CarExample.state].
  rewrite slow_forward by lra.
  replace (Rmax 0 (0.005 - 0.005 * 1)) with 0
    by (unfold Rmax; destruct (Rle_dec _ _); lra).
  rewrite clamp_inside by lra. rewrite Rabs_R0. lra.
Defined.

(** X11: an update moves the car, in the horizontal plane, by exactly
    [|speed * deltaTime|] along its new heading, and puts the camera 10
    units behind the car's new place in that plane and 5 units above the
    height the car had before the update. *)
Theorem updateCarPhysics_movement
        (deltaTime : R) (getHeightAtPosition : R -> R -> R)
        (s : CarPhysics.State) :
  let s' := CarPhysics.updateCarPhysics deltaTime getHeightAtPosition s in
  let v := CarPhysics.speed (CarPhysics.carPhysics s') in
  let heading := THREE.y (CarPhysics.rotation (CarPhysics.car s')) in
  let p := CarPhysics.position (CarPhysics.car s) in
  let p' := CarPhysics.position (CarPhysics.car s') in
  let c := CarPhysics.camera_position s' in
  THREE.x p' = THREE.x p + sin heading * (v * deltaTime) /\
  THREE.z p' = THREE.z p + cos heading * (v * deltaTime) /\
  sqrt ((THREE.x p' - THREE.x p) * (THREE.x p' - THREE.x p)
        + (THREE.z p' - THREE.z p) * (THREE.z p' - THREE.z p))
  = Rabs (v * deltaTime) /\
  THREE.x c = THREE.x p' - 10 * sin heading /\
  THREE.z c = THREE.z p' - 10 * cos heading /\
  THREE.y c = THREE.y p + 5 /\
  sqrt ((THREE.x c - THREE.x p') * (THREE.x c - THREE.x p')
        + (THREE.z c - THREE.z p') * (THREE.z c - THREE.z p')) = 10.
Proof.
  intros s' v heading p p' c.
  unfold c, p', s', CarPhysics.updateCarPhysics.
  cbn [CarPhysics.car CarPhysics.position CarPhysics.camera_position
       THREE.x THREE.y THREE.z].
  change (CarPhysics.newSpeed deltaTime (CarPhysics.keys s) (CarPhysics.carPhysics s))
    with v.
  change (if Rltb 0.01 (Rabs v)
          then THREE.y (CarPhysics.rotation (CarPhysics.car s))
               + CarPhysics.turnAmount deltaTime (CarPhysics.keys s)
                   (CarPhysics.carPhysics s) * (if Rltb 0 v then 1 else 0.5)
          else THREE.y (CarPhysics.rotation (CarPhysics.car s)))
    with heading.
  fold p.
  pose proof (sin2_cos2 heading) as Hsc. unfold Rsqr in Hsc.
  repeat split; try ring.
  - match goal with
    | |- sqrt ?e = _ => replace e with (Rsqr (v * deltaTime))
    end.
    + apply sqrt_Rsqr_abs.
    + unfold Rsqr. nra.
  - match goal with
    | |- sqrt ?e = _ => replace e with (Rsqr 10)
    end.
    + apply sqrt_Rsqr. lra.
    + unfold Rsqr. nra.
Qed.

(** ** Suspension and tilt *)

(** One update moves the car's height a tenth of the way to its rest
    height over the ground at its new place. *)
Lemma updateCarPhysics_suspension
      (deltaTime : R) (getHeightAtPosition : R -> R -> R)
      (s : CarPhysics.State) :
  let s' := CarPhysics.updateCarPhysics deltaTime getHeightAtPosition s in
  let p := CarPhysics.position (CarPhysics.car s) in
  let p' := CarPhysics.position (CarPhysics.car s') in
  let target :=
    getHeightAtPosition (THREE.x p') (THREE.z p')
    + CarPhysics.suspension (CarPhysics.carPhysics s) + 1 in
  target - THREE.y p' = 0.9 * (target - THREE.y p).
Proof.
  intros s' p p' target. unfold target, p', s', CarPhysics.updateCarPhysics.
  cbn [CarPhysics.car CarPhysics.position THREE.x THREE.y THREE.z].
  fold p. lra.
Qed.

Lemma slow_zero (force deltaTime : R) : CarPhysics.slow force deltaTime 0 = 0.
Proof.
  unfold CarPhysics.slow, Rltb. destruct (Rlt_dec 0 0); [lra|reflexivity].
Qed.

(** A car at rest with the throttle keys released stays where it is. *)
Lemma updateCarPhysics_at_rest
      (deltaTime : R) (getHeightAtPosition : R -> R -> R)
      (s : CarPhysics.State) :
  CarPhysics.forward (CarPhysics.keys s) = false ->
  CarPhysics.backward (CarPhysics.keys s) = false ->
  CarPhysics.speed (CarPhysics.carPhysics s) = 0 ->
  0 <= CarPhysics.maxSpeed (CarPhysics.carPhysics s) ->
  let s' := CarPhysics.updateCarPhysics deltaTime getHeightAtPosition s in
  CarPhysics.speed (CarPhysics.carPhysics s') = 0 /\
  THREE.x (CarPhysics.position (CarPhysics.car s'))
  = THREE.x (CarPhysics.position (CarPhysics.car s)) /\
  THREE.z (CarPhysics.position (CarPhysics.car s'))
  = THREE.z (CarPhysics.position (CarPhysics.car s)).
Proof.
  intros Hf Hb Hv Hmax s'.
  assert (H0 : CarPhysics.newSpeed deltaTime (CarPhysics.keys s)
                 (CarPhysics.carPhysics s) = 0).
  { unfold CarPhysics.newSpeed, CarPhysics.throttle, CarPhysics.applyBrakes.
    rewrite Hf, Hb, Hv, slow_zero.
    destruct (CarPhysics.brake (CarPhysics.keys s));
      rewrite ?slow_zero; apply clamp_inside; lra. }
  unfold s', CarPhysics.updateCarPhysics.
  cbn [CarPhysics.carPhysics CarPhysics.speed CarPhysics.car
       CarPhysics.position THREE.x THREE.z].
  rewrite H0. repeat split; ring.
Qed.

(** X12: a car standing still settles onto its suspension: with the
    throttle keys released and speed 0, [n] updates leave it at the same
    place and shrink the gap between its height and its rest height over
    the ground there, [terrain + suspension + 1], to [0.9 ^ n] of the gap
    it started with. *)
Theorem updateCarPhysics_settles
        (deltaTime : R) (getHeightAtPosition : R -> R -> R)
        (s : CarPhysics.State) (n : nat) :
  CarPhysics.forward (CarPhysics.keys s) = false ->
  CarPhysics.backward (CarPhysics.keys s) = false ->
  CarPhysics.speed (CarPhysics.carPhysics s) = 0 ->
  0 <= CarPhysics.maxSpeed (CarPhysics.carPhysics s) ->
  let p := CarPhysics.position (CarPhysics.car s) in
  let p' := CarPhysics.position
              (CarPhysics.car
                 (Nat.iter n (CarPhysics.updateCarPhysics deltaTime getHeightAtPosition) s)) in
  let target :=
    getHeightAtPosition (THREE.x p) (THREE.z p)
    + CarPhysics.suspension (CarPhysics.carPhysics s) + 1 in
  THREE.x p' = THREE.x p /\ THREE.z p' = THREE.z p /\
  target - THREE.y p' = 0.9 ^ n * (target - THREE.y p).
Proof.
  intros Hf Hb Hv Hmax p p' target. unfold p'. clear p'.
  set (step := CarPhysics.updateCarPhysics deltaTime getHeightAtPosition).
  assert (Hinv : forall m,
    let sm := Nat.iter m step s in
    CarPhysics.keys sm = CarPhysics.keys s /\
    CarPhysics.speed (CarPhysics.carPhysics sm) = 0 /\
    CarPhysics.maxSpeed (CarPhysics.carPhysics sm)
    = CarPhysics.maxSpeed (CarPhysics.carPhysics s) /\
    CarPhysics.suspension (CarPhysics.carPhysics sm)
    = CarPhysics.suspension (CarPhysics.carPhysics s) /\
    THREE.x (CarPhysics.position (CarPhysics.car sm)) = THREE.x p /\
    THREE.z (CarPhysics.position (CarPhysics.car sm)) = THREE.z p /\
    target - THREE.y (CarPhysics.position (CarPhysics.car sm))
    = 0.9 ^ m * (target - THREE.y p)).
  { induction m as [|m IH].
    - change (Nat.iter 0 step s) with s. cbv zeta.
      repeat split; [exact Hv|]. fold p. simpl. lra.
    - cbv zeta in IH. destruct IH as (Ik & Iv & Imax & Isus & Ix & Iz & Iy).
      change (Nat.iter (S m) step s) with (step (Nat.iter m step s)). cbv zeta.
      set (sm := Nat.iter m step s) in *.
      destruct (updateCarPhysics_at_rest deltaTime getHeightAtPosition sm)
        as (Rv & Rx & Rz); [now rewrite Ik|now rewrite Ik|exact Iv|lra|].
      fold step in Rv, Rx, Rz.
      pose proof (updateCarPhysics_suspension deltaTime getHeightAtPosition sm) as Hs.
      cbv zeta in Hs. fold step in Hs.
      rewrite Rx, Rz, Ix, Iz, Isus in Hs. fold target in Hs.
      split; [exact Ik|]. split; [exact Rv|].
      split; [exact Imax|]. split; [exact Isus|].
      split; [congruence|]. split; [congruence|].
      rewrite Hs, Iy. simpl. ring. }
  specialize (Hinv n). cbv zeta in Hinv.
  destruct Hinv as (_ & _ & _ & _ & Hx & Hz & Hy). now repeat split.
Qed.

Lemma updateCarPhysics_settles_witness :
  let s := CarExample.state CarExample.released 0 in
  let p := CarPhysics.position (CarPhysics.car s) in
  let p' := CarPhysics.position
              (CarPhysics.car
                 (Nat.iter 3 (CarPhysics.updateCarPhysics 16 CarExample.level) s)) in
  let target :=
    CarExample.level (THREE.x p) (THREE.z p)
    + CarPhysics.suspension (CarPhysics.carPhysics s) + 1 in
  THREE.x p' = THREE.x p /\ THREE.z p' = THREE.z p /\
  target - THREE.y p' = 0.9 ^ 3 * (target - THREE.y p).
Proof.
  apply (updateCarPhysics_settles 16 CarExample.level
           (CarExample.state CarExample.released 0) 3);
    try reflexivity; simpl; lra.
Defined.

Lemma Math_atan2_bound (y x : R) :
  0 < x -> - (PI / 2) < Math_atan2 y x < PI / 2.
Proof.
  intros Hx. unfold Math_atan2.
  apply Rltb_true in Hx. rewrite Hx. pose proof (atan_bound (y / x)). lra.
Qed.

(** X13: terrain cannot tip the car over: if pitch and roll are within a
    quarter turn of level before an update, they are after it. *)
Theorem updateCarPhysics_tilt
        (deltaTime : R) (getHeightAtPosition : R -> R -> R)
        (s : CarPhysics.State) :
  let r := CarPhysics.rotation (CarPhysics.car s) in
  let r' := CarPhysics.rotation
              (CarPhysics.car
                 (CarPhysics.updateCarPhysics deltaTime getHeightAtPosition s)) in
  - (PI / 2) < THREE.x r < PI / 2 ->
  - (PI / 2) < THREE.z r < PI / 2 ->
  - (PI / 2) < THREE.x r' < PI / 2 /\ - (PI / 2) < THREE.z r' < PI / 2.
Proof.
  intros r r' Hx Hz. unfold r', CarPhysics.updateCarPhysics.
  cbn [CarPhysics.car CarPhysics.rotation THREE.x THREE.z]. fold r.
  match goal with
  | |- context [Math_atan2 ?a 4] => pose proof (Math_atan2_bound a 4 ltac:(lra))
  end.
  match goal with
  | |- context [Math_atan2 ?a 2] => pose proof (Math_atan2_bound a 2 ltac:(lra))
  end.
  split; lra.
Qed.

Lemma updateCarPhysics_tilt_witness :
  let r := CarPhysics.rotation
             (CarPhysics.car (CarExample.state CarExample.released 0.3)) in
  let r' := CarPhysics.rotation
              (CarPhysics.car
                 (CarPhysics.updateCarPhysics 16 (fun x z => x * z)
                    (CarExample.state CarExample.released 0.3))) in
  - (PI / 2) < THREE.x r' < PI / 2 /\ - (PI / 2) < THREE.z r' < PI / 2.
Proof.
  apply (updateCarPhysics_tilt 16 (fun x z => x * z)
           (CarExample.state CarExample.released 0.3));
    simpl; pose proof PI_RGT_0; lra.
Defined.

(** * The first simulation *)

Lemma Simple_newSpeed_range (s : Simple.State) :
  0 <= Simple.acceleration s -> 0 <= Simple.deceleration s ->
  0 <= Simple.maxSpeed s ->
  - Simple.maxSpeed s / 2 <= Simple.carSpeed s <= Simple.maxSpeed s ->
  - Simple.maxSpeed s / 2 <= Simple.newSpeed s <= Simple.maxSpeed s.
Proof.
  intros Ha Hd Hm Hv. unfold Simple.newSpeed, Rltb.
  destruct (Simple.forward (Simple.keys s)), (Simple.backward (Simple.keys s));
    repeat (destruct (Rlt_dec _ _)); lra.
Qed.

(** X14: the speed limits are an invariant of the first simulation: from
    a speed between [- maxSpeed / 2] and [maxSpeed], for instance from
    rest, no sequence of frames, whatever keys are held in each, takes the
    speed outside these limits. *)
Theorem Simple_speed_invariant (s : Simple.State) (ks : list Simple.Keys) :
  0 <= Simple.acceleration s -> 0 <= Simple.deceleration s ->
  0 <= Simple.maxSpeed s ->
  - Simple.maxSpeed s / 2 <= Simple.carSpeed s <= Simple.maxSpeed s ->
  let s' := foldl Simple.frame s ks in
  - Simple.maxSpeed s / 2 <= Simple.carSpeed s' <= Simple.maxSpeed s.
Proof.
  revert s. induction ks as [|k ks IH]; intros s Ha Hd Hm Hv; [exact Hv|].
  cbn [foldl]. cbv zeta.
  change (Simple.maxSpeed s) with (Simple.maxSpeed (Simple.frame s k)).
  apply IH; try assumption.
  unfold Simple.frame, Simple.updateCarPosition. cbn [Simple.carSpeed Simple.maxSpeed].
  match goal with
  | |- _ <= Simple.newSpeed ?t <= _ =>
      exact (Simple_newSpeed_range t Ha Hd Hm Hv)
  end.
Qed.

Lemma Simple_speed_invariant_witness :
  let s' := foldl Simple.frame Simple.initial
              [Simple.mkKeys true false false false;
               Simple.mkKeys false true true false;
               Simple.mkKeys false false false true] in
  - Simple.maxSpeed Simple.initial / 2 <= Simple.carSpeed s'
  <= Simple.maxSpeed Simple.initial.
Proof.
  apply (Simple_speed_invariant Simple.initial
           [Simple.mkKeys true false false false;
            Simple.mkKeys false true true false;
            Simple.mkKeys false false false true]); simpl; lra.
Defined.

(** X15: in the first simulation the left and right keys cancel when held
    together, and the car turns also at a standstill; the update moves the
    car by [|carSpeed|] along its new heading and keeps the camera 10 units
    behind it and 5 above it. *)
Theorem Simple_updateCarPosition_motion (s : Simple.State) :
  let s' := Simple.updateCarPosition s in
  let h := Simple.car_rotation_y s in
  let h' := Simple.car_rotation_y s' in
  let p := Simple.car_position s in
  let p' := Simple.car_position s' in
  let c := Simple.camera_position s' in
  h' = h + (if Simple.left (Simple.keys s) then Simple.turnSpeed s else 0)
         - (if Simple.right (Simple.keys s) then Simple.turnSpeed s else 0) /\
  sqrt ((THREE.x p' - THREE.x p) * (THREE.x p' - THREE.x p)
        + (THREE.z p' - THREE.z p) * (THREE.z p' - THREE.z p))
  = Rabs (Simple.carSpeed s') /\
  THREE.y p' = THREE.y p /\
  THREE.distanceTo c p' = sqrt 125.
Proof.
  intros s' h h' p p' c.
  unfold c, p', h', s', Simple.updateCarPosition.
  cbn [Simple.car_rotation_y Simple.car_position Simple.camera_position
       Simple.carSpeed THREE.x THREE.y THREE.z].
  fold p h.
  set (v := Simple.newSpeed s). set (g := Simple.newHeading s).
  pose proof (sin2_cos2 g) as Hsc. unfold Rsqr in Hsc.
  split; [|split; [|split]].
  - unfold g, Simple.newHeading. fold h.
    destruct (Simple.left (Simple.keys s)), (Simple.right (Simple.keys s)); ring.
  - match goal with
    | |- sqrt ?e = _ => replace e with (Rsqr v)
    end.
    + apply sqrt_Rsqr_abs.
    + unfold Rsqr. nra.
  - reflexivity.
  - unfold THREE.distanceTo, THREE.length. cbn [THREE.x THREE.y THREE.z].
    f_equal. nra.
Qed.

(** X16: the road never grows past one extra segment.  Over any sequence of
    frames, [updateRoadPosition] leaves the road and its markings where they
    are, adds nothing in a frame where the car is within 200 of z = 0, and in
    every other frame adds one more copy of the road and of the markings,
    each time at the same place, 500 beyond the road; nothing is removed. *)
Theorem updateRoadPosition_frames (w : Simple.World) (carZs : list R) :
  let w' := foldl (fun w carZ => Simple.updateRoadPosition carZ w) w carZs in
  let copies :=
    [Simple.mkMesh (Simple.kind (Simple.road w))
                   (Simple.position_z (Simple.road w) + 500);
     Simple.mkMesh (Simple.kind (Simple.roadMarkings w))
                   (Simple.position_z (Simple.road w) + 500)] in
  Simple.road w' = Simple.road w /\
  Simple.roadMarkings w' = Simple.roadMarkings w /\
  Simple.scene w'
  = Simple.scene w
    ++ flat_map (fun carZ => if Rltb 200 (Rabs carZ) then copies else []) carZs.
Proof.
  revert w. induction carZs as [|carZ carZs IH]; intros w; cbn [foldl flat_map].
  - cbv zeta. rewrite app_nil_r. repeat split.
  - cbv zeta in *.
    destruct (IH (Simple.updateRoadPosition carZ w)) as (Hr & Hm & Hs).
    unfold Simple.updateRoadPosition, Simple.roadSegmentLength in *.
    replace (500 * 0.4) with 200 in * by lra.
    destruct (Rltb 200 (Rabs carZ)).
    + cbn [Simple.road Simple.roadMarkings Simple.scene Simple.position_z] in *.
      rewrite Hr, Hm, Hs. repeat split. now rewrite <- !app_assoc.
    + rewrite Hr, Hm, Hs. repeat split.
Qed.

(** X17: [addTrees] of the first simulation never plants on the road: for
    draws in [0, 1), every tree it adds lies more than 15 from the road's
    centre line x = 0, within the 200 x 200 square around the origin, on the
    ground plane, and at most one tree is added per pass. *)
Theorem Simple_addTrees_clear_of_road (random : nat -> R) (count first : nat) :
  (forall n, 0 <= random n < 1) ->
  Forall (fun t => 15 < Rabs (THREE.x t) /\ -100 <= THREE.x t < 100 /\
                   -100 <= THREE.z t < 100 /\ THREE.y t = 0)
         (Simple.addTrees random count first) /\
  (List.length (Simple.addTrees random count first) <= count)%nat.
Proof.
  intros Hr. revert first.
  induction count as [|count IH]; intros first; cbn [Simple.addTrees].
  - split; [apply Forall_nil_2|reflexivity].
  - destruct (IH (S first)) as [Hall Hlen]. cbv zeta.
    destruct (Rltb 15 _) eqn:Hfar.
    + split; [|cbn [List.length]; lia].
      apply Forall_cons_2; [|exact Hall].
      apply Rltb_true in Hfar. cbn [THREE.x THREE.y THREE.z].
      pose proof (Hr (2 * first)%nat). pose proof (Hr (2 * first + 1)%nat).
      repeat split; lra.
    + split; [exact Hall|lia].
Qed.

Lemma Simple_addTrees_clear_of_road_witness :
  Forall (fun t => 15 < Rabs (THREE.x t) /\ -100 <= THREE.x t < 100 /\
                   -100 <= THREE.z t < 100 /\ THREE.y t = 0)
         (Simple.addTrees (fun n => / (INR n + 2)) 50 0) /\
  (List.length (Simple.addTrees (fun n => / (INR n + 2)) 50 0) <= 50)%nat.
Proof.
  apply (Simple_addTrees_clear_of_road (fun n => / (INR n + 2)) 50 0).
  intros n. pose proof (pos_INR n) as Hn.
  assert (0 < / (INR n + 2)) by (apply Rinv_0_lt_compat; lra).
  split; [lra|].
  rewrite <- Rinv_1. apply Rinv_lt_contravar; lra.
Defined.

(** * The forest of the enhanced simulation *)

(** X18: [addTrees] of the enhanced simulation adds exactly [treeCount]
    trees and keeps the start clear: for draws in [0, 1), every tree stands
    at least 50 and less than 450 from the origin, at the terrain height of
    its own place, scaled by at least 0.8 and less than 1.5. *)
Theorem Forest_addTrees_ring
        (random : nat -> R) (getHeightAtPosition : R -> R -> number)
        (treeCount : nat) :
  (forall n, 0 <= random n < 1) ->
  List.length (Forest.addTrees random getHeightAtPosition treeCount) = treeCount /\
  Forall (fun t =>
            50 <= sqrt (Forest.x t * Forest.x t + Forest.z t * Forest.z t) < 450 /\
            Forest.y t = getHeightAtPosition (Forest.x t) (Forest.z t) /\
            0.8 <= Forest.scale t < 1.5)
         (Forest.addTrees random getHeightAtPosition treeCount).
Proof.
  intros Hr. unfold Forest.addTrees. split.
  - now rewrite length_fmap, length_seq.
  - apply Forall_fmap, Forall_forall. intros i _. cbn [compose].
    unfold Forest.tree, Forest.maxDistance.
    cbn [Forest.x Forest.y Forest.z Forest.scale].
    pose proof (Hr (4 * i + 1)%nat) as H1. pose proof (Hr (4 * i + 3)%nat) as H3.
    set (a := random (4 * i)%nat * PI * 2).
    set (d := 50 + random (4 * i + 1)%nat * 400).
    pose proof (sin2_cos2 a) as Hsc. unfold Rsqr in Hsc.
    replace (cos a * d * (cos a * d) + sin a * d * (sin a * d))
      with (Rsqr d) by (unfold Rsqr; nra).
    rewrite sqrt_Rsqr by (unfold d; lra).
    unfold d. repeat split; lra.
Qed.

Lemma Forest_addTrees_ring_witness :
  List.length (Forest.addTrees (fun n => / (INR n + 2)) Scenario.flat 100) = 100%nat /\
  Forall (fun t =>
            50 <= sqrt (Forest.x t * Forest.x t + Forest.z t * Forest.z t) < 450 /\
            Forest.y t = Scenario.flat (Forest.x t) (Forest.z t) /\
            0.8 <= Forest.scale t < 1.5)
         (Forest.addTrees (fun n => / (INR n + 2)) Scenario.flat 100).
Proof.
  apply (Forest_addTrees_ring (fun n => / (INR n + 2)) Scenario.flat 100).
  intros n. pose proof (pos_INR n) as Hn.
  assert (0 < / (INR n + 2)) by (apply Rinv_0_lt_compat; lra).
  split; [lra|].
  rewrite <- Rinv_1. apply Rinv_lt_contravar; lra.
Defined.

(** * Road markings *)

Lemma div_le_compat (a b d : R) : 0 < d -> a <= b -> a / d <= b / d.
Proof.
  intros Hd Hab. unfold Rdiv. apply Rmult_le_compat_r; [|exact Hab].
  left. now apply Rinv_0_lt_compat.
Qed.

Lemma div_lt_compat (a b d : R) : 0 < d -> a < b -> a / d < b / d.
Proof.
  intros Hd Hab. unfold Rdiv. apply Rmult_lt_compat_r; [|exact Hab].
  now apply Rinv_0_lt_compat.
Qed.

Section RoadMarkingsFacts.

Variable roadCurve : THREE.Curve.
Variable getHeightAtPosition : R -> R -> number.
Variable heightOffset : R.
Variable numDashes : nat.
Variable dashLength dashGap : R.

Hypothesis dashLength_pos : 0 < dashLength.
Hypothesis dashGap_nonneg : 0 <= dashGap.

Abbreviation startT := (RoadMarkings.startT numDashes dashLength dashGap).
Abbreviation endT := (RoadMarkings.endT numDashes dashLength dashGap).
Abbreviation dashAt :=
  (RoadMarkings.dashAt roadCurve getHeightAtPosition heightOffset
                       numDashes dashLength dashGap).
Abbreviation loop :=
  (RoadMarkings.loop roadCurve getHeightAtPosition heightOffset
                     numDashes dashLength dashGap).

(** The parameter span of dash [i]: numbers, in order, inside [0, 1], and
    ending no later than the next dash starts. *)
Lemma dash_span (i : nat) :
  (i < numDashes)%nat ->
  exists t e,
    startT i = Num t /\ endT i = Num e /\ 0 <= t < e /\ e <= 1 /\
    startT (S i) = Num (t + (dashLength + dashGap)
                            / (INR numDashes * (dashLength + dashGap))) /\
    e <= t + (dashLength + dashGap) / (INR numDashes * (dashLength + dashGap)).
Proof.
  intros Hi.
  set (D := INR numDashes * (dashLength + dashGap)).
  assert (Hn : 1 <= INR numDashes).
  { change 1 with (INR 1). apply le_INR. lia. }
  assert (HiR : INR i + 1 <= INR numDashes).
  { rewrite <- S_INR. apply le_INR. lia. }
  pose proof (pos_INR i) as Hi0.
  assert (HD : 0 < D) by (unfold D; nra).
  assert (HDne : D <> 0) by lra.
  unfold RoadMarkings.endT, RoadMarkings.startT. fold D.
  rewrite !js_div_nonzero by exact HDne. cbn [js_plus].
  exists (INR i * (dashLength + dashGap) / D),
         (INR i * (dashLength + dashGap) / D + dashLength / D).
  split; [reflexivity|]. split; [reflexivity|].
  assert (Hl : 0 < dashLength / D) by (apply Rdiv_lt_0_compat; lra).
  assert (Ht : 0 <= INR i * (dashLength + dashGap) / D).
  { apply Rle_mult_inv_pos; [nra|exact HD]. }
  split; [lra|]. split; [|split].
  - replace (INR i * (dashLength + dashGap) / D + dashLength / D)
      with ((INR i * (dashLength + dashGap) + dashLength) / D) by (field; exact HDne).
    replace 1 with (D / D) by (field; exact HDne).
    apply div_le_compat; [exact HD|]. unfold D. nra.
  - f_equal. rewrite S_INR. field. exact HDne.
  - assert (dashLength / D <= (dashLength + dashGap) / D)
      by (apply div_le_compat; lra).
    lra.
Qed.

Hypothesis curve_answers : RoadMarkings.answers roadCurve.

Lemma dashAt_defined (i : nat) : (i < numDashes)%nat -> is_Some (dashAt i).
Proof.
  intros Hi. destruct (dash_span i Hi) as (t & e & Ht & He & Hte & He1 & _).
  unfold RoadMarkings.dashAt. rewrite Ht, He.
  destruct (curve_answers t ltac:(lra)) as [[p Hp] [g Hg]].
  destruct (curve_answers e ltac:(lra)) as [[q Hq] _].
  rewrite Hp, Hq, Hg. eexists. reflexivity.
Qed.

(** Neither [break] fires: the passes from [first] on all add their dash. *)
Lemma markings_loop_spec (count first : nat) (dashes : list RoadMarkings.Dash) :
  (first + count <= numDashes)%nat ->
  exists ds,
    loop count first dashes = Normal (dashes ++ ds) /\
    List.length ds = count /\
    forall k, (k < count)%nat -> ds !! k = dashAt (first + k).
Proof.
  revert first dashes.
  induction count as [|count IH]; intros first dashes Hle.
  - exists []. rewrite app_nil_r. repeat split. intros k Hk. lia.
  - destruct (dash_span first ltac:(lia)) as (t & e & Ht & He & Hte & He1 & _).
    destruct (dashAt_defined first ltac:(lia)) as [d Hd].
    cbn [RoadMarkings.loop]. cbv zeta.
    unfold RoadMarkings.dashAt in Hd. rewrite Ht, He in *.
    assert (G1 : js_gt (Num t) 1 = false) by (apply Rltb_false; lra).
    assert (G2 : js_gt (Num e) 1 = false) by (apply Rltb_false; lra).
    rewrite G1, G2.
    destruct (THREE.getPoint roadCurve (Num t)) as [p|] eqn:Hp; [|discriminate Hd].
    destruct (THREE.getPoint roadCurve (Num e)) as [q|] eqn:Hq; [|discriminate Hd].
    destruct (THREE.getTangent roadCurve (Num t)) as [g|] eqn:Hg; [|discriminate Hd].
    injection Hd as Hd.
    destruct (IH (S first) (dashes ++ [d])) as (ds & Hrun & Hlen & Hds); [lia|].
    exists (d :: ds). rewrite Hd, Hrun.
    split; [now rewrite <- app_assoc|]. split; [cbn; lia|].
    intros [|k] Hk.
    + rewrite Nat.add_0_r. unfold RoadMarkings.dashAt.
      rewrite Ht, He, Hp, Hq, Hg. cbn. now rewrite Hd.
    + cbn [lookup list_lookup]. rewrite Hds by lia. f_equal. lia.
Qed.

End RoadMarkingsFacts.

(** X19: for a positive dash length, a non-negative gap and a curve that
    answers on [0, 1], neither [break] of [addRoadMarkings] ever fires: all
    [numDashes] dashes are added, dash [i] being the one laid between the
    curve points at [t] and [endT] of pass [i]; these parameter spans lie
    inside [0, 1], in order, and never overlap. *)
Theorem addRoadMarkings_all_dashes
        (roadCurve : THREE.Curve) (getHeightAtPosition : R -> R -> number)
        (heightOffset : R) (numDashes : nat) (dashLength dashGap : R) :
  0 < dashLength -> 0 <= dashGap ->
  RoadMarkings.answers roadCurve ->
  exists dashes,
    RoadMarkings.addRoadMarkings roadCurve getHeightAtPosition heightOffset
                                 numDashes dashLength dashGap
    = Normal dashes /\
    List.length dashes = numDashes /\
    forall i, (i < numDashes)%nat ->
      is_Some (dashes !! i) /\
      dashes !! i
      = RoadMarkings.dashAt roadCurve getHeightAtPosition heightOffset
                            numDashes dashLength dashGap i /\
      exists t e,
        RoadMarkings.startT numDashes dashLength dashGap i = Num t /\
        RoadMarkings.endT numDashes dashLength dashGap i = Num e /\
        0 <= t < e /\ e <= 1 /\
        exists t',
          RoadMarkings.startT numDashes dashLength dashGap (S i) = Num t' /\
          e <= t'.
Proof.
  intros HL HG Hc.
  destruct (markings_loop_spec roadCurve getHeightAtPosition heightOffset
              numDashes dashLength dashGap HL HG Hc numDashes 0 [])
    as (ds & Hrun & Hlen & Hds); [lia|].
  exists ds. split; [exact Hrun|]. split; [exact Hlen|].
  intros i Hi. rewrite (Hds i Hi). cbn [Nat.add].
  split; [now apply dashAt_defined|]. split; [reflexivity|].
  destruct (dash_span numDashes dashLength dashGap HL HG i Hi)
    as (t & e & Ht & He & Hte & He1 & Hnext & Hgap).
  exists t, e. repeat (split; [assumption|]).
  eexists. split; [exact Hnext|exact Hgap].
Qed.

Lemma segmentCurve_answers (p q : THREE.Vector3) :
  RoadMarkings.answers (THREE.segmentCurve p q).
Proof. intros r _. split; eexists; reflexivity. Qed.

Lemma addRoadMarkings_all_dashes_witness :
  exists dashes,
    RoadMarkings.addRoadMarkings
      (THREE.segmentCurve Scenario.start Scenario.finish) Scenario.flat 0.1 200 2 2
    = Normal dashes /\
    List.length dashes = 200%nat /\
    forall i, (i < 200)%nat ->
      is_Some (dashes !! i) /\
      dashes !! i
      = RoadMarkings.dashAt
          (THREE.segmentCurve Scenario.start Scenario.finish) Scenario.flat 0.1
          200 2 2 i /\
      exists t e,
        RoadMarkings.startT 200 2 2 i = Num t /\
        RoadMarkings.endT 200 2 2 i = Num e /\
        0 <= t < e /\ e <= 1 /\
        exists t', RoadMarkings.startT 200 2 2 (S i) = Num t' /\ e <= t'.
Proof.
  apply (addRoadMarkings_all_dashes
           (THREE.segmentCurve Scenario.start Scenario.finish) Scenario.flat 0.1
           200 2 2).
  - lra.
  - lra.
  - apply segmentCurve_answers.
Defined.

(** * The river and its banks *)

Section StripFacts.

Variable riverCurve : THREE.Curve.
Variable riverSegments : Z.
Variable height : number.
Variable lateral : nat -> R.

Abbreviation stripVertex := (CreateRiver.setVertex height lateral).
Abbreviation stripStep := (CreateRiver.step riverCurve riverSegments height lateral).
Abbreviation stripLoop := (CreateRiver.loop riverCurve riverSegments height lateral).
Abbreviation written := (CreateRiver.written riverCurve riverSegments height lateral).

Lemma stripVertex_length (i j : nat) (point normal : THREE.Vector3)
      (positions : list number) :
  List.length (stripVertex i j point normal positions) = List.length positions.
Proof. unfold CreateRiver.setVertex. now rewrite !length_insert. Qed.

Lemma vertexAt_stripVertex_eq (i j : nat) (point normal : THREE.Vector3)
      (positions : list number) :
  ((i * 2 + j) * 3 + 2 < List.length positions)%nat ->
  CreateRoad.vertexAt (stripVertex i j point normal positions) (i * 2 + j)
  = Some (Num (THREE.x point + THREE.x normal * lateral j), height,
          Num (THREE.z point + THREE.z normal * lateral j)).
Proof.
  intros Hlen. unfold CreateRoad.vertexAt, CreateRiver.setVertex.
  rewrite list_lookup_insert_ne by lia.
  rewrite list_lookup_insert_ne by lia.
  rewrite list_lookup_insert_eq by lia.
  rewrite list_lookup_insert_ne by lia.
  rewrite list_lookup_insert_eq by (rewrite length_insert; lia).
  rewrite list_lookup_insert_eq by (rewrite !length_insert; lia).
  reflexivity.
Qed.

Lemma vertexAt_stripVertex_ne (i j k : nat) (point normal : THREE.Vector3)
      (positions : list number) :
  k <> (i * 2 + j)%nat ->
  CreateRoad.vertexAt (stripVertex i j point normal positions) k
  = CreateRoad.vertexAt positions k.
Proof.
  intros Hk. unfold CreateRoad.vertexAt, CreateRiver.setVertex.
  now rewrite !list_lookup_insert_ne by lia.
Qed.

Lemma stripStep_spec (i : nat) (positions : list number) :
  is_Some (written i 0%nat) ->
  (i * 6 + 5 < List.length positions)%nat ->
  exists positions',
    stripStep i positions = Normal positions' /\
    List.length positions' = List.length positions /\
    (forall j, (j < 2)%nat ->
               CreateRoad.vertexAt positions' (i * 2 + j) = written i j) /\
    (forall k, k <> (i * 2)%nat -> k <> (i * 2 + 1)%nat ->
               CreateRoad.vertexAt positions' k = CreateRoad.vertexAt positions k).
Proof.
  intros Hdef Hlen. unfold CreateRiver.written, CreateRiver.step in *.
  destruct (THREE.getPoint riverCurve _) as [point|];
    [|destruct Hdef as [v Hv]; discriminate Hv].
  destruct (THREE.getTangent riverCurve _) as [tangent|];
    [|destruct Hdef as [v Hv]; discriminate Hv].
  eexists. split; [reflexivity|]. cbv zeta.
  split; [now rewrite !stripVertex_length|]. split.
  - intros j Hj. destruct j as [|[|j]]; [| |lia].
    + rewrite vertexAt_stripVertex_ne by lia.
      now rewrite vertexAt_stripVertex_eq by lia.
    + now rewrite vertexAt_stripVertex_eq by (rewrite stripVertex_length; lia).
  - intros k Hk0 Hk1. now rewrite !vertexAt_stripVertex_ne by lia.
Qed.

Lemma stripLoop_spec (count first : nat) (positions : list number) :
  (forall i, (first <= i < first + count)%nat -> is_Some (written i 0%nat)) ->
  ((first + count) * 6 <= List.length positions)%nat ->
  exists positions',
    stripLoop count first positions = Normal positions' /\
    List.length positions' = List.length positions /\
    (forall i j, (first <= i < first + count)%nat -> (j < 2)%nat ->
                 CreateRoad.vertexAt positions' (i * 2 + j) = written i j) /\
    (forall k, (k < first * 2)%nat ->
               CreateRoad.vertexAt positions' k = CreateRoad.vertexAt positions k).
Proof.
  revert first positions.
  induction count as [|count IH]; intros first positions Hdef Hlen.
  - exists positions. simpl. repeat split; intros; try lia; reflexivity.
  - destruct (stripStep_spec first positions) as (p1 & Hstep & Hlen1 & Hpair & Hrest);
      [apply Hdef; lia|lia|].
    destruct (IH (S first) p1) as (p2 & Hloop & Hlen2 & Hpairs & Hbelow);
      [intros i Hi; apply Hdef; lia|rewrite Hlen1; lia|].
    exists p2. simpl. rewrite Hstep. split; [exact Hloop|].
    split; [congruence|]. split.
    + intros i j Hi Hj. destruct (decide (i = first)) as [->|Hne].
      * rewrite Hbelow by lia. now apply Hpair.
      * apply Hpairs; lia.
    + intros k Hk. rewrite Hbelow by lia. apply Hrest; lia.
Qed.

Lemma strip_spec (positions : list number) :
  (0 <= riverSegments)%Z ->
  CreateRoad.planeBuffer riverSegments positions ->
  CreateRoad.sampled riverCurve riverSegments ->
  exists positions',
    CreateRiver.strip riverCurve riverSegments height lateral positions
    = Normal positions' /\
    List.length positions' = List.length positions /\
    (forall i j, (i <= Z.to_nat riverSegments)%nat -> (j < 2)%nat ->
                 CreateRoad.vertexAt positions' (i * 2 + j) = written i j).
Proof.
  intros Hsegs Hbuf Hs. unfold CreateRoad.planeBuffer in Hbuf.
  destruct (stripLoop_spec (Z.to_nat (riverSegments + 1)) 0 positions)
    as (p & Hloop & Hlen & Hpairs & _).
  - intros i Hi. destruct (Hs i ltac:(lia)) as [[point Hp] [tangent Ht]].
    unfold CreateRiver.written, CreateRoad.parameter in *.
    rewrite Hp, Ht. eexists. reflexivity.
  - rewrite Hbuf. lia.
  - exists p. split; [exact Hloop|]. split; [exact Hlen|].
    intros i j Hi Hj. apply Hpairs; lia.
Qed.

End StripFacts.

(** X20: the banks meet the river.  For a curve that answers at every
    sample, the three strips are built, and at every sample the inner edge
    of each bank lies exactly over the river's edge on its side, half the
    river width from the centre line, with the bank at height 0 and the
    water at -0.5; the outer edge of each bank lies [bankWidth] further
    out. *)
Theorem createRiver_banks_adjoin
        (riverCurve : THREE.Curve) (riverWidth : R) (riverSegments : Z)
        (bankWidth : R) (positions leftPositions rightPositions : list number) :
  (0 <= riverSegments)%Z ->
  CreateRoad.planeBuffer riverSegments positions ->
  CreateRoad.planeBuffer riverSegments leftPositions ->
  CreateRoad.planeBuffer riverSegments rightPositions ->
  CreateRoad.sampled riverCurve riverSegments ->
  exists river leftBank rightBank,
    CreateRiver.riverVertices riverCurve riverWidth riverSegments positions
    = Normal river /\
    CreateRiver.bankVertices riverCurve riverWidth riverSegments bankWidth
                             (-1) leftPositions = Normal leftBank /\
    CreateRiver.bankVertices riverCurve riverWidth riverSegments bankWidth
                             1 rightPositions = Normal rightBank /\
    forall (i : nat) (point tangent : THREE.Vector3),
      (i <= Z.to_nat riverSegments)%nat ->
      THREE.getPoint riverCurve (CreateRoad.parameter riverSegments i) = Some point ->
      THREE.getTangent riverCurve (CreateRoad.parameter riverSegments i) = Some tangent ->
      let n := CreateRoad.planarNormal tangent in
      let at_ (d : R) (h : R) :=
        Some (Num (THREE.x point + THREE.x n * d), Num h,
              Num (THREE.z point + THREE.z n * d)) in
      CreateRoad.vertexAt river (i * 2) = at_ (- (riverWidth / 2)) (-0.5) /\
      CreateRoad.vertexAt river (i * 2 + 1) = at_ (riverWidth / 2) (-0.5) /\
      CreateRoad.vertexAt leftBank (i * 2) = at_ (- (riverWidth / 2)) 0 /\
      CreateRoad.vertexAt leftBank (i * 2 + 1)
      = at_ (- (riverWidth / 2 + bankWidth)) 0 /\
      CreateRoad.vertexAt rightBank (i * 2) = at_ (riverWidth / 2) 0 /\
      CreateRoad.vertexAt rightBank (i * 2 + 1) = at_ (riverWidth / 2 + bankWidth) 0.
Proof.
  intros Hsegs Hb Hbl Hbr Hs.
  destruct (strip_spec riverCurve riverSegments (Num (-0.5))
              (CreateRiver.riverLateral riverWidth) positions Hsegs Hb Hs)
    as (river & Hriver & _ & Hrv).
  destruct (strip_spec riverCurve riverSegments (Num 0)
              (CreateRiver.bankLateral riverWidth bankWidth (-1))
              leftPositions Hsegs Hbl Hs)
    as (lb & Hleft & _ & Hlv).
  destruct (strip_spec riverCurve riverSegments (Num 0)
              (CreateRiver.bankLateral riverWidth bankWidth 1)
              rightPositions Hsegs Hbr Hs)
    as (rb & Hright & _ & Hrbv).
  exists river, lb, rb. repeat (split; [assumption|]).
  intros i point tangent Hi Hp Ht n at_.
  pose proof (Hrv i 0%nat Hi ltac:(lia)) as R0.
  pose proof (Hrv i 1%nat Hi ltac:(lia)) as R1.
  pose proof (Hlv i 0%nat Hi ltac:(lia)) as L0.
  pose proof (Hlv i 1%nat Hi ltac:(lia)) as L1.
  pose proof (Hrbv i 0%nat Hi ltac:(lia)) as B0.
  pose proof (Hrbv i 1%nat Hi ltac:(lia)) as B1.
  rewrite Nat.add_0_r in R0, L0, B0.
  unfold CreateRiver.written, CreateRoad.parameter in *.
  rewrite Hp, Ht in R0, R1, L0, L1, B0, B1. fold n in R0, R1, L0, L1, B0, B1.
  rewrite R0, R1, L0, L1, B0, B1. unfold at_.
  unfold CreateRiver.riverLateral, CreateRiver.bankLateral. cbn [Nat.eqb].
  repeat split; apply vertex_eq; try reflexivity; field.
Qed.

Lemma createRiver_banks_adjoin_witness :
  exists river leftBank rightBank,
    CreateRiver.riverVertices
      (THREE.segmentCurve Scenario.start Scenario.finish) 10 2 Scenario.buffer
    = Normal river /\
    CreateRiver.bankVertices
      (THREE.segmentCurve Scenario.start Scenario.finish) 10 2 3 (-1) Scenario.buffer
    = Normal leftBank /\
    CreateRiver.bankVertices
      (THREE.segmentCurve Scenario.start Scenario.finish) 10 2 3 1 Scenario.buffer
    = Normal rightBank /\
    forall (i : nat) (point tangent : THREE.Vector3),
      (i <= Z.to_nat 2)%nat ->
      THREE.getPoint (THREE.segmentCurve Scenario.start Scenario.finish)
                     (CreateRoad.parameter 2 i) = Some point ->
      THREE.getTangent (THREE.segmentCurve Scenario.start Scenario.finish)
                       (CreateRoad.parameter 2 i) = Some tangent ->
      let n := CreateRoad.planarNormal tangent in
      let at_ (d : R) (h : R) :=
        Some (Num (THREE.x point + THREE.x n * d), Num h,
              Num (THREE.z point + THREE.z n * d)) in
      CreateRoad.vertexAt river (i * 2) = at_ (- (10 / 2)) (-0.5) /\
      CreateRoad.vertexAt river (i * 2 + 1) = at_ (10 / 2) (-0.5) /\
      CreateRoad.vertexAt leftBank (i * 2) = at_ (- (10 / 2)) 0 /\
      CreateRoad.vertexAt leftBank (i * 2 + 1) = at_ (- (10 / 2 + 3)) 0 /\
      CreateRoad.vertexAt rightBank (i * 2) = at_ (10 / 2) 0 /\
      CreateRoad.vertexAt rightBank (i * 2 + 1) = at_ (10 / 2 + 3) 0.
Proof.
  apply (createRiver_banks_adjoin
           (THREE.segmentCurve Scenario.start Scenario.finish) 10 2 3
           Scenario.buffer Scenario.buffer Scenario.buffer).
  - lia.
  - reflexivity.
  - reflexivity.
  - reflexivity.
  - apply segmentCurve_sampled. lia.
Defined.

(** * The animals *)

(** ** Birds *)

Lemma updateBird_flapping (step dt r1 r2 r3 : R) (bird : Bird.Bird) :
  0 <= dt <= step ->
  Bird.flapping step (Bird.animation bird) ->
  Bird.flapping step (Bird.animation (Bird.updateBird dt r1 r2 r3 bird)).
Proof.
  intros Hdt (Hdir & Hpos & Hhi & Hlo).
  unfold Bird.flapping, Bird.updateBird.
  cbn [Bird.animation Bird.wingDirection Bird.wingPosition].
  set (w := Bird.wingPosition (Bird.animation bird)) in *.
  set (d := Bird.wingDirection (Bird.animation bird)) in *.
  unfold Rltb.
  destruct Hdir as [Hd|Hd]; rewrite Hd in *;
    repeat (destruct (Rlt_dec _ _)); repeat split; intros; try lra;
    try (left; lra); try (right; lra).
Qed.

(** X21: the wings never beat further than [0.5 + 5 * step] from level,
    [step] being the longest time between two frames: this bound, and a
    beat direction of 1 or -1 that has turned whenever the wing is past
    0.5, hold after any sequence of frames once they hold before it; and
    after a frame the two wings mirror each other. *)
Theorem updateBird_wings_bounded
        (step : R) (bird : Bird.Bird) (frames : list Bird.Frame) :
  Bird.flapping step (Bird.animation bird) ->
  Forall (fun f => 0 <= Bird.deltaTime f <= step) frames ->
  let bird' := foldl Bird.frame bird frames in
  Bird.flapping step (Bird.animation bird') /\
  (frames <> [] ->
   Bird.wingL_rotation_x bird' = Bird.wingPosition (Bird.animation bird') /\
   Bird.wingR_rotation_x bird' = - Bird.wingL_rotation_x bird').
Proof.
  intros Hflap Hframes. cbv zeta.
  induction frames as [|f frames IH] using rev_ind.
  - split; [exact Hflap|]. intros Hne. now destruct Hne.
  - apply Forall_app in Hframes as [Hfs Hf].
    apply Forall_cons in Hf as [Hf _].
    destruct (IH Hfs) as [IHflap _].
    rewrite foldl_app. cbn [foldl]. split.
    + unfold Bird.frame at 1. now apply updateBird_flapping.
    + intros _. split; reflexivity.
Qed.

Lemma updateBird_wings_bounded_witness :
  let bird :=
    Bird.mkBird (THREE.mkVector3 0 12 0) 0 0 0
      (Bird.mkAnimation 1 0 (THREE.mkVector3 30 15 40) 0.1) in
  let frames := [Bird.mkFrame 0.016 0.1 0.2 0.3; Bird.mkFrame 0.02 0.4 0.5 0.6] in
  let bird' := foldl Bird.frame bird frames in
  Bird.flapping 0.02 (Bird.animation bird') /\
  (frames <> [] ->
   Bird.wingL_rotation_x bird' = Bird.wingPosition (Bird.animation bird') /\
   Bird.wingR_rotation_x bird' = - Bird.wingL_rotation_x bird').
Proof.
  apply (updateBird_wings_bounded 0.02
           (Bird.mkBird (THREE.mkVector3 0 12 0) 0 0 0
              (Bird.mkAnimation 1 0 (THREE.mkVector3 30 15 40) 0.1))
           [Bird.mkFrame 0.016 0.1 0.2 0.3; Bird.mkFrame 0.02 0.4 0.5 0.6]).
  - unfold Bird.flapping. simpl. repeat split; lra.
  - repeat (apply Forall_cons_2; [simpl; lra|]). apply Forall_nil_2.
Defined.

Lemma sqrt_scaled (s k : R) : 0 <= s -> sqrt (s * Rsqr k) = sqrt s * Rabs k.
Proof.
  intros Hs. rewrite sqrt_mult; [|exact Hs|apply Rle_0_sqr].
  now rewrite sqrt_Rsqr_abs.
Qed.

(** Moving from [p] towards [target] by [step] along the normalised
    difference leaves the distance [|d - step|], [d > 0] being the old one. *)
Lemma approach_distance (p target : THREE.Vector3) (step : R) :
  let d := THREE.distanceTo p target in
  let direction := THREE.normalize (subVectors target p) in
  let p' := THREE.mkVector3 (THREE.x p + THREE.x direction * step)
                            (THREE.y p + THREE.y direction * step)
                            (THREE.z p + THREE.z direction * step) in
  0 < d -> THREE.distanceTo p' target = Rabs (d - step).
Proof.
  intros d direction p' Hd.
  set (s := (THREE.x target - THREE.x p) * (THREE.x target - THREE.x p)
            + (THREE.y target - THREE.y p) * (THREE.y target - THREE.y p)
            + (THREE.z target - THREE.z p) * (THREE.z target - THREE.z p)).
  assert (Hds : d = sqrt s).
  { unfold d, THREE.distanceTo, THREE.length. cbn [THREE.x THREE.y THREE.z].
    f_equal. unfold s. ring. }
  assert (Hsq : forall a, 0 <= a * a) by (intros a; nra).
  assert (Hs : 0 <= s)
    by (unfold s; repeat apply Rplus_le_le_0_compat; apply Hsq).
  assert (Hl : THREE.length (subVectors target p) = d).
  { rewrite Hds. unfold THREE.length, subVectors. cbn [THREE.x THREE.y THREE.z].
    reflexivity. }
  unfold p', direction, THREE.normalize. rewrite Hl.
  destruct (Req_dec_T d 0) as [H0|_]; [lra|].
  unfold THREE.distanceTo, THREE.length, subVectors.
  cbn [THREE.x THREE.y THREE.z].
  match goal with
  | |- sqrt ?e = _ => replace e with (s * Rsqr (step * (1 / d) - 1))
      by (unfold s, Rsqr; ring)
  end.
  rewrite sqrt_scaled by exact Hs. rewrite <- Hds.
  rewrite <- (Rabs_right d) at 1 by lra.
  rewrite <- Rabs_mult, Rabs_minus_sym. f_equal. field. lra.
Qed.

(** X22: a bird flies straight at its target: when the target is at a
    distance [d > 0], an update moves the bird so that its distance to
    that target is [|d - moveSpeed|]. *)
Theorem updateBird_approaches_target
        (deltaTime r1 r2 r3 : R) (bird : Bird.Bird) :
  let target := Bird.moveTarget (Bird.animation bird) in
  let d := THREE.distanceTo (Bird.position bird) target in
  let bird' := Bird.updateBird deltaTime r1 r2 r3 bird in
  0 < d ->
  THREE.distanceTo (Bird.position bird') target
  = Rabs (d - Bird.moveSpeed (Bird.animation bird)).
Proof.
  intros target d bird' Hd. unfold bird', Bird.updateBird.
  cbn [Bird.position]. now apply approach_distance.
Qed.

Lemma updateBird_approaches_target_witness :
  let bird :=
    Bird.mkBird (THREE.mkVector3 0 12 0) 0 0 0
      (Bird.mkAnimation 1 0 (THREE.mkVector3 3 12 4) 0.1) in
  THREE.distanceTo (Bird.position (Bird.updateBird 0.016 0.1 0.2 0.3 bird))
                   (THREE.mkVector3 3 12 4)
  = Rabs (THREE.distanceTo (THREE.mkVector3 0 12 0) (THREE.mkVector3 3 12 4) - 0.1).
Proof.
  apply (updateBird_approaches_target 0.016 0.1 0.2 0.3
           (Bird.mkBird (THREE.mkVector3 0 12 0) 0 0 0
              (Bird.mkAnimation 1 0 (THREE.mkVector3 3 12 4) 0.1))).
  unfold THREE.distanceTo, THREE.length. simpl.
  apply sqrt_lt_R0. lra.
Defined.

(** ** Deer *)

Lemma distanceTo_height (p q : THREE.Vector3) :
  THREE.y q = 0 -> 0 <= THREE.y p -> THREE.y p <= THREE.distanceTo p q.
Proof.
  intros Hq Hp. unfold THREE.distanceTo, THREE.length.
  cbn [THREE.x THREE.y THREE.z]. rewrite Hq, Rminus_0_r.
  rewrite <- (sqrt_square (THREE.y p)) at 1 by exact Hp.
  apply sqrt_le_1_alt.
  assert (Hsq : forall a, 0 <= a * a) by (intros a; nra).
  pose proof (Hsq (THREE.x p - THREE.x q)).
  pose proof (Hsq (THREE.z p - THREE.z q)). lra.
Qed.

Lemma updateDeer_walking
      (getHeightAtPosition : R -> R -> R) (carPosition : THREE.Vector3)
      (deltaTime r0 r1 r2 : R) (deer : Deer.Deer) :
  (forall x z, 0 <= getHeightAtPosition x z) ->
  Deer.state (Deer.animation deer) = Deer.walking ->
  THREE.y (Deer.moveTarget (Deer.animation deer)) = 0 ->
  let deer' := Deer.updateDeer getHeightAtPosition carPosition
                               deltaTime r0 r1 r2 deer in
  Deer.state (Deer.animation deer') = Deer.walking /\
  THREE.y (Deer.moveTarget (Deer.animation deer')) = 0 /\
  (Deer.moveSpeed (Deer.animation deer') = Deer.moveSpeed (Deer.animation deer)
   \/ Deer.moveSpeed (Deer.animation deer') = 0.2).
Proof.
  intros Hground Hwalk Htarget deer'. unfold deer', Deer.updateDeer.
  rewrite Hwalk. cbv zeta.
  match goal with
  | |- context [Rltb (THREE.distanceTo ?p ?q) 2] =>
      assert (Hfar : Rltb (THREE.distanceTo p q) 2 = false)
  end.
  { apply Rltb_false.
    match goal with
    | |- 2 <= THREE.distanceTo ?p ?q =>
        pose proof (distanceTo_height p q Htarget) as Hh
    end.
    cbn [THREE.y] in Hh.
    match type of Hh with
    | 0 <= getHeightAtPosition ?a ?b + 2 -> _ =>
        specialize (Hground a b)
    end.
    lra. }
  rewrite Hfar.
  destruct (Rltb (THREE.distanceTo _ carPosition) 15);
    cbn [Deer.animation Deer.state Deer.moveTarget Deer.moveSpeed THREE.y];
    repeat split; tauto.
Qed.

(** X23: over ground that is nowhere below 0, a deer that has started to
    walk never stops: its target lies at height 0 while the deer stands 2
    above the ground, so it never comes within 2 of the target, and after
    any sequence of frames it is still walking; its speed is the one it had
    or, once the car has come within 15 of it, 0.2. *)
Theorem updateDeer_never_stops
        (getHeightAtPosition : R -> R -> R) (deer : Deer.Deer)
        (frames : list Deer.Frame) :
  (forall x z, 0 <= getHeightAtPosition x z) ->
  Deer.state (Deer.animation deer) = Deer.walking ->
  THREE.y (Deer.moveTarget (Deer.animation deer)) = 0 ->
  let deer' := foldl (Deer.frame getHeightAtPosition) deer frames in
  Deer.state (Deer.animation deer') = Deer.walking /\
  (Deer.moveSpeed (Deer.animation deer') = Deer.moveSpeed (Deer.animation deer)
   \/ Deer.moveSpeed (Deer.animation deer') = 0.2).
Proof.
  intros Hground Hwalk Htarget. cbv zeta.
  assert (Hinv :
    Deer.state (Deer.animation (foldl (Deer.frame getHeightAtPosition) deer frames))
    = Deer.walking /\
    THREE.y (Deer.moveTarget
               (Deer.animation (foldl (Deer.frame getHeightAtPosition) deer frames)))
    = 0 /\
    (Deer.moveSpeed (Deer.animation (foldl (Deer.frame getHeightAtPosition) deer frames))
     = Deer.moveSpeed (Deer.animation deer)
     \/ Deer.moveSpeed (Deer.animation (foldl (Deer.frame getHeightAtPosition) deer frames))
        = 0.2)).
  { induction frames as [|f frames IH] using rev_ind.
    - cbn [foldl]. repeat split; try assumption. now left.
    - rewrite foldl_app. cbn [foldl].
      destruct IH as (IHw & IHt & IHs).
      destruct (updateDeer_walking getHeightAtPosition (Deer.car f)
                  (Deer.deltaTime f) (Deer.r0 f) (Deer.r1 f) (Deer.r2 f)
                  _ Hground IHw IHt) as (Sw & St & Ss).
      unfold Deer.frame at 1 3 5 7.
      split; [exact Sw|]. split; [exact St|].
      destruct Ss as [Ss|Ss]; [|now right].
      rewrite Ss. exact IHs. }
  destruct Hinv as (Hw & _ & Hs). now split.
Qed.

Lemma updateDeer_never_stops_witness :
  let deer :=
    Deer.mkDeer (THREE.mkVector3 50 2 100) 0 0 (0, 0, 0, 0)
      (Deer.mkAnimation Deer.walking 0 (THREE.mkVector3 50.5 0 100) 0.05) in
  let frames :=
    [Deer.mkFrame 0.016 (THREE.mkVector3 0 1.5 0) 0.9 0.1 0.2;
     Deer.mkFrame 0.016 (THREE.mkVector3 45 1.5 95) 0.9 0.1 0.2] in
  let deer' := foldl (Deer.frame CarExample.level) deer frames in
  Deer.state (Deer.animation deer') = Deer.walking /\
  (Deer.moveSpeed (Deer.animation deer') = Deer.moveSpeed (Deer.animation deer)
   \/ Deer.moveSpeed (Deer.animation deer') = 0.2).
Proof.
  apply (updateDeer_never_stops CarExample.level
           (Deer.mkDeer (THREE.mkVector3 50 2 100) 0 0 (0, 0, 0, 0)
              (Deer.mkAnimation Deer.walking 0 (THREE.mkVector3 50.5 0 100) 0.05))
           [Deer.mkFrame 0.016 (THREE.mkVector3 0 1.5 0) 0.9 0.1 0.2;
            Deer.mkFrame 0.016 (THREE.mkVector3 45 1.5 95) 0.9 0.1 0.2]).
  - intros x z. unfold CarExample.level. lra.
  - reflexivity.
  - reflexivity.
Defined.

(** * The headlights *)

Lemma toggleHeadlights_call (s : Headlights.State) :
  Headlights.toggleHeadlights s
  = (Headlights.mkState (negb (Headlights.headlightsOn s))
                        (Headlights.headlightIntensity s)
                        (if negb (Headlights.headlightsOn s) then 1 else 0)
                        (Headlights.spotlights s),
     Headlights.ReferenceError).
Proof. reflexivity. Qed.

(** X24: a press of the H key never lights the beams: every call of
    toggleHeadlights ends in a ReferenceError at the assignment written
    between the two loops, after the flag has been flipped and the shared
    headlight material set to 1 or 0, and before the loop over the spot
    lights; so after any number of presses the spot lights have the
    intensities they had, while the flag has been flipped once per press. *)
Theorem toggleHeadlights_never_lights_beams (n : nat) (s : Headlights.State) :
  snd (Headlights.toggleHeadlights s) = Headlights.ReferenceError /\
  Headlights.spotlights (Headlights.presses n s) = Headlights.spotlights s /\
  Headlights.headlightsOn (Headlights.presses n s)
  = (if Nat.even n then Headlights.headlightsOn s
     else negb (Headlights.headlightsOn s)) /\
  Headlights.emissiveIntensity (Headlights.presses (S n) s)
  = (if Headlights.headlightsOn (Headlights.presses (S n) s) then 1 else 0).
Proof.
  split; [reflexivity|].
  assert (Hstep : forall m,
    Headlights.presses (S m) s
    = fst (Headlights.toggleHeadlights (Headlights.presses m s)))
    by reflexivity.
  assert (Hspots : forall m,
    Headlights.spotlights (Headlights.presses m s) = Headlights.spotlights s).
  { induction m as [|m IH]; [reflexivity|].
    rewrite Hstep, toggleHeadlights_call. exact IH. }
  assert (Hflag : forall m,
    Headlights.headlightsOn (Headlights.presses m s)
    = (if Nat.even m then Headlights.headlightsOn s
       else negb (Headlights.headlightsOn s))).
  { induction m as [|m IH]; [reflexivity|].
    rewrite Hstep, toggleHeadlights_call.
    cbn [fst Headlights.headlightsOn]. rewrite IH, Nat.even_succ.
    rewrite <- Nat.negb_even.
    destruct (Nat.even m), (Headlights.headlightsOn s); reflexivity. }
  split; [apply Hspots|]. split; [apply Hflag|].
  rewrite Hstep, toggleHeadlights_call. reflexivity.
Qed.
